(** * Calendar assistant bot: orchestration, conversation store and
      long-message splitting

    A shallow embedding of the Go packages [types], [database],
    [calendar], [telegram], [ai] and [config] of the calendar assistant
    bot, and the properties of the message-handling pipeline, of the
    maintenance of the conversation store and of the configuration loader
    proved over it.

    Conventions of the embedding.
    - A Go [string] is a byte string: Rocq's [string], one [ascii] per byte.
      [len(s)] is [String.length s].
    - A Go [int] or [int64] is a [Z]. The only arithmetic the embedded code
      does on them is on lengths and indices of values held in memory, which
      stay far below [2^63], so no wrap-around occurs.
    - A Go [error] is identified with the text [err.Error()] returns, which
      is all the embedded code ever looks at (through [%v]); a possibly-nil
      [error] is an [option error].
    - Everything the process does to the outside (the OpenAI client, the
      Google Calendar client, the Telegram client, the file system, the
      clock, the logger) is threaded through an explicit [World]: the calls
      made so far are recorded in [trace], the lines given to [log.Printf]
      in [logs], and what the outside answers is read from a record of
      [Collaborators], each of which may depend on the whole history.
    - The two methods of [time.Time] that [Cleanup] calls are a [TimeLib],
      and the process environment [config.Load] reads is an [Environment];
      the properties hold for every one of them.
    - Where the file of the store is read back, what [encoding/json] and
      [time] do to a table of interactions is a model of these packages
      after their documentation, and the collaborators are taken to answer
      as the model does. *)

From Stdlib Require Import ZArith NArith String Ascii List Lia.
From Stdlib Require Import DecimalString DecimalPos.
From Equations Require Import Equations.
From stdpp Require Import gmap strings list pretty sorting.

Import ListNotations.
Local Open Scope Z_scope.

(** ** Strings and formatting *)

(** The newline byte, Go's ["\n"]. *)
Definition nl : string := String (ascii_of_nat 10) EmptyString.

(** [len(s)] as a Go [int]. *)
Definition len (s : string) : Z := Z.of_nat (String.length s).

(** The slice expression [s[lo:hi]]; the embedded code only evaluates it
    with [0 <= lo <= hi <= len(s)]. *)
Definition slice (s : string) (lo hi : Z) : string :=
  substring (Z.to_nat lo) (Z.to_nat (hi - lo)) s.

(** The verb [%d] of [fmt.Sprintf] on an integer. *)
Definition fmt_d (n : Z) : string := pretty n.
Arguments fmt_d : simpl never.

(** [strings.LastIndex(s, "\n")]: the index of the last newline byte of [s],
    or [-1] when there is none. [last_newline_from i s] scans [s], whose
    first byte has index [i]. *)
Fixpoint last_newline_from (i : Z) (s : string) : Z :=
  match s with
  | EmptyString => -1
  | String c rest =>
      let later := last_newline_from (i + 1) rest in
      if 0 <=? later then later
      else if Ascii.eqb c (ascii_of_nat 10) then i else -1
  end.

Definition strings_LastIndex_nl (s : string) : Z := last_newline_from 0 s.

Lemma substring_length_le (s : string) (n m : nat) :
  (String.length (substring n m s) <= m)%nat.
Proof.
  revert n m. induction s as [|c s IH]; intros [|n] [|m]; cbn; try lia.
  - specialize (IH 0%nat m). lia.
  - specialize (IH n 0%nat). lia.
  - specialize (IH n (S m)). lia.
Qed.

(** The index found is that of a byte of [s]. *)
Lemma last_newline_from_bound (s : string) (i : Z) :
  last_newline_from i s = -1
  \/ i <= last_newline_from i s < i + Z.of_nat (String.length s).
Proof.
  revert i. induction s as [|c s IH]; intros i; cbn [last_newline_from String.length].
  - left. reflexivity.
  - destruct (IH (i + 1)) as [Hb | Hb];
      destruct (Z.leb_spec 0 (last_newline_from (i + 1) s));
      destruct (Ascii.eqb c (ascii_of_nat 10)); lia.
Qed.

Lemma strings_LastIndex_nl_bound (s : string) :
  -1 <= strings_LastIndex_nl s < len s.
Proof.
  unfold strings_LastIndex_nl, len.
  destruct (last_newline_from_bound s 0); lia.
Qed.

(** ** Package [types] *)

Definition error : Type := string.

Inductive result (A : Type) : Type :=
| Ok (a : A)
| Err (e : error).
Arguments Ok {A} a.
Arguments Err {A} e.

(** A [time.Time], as far as the program observes it: the instant in
    seconds since the Unix epoch and the offset (seconds east of UTC) of
    its location. *)
Record Time : Type := mkTime { unix : Z; zone_offset : Z }.

Definition pad2 (n : Z) : string :=
  if n <? 10 then "0" +:+ fmt_d n else fmt_d n.

(** [t.Format("15:04")]: the 24-hour clock reading, hours and minutes. *)
Definition Format_15_04 (t : Time) : string :=
  let clock := (unix t + zone_offset t) mod 86400 in
  pad2 (clock / 3600) +:+ ":" +:+ pad2 ((clock mod 3600) / 60).

Record AIAction : Type := mkAIAction {
  sub_Action : string;
  sub_EventDate : string;
  sub_EventTitle : string;
  sub_EventTime : string;
  sub_EventDesc : string;
  sub_EventLoc : string
}.

Record AIResponse : Type := mkAIResponse {
  Action : string;
  Message : string;
  EventID : string;
  EventTitle : string;
  EventDate : string;
  EventTime : string;
  EventDesc : string;
  EventLoc : string;
  Actions : list AIAction
}.

Record CalendarEvent : Type := mkCalendarEvent {
  ev_ID : string;
  ev_Summary : string;
  ev_Description : string;
  ev_Start : Time;
  ev_End : Time;
  ev_Location : string
}.

Record Interaction : Type := mkInteraction {
  i_UserID : Z;
  i_Timestamp : Time;
  i_UserMessage : string;
  i_AIResponse : string;
  i_Action : string
}.

(** ** The world outside the process *)

(** A call that leaves the embedded packages, or that enters one of the
    collaborator objects the agent holds ([calendar.Service],
    [telegram.Bot]). *)
Inductive Call : Type :=
| CallNow
| CallChatCompletion (userPrompt : string)
| CallWriteFile (path data : string)
| CallGetEvents (dateStr : string)
| CallCreateEvent (title dateStr timeStr description location : string)
| CallUpdateEvent (eventID title dateStr timeStr description location : string)
| CallDeleteEvent (eventID : string)
| CallSendMessage (chatID : Z) (text : string)
| CallBotSend (chatID : Z) (text : string)
| CallSleep (milliseconds : Z).

(** An argument handed to [log.Printf]. *)
Inductive LogArg : Type :=
| LInt (n : Z)
| LStr (s : string)
| LErr (e : option error)
| LInteractions (l : list Interaction).

(** A [log.Printf] call: the format string and its arguments, unrendered. *)
Record LogEntry : Type := mkLog { log_format : string; log_args : list LogArg }.

(** What the outside answers. Every answer may depend on all the calls made
    before it. The JSON codec of [encoding/json] is a pure function of its
    input. *)
Record Collaborators : Type := mkCollaborators {
  (** [time.Now()] *)
  time_Now : list Call -> Time;
  (** [client.CreateChatCompletion]: the contents of the returned choices *)
  openai_CreateChatCompletion : list Call -> string -> result (list string);
  (** [json.Unmarshal] into a [types.AIResponse] *)
  json_Unmarshal_AIResponse : string -> option AIResponse;
  (** [json.MarshalIndent] of the interaction table *)
  json_MarshalIndent : gmap Z (list Interaction) -> result string;
  (** [os.WriteFile] *)
  os_WriteFile : list Call -> string -> string -> option error;
  (** the body of [Service.GetEvents] after the date default: resolving the
      date expression to a time range, [Events.List], converting the items *)
  calendar_list : list Call -> string -> result (list CalendarEvent);
  (** the bodies of [Service.CreateEvent], [UpdateEvent], [DeleteEvent] *)
  calendar_insert : list Call -> string -> string -> string -> string -> string -> option error;
  calendar_update : list Call -> string -> string -> string -> string -> string -> string -> option error;
  calendar_delete : list Call -> string -> option error;
  (** [bot.Send] of the Telegram client *)
  tgbot_Send : list Call -> Z -> string -> option error
}.

(** The in-memory part of [database.Database]; the mutex is not modelled,
    every embedded method runs to completion. *)
Record Database : Type := mkDatabase {
  filePath : string;
  interactions : gmap Z (list Interaction)
}.

Record World : Type := mkWorld {
  db : Database;
  trace : list Call;
  logs : list LogEntry
}.

(** ** A state monad over the world *)

Definition M (A : Type) : Type := World -> A * World.

Definition ret {A : Type} (a : A) : M A := fun w => (a, w).

Definition bind {A B : Type} (m : M A) (k : A -> M B) : M B :=
  fun w => let (a, w') := m w in k a w'.

Declare Scope go_scope.
Delimit Scope go_scope with go.
Notation "x <- m ;; k" := (bind m (fun x => k))
  (at level 100, m at next level, right associativity) : go_scope.
Notation "m ;;; k" := (bind m (fun _ => k))
  (at level 100, right associativity) : go_scope.
Local Open Scope go_scope.

(** [log.Printf(format, args...)] *)
Definition log_Printf (format : string) (args : list LogArg) : M unit :=
  fun w => (tt, mkWorld (db w) (trace w) (logs w ++ [mkLog format args])).

(** Record a call and ask the collaborator, who sees the history including
    this call. *)
Definition call {A : Type} (c : Call) (answer : list Call -> A) : M A :=
  fun w => let t := trace w ++ [c] in (answer t, mkWorld (db w) t (logs w)).

(** Record the entry into a collaborator object's method. *)
Definition enter (c : Call) : M unit := call c (fun _ => tt).

Definition get_interactions : M (gmap Z (list Interaction)) :=
  fun w => (interactions (db w), w).

Definition set_interactions (m : gmap Z (list Interaction)) : M unit :=
  fun w => (tt, mkWorld (mkDatabase (filePath (db w)) m) (trace w) (logs w)).

Definition get_filePath : M string := fun w => (filePath (db w), w).

(** [m[userID]] on a Go map of slices: the zero value, the nil slice, when
    the key is absent. A nil slice and an empty slice are both []. *)
Definition at_user (m : gmap Z (list Interaction)) (userID : Z) : list Interaction :=
  default [] (m !! userID).

(** ** Package [database] *)

Module database.
Section WithCollaborators.
Variable C : Collaborators.

(** [Database.saveInteractions] *)
Definition saveInteractions : M (option error) :=
  m <- get_interactions ;;
  match json_MarshalIndent C m with
  | Err e => ret (Some ("failed to marshal interactions: " +:+ e))
  | Ok data =>
      path <- get_filePath ;;
      r <- call (CallWriteFile path data) (fun t => os_WriteFile C t path data) ;;
      match r with
      | Some e => ret (Some ("failed to write interactions file: " +:+ e))
      | None => ret None
      end
  end.

(** [Database.AddInteraction] *)
Definition AddInteraction (userID : Z) (userMessage aiResponse action : string)
  : M (option error) :=
  now <- call CallNow (time_Now C) ;;
  let interaction := mkInteraction userID now userMessage aiResponse action in
  (* Add to in-memory storage *)
  m <- get_interactions ;;
  let m := match m !! userID with
           | None => <[userID := []]> m
           | Some _ => m
           end in
  let m := <[userID := at_user m userID ++ [interaction]]> m in
  (* Keep only last 50 interactions per user *)
  let m := if Z.of_nat (length (at_user m userID)) >? 50
           then <[userID := drop (Z.to_nat (Z.of_nat (length (at_user m userID)) - 50))
                                 (at_user m userID)]> m
           else m in
  set_interactions m ;;;
  (* Persist to disk *)
  log_Printf "Saving interactions for user %d" [LInt userID] ;;;
  log_Printf "Interactions: %v" [LInteractions (at_user m userID)] ;;;
  saveInteractions.

(** [Database.GetUserInteractions] *)
Definition GetUserInteractions (userID : Z) (limit : Z) : M (list Interaction) :=
  m <- get_interactions ;;
  let interactions := at_user m userID in
  if Z.of_nat (length interactions) =? 0 then ret []
  else if (limit >? 0) && (Z.of_nat (length interactions) >? limit)
  then ret (drop (Z.to_nat (Z.of_nat (length interactions) - limit)) interactions)
  else ret interactions.

(** [Database.GetUserContext] *)
Definition GetUserContext (userID : Z) (messageCount : Z) : M string :=
  interactions <- GetUserInteractions userID messageCount ;;
  if Z.of_nat (length interactions) =? 0 then ret ""
  else
    ret (fold_left
           (fun context interaction =>
              context +:+ ("User: " +:+ i_UserMessage interaction +:+ nl
                           +:+ "AI: " +:+ i_AIResponse interaction +:+ nl +:+ nl))
           interactions "").

End WithCollaborators.
End database.

(** ** Package [calendar] *)

Module calendar.
Section WithCollaborators.
Variable C : Collaborators.

(** [Service.GetEvents]: an empty date string defaults to today; the rest
    of the body is the collaborator's. *)
Definition GetEvents (dateStr : string) : M (result (list CalendarEvent)) :=
  let dateStr0 := dateStr in
  let dateStr := if String.eqb dateStr "" then "today" else dateStr in
  call (CallGetEvents dateStr0) (fun t => calendar_list C t dateStr).

(** [Service.CreateEvent] *)
Definition CreateEvent (title dateStr timeStr description location : string)
  : M (option error) :=
  call (CallCreateEvent title dateStr timeStr description location)
       (fun t => calendar_insert C t title dateStr timeStr description location).

(** [Service.UpdateEvent] *)
Definition UpdateEvent (eventID title dateStr timeStr description location : string)
  : M (option error) :=
  call (CallUpdateEvent eventID title dateStr timeStr description location)
       (fun t => calendar_update C t eventID title dateStr timeStr description location).

(** [Service.DeleteEvent] *)
Definition DeleteEvent (eventID : string) : M (option error) :=
  call (CallDeleteEvent eventID) (fun t => calendar_delete C t eventID).

End WithCollaborators.
End calendar.

(** ** Package [telegram] *)

Module telegram.

Definition maxLength : Z := 4000.

(** The suffix a part that is not the last one gets. *)
Definition continued : string := nl +:+ nl +:+ "[Message continued...]".

(** Where the chunk that starts at [start] ends: the first loop body of
    [sendLongMessage] up to the [append]. *)
Definition chunk_end (text : string) (start : Z) : Z :=
  let end_ := start + maxLength in
  let end_ := if end_ >? len text then len text else end_ in
  (* Try to break at a newline if possible *)
  if end_ <? len text then
    let lastNewline := strings_LastIndex_nl (slice text start end_) in
    if (lastNewline >? 0) && (lastNewline >? maxLength / 2)
    then start + lastNewline + 1
    else end_
  else end_.

(** Every chunk is non-empty, at most [maxLength] bytes long, and ends
    inside the text: the loop below makes progress. *)
Lemma chunk_end_progress (text : string) (start : Z) :
  start < len text ->
  start < chunk_end text start <= len text
  /\ chunk_end text start <= start + maxLength.
Proof.
  intros Hlt. unfold chunk_end, maxLength.
  destruct (Z.gtb_spec (start + 4000) (len text)) as [Hgt | Hle].
  - rewrite Z.ltb_irrefl. lia.
  - destruct (Z.ltb_spec (start + 4000) (len text)) as [Hlt2 | Hge]; [| lia].
    destruct ((_ >? 0) && _) eqn:Hnl; [| lia].
    apply andb_prop in Hnl as [Hpos _].
    pose proof (strings_LastIndex_nl_bound (slice text start (start + 4000))) as Hb.
    pose proof (substring_length_le text (Z.to_nat start)
                  (Z.to_nat (start + 4000 - start))) as Hs.
    fold (slice text start (start + 4000)) in Hs.
    unfold len in Hb. lia.
Qed.

(** The first loop of [sendLongMessage]: split the text into chunks. *)
Equations? split_loop (text : string) (start : Z) (messages : list string)
  : list string by wf (Z.to_nat (len text - start)) lt :=
  split_loop text start messages with decide (start < len text) => {
    | right _ := messages;
    | left _ :=
        split_loop text (chunk_end text start)
                   (messages ++ [slice text start (chunk_end text start)]) }.
Proof. destruct (chunk_end_progress text start); lia. Qed.

Section WithCollaborators.
Variable C : Collaborators.

(** The second loop of [sendLongMessage]: send each chunk. [i] is the
    index of the head of [rest] in the whole list, of length [total]. *)
Fixpoint send_loop (chatID : Z) (total : Z) (i : Z) (rest : list string)
  : M (option error) :=
  match rest with
  | [] => ret None
  | message :: rest =>
      let text := if i <? total - 1 then message +:+ continued else message in
      r <- call (CallBotSend chatID text) (fun t => tgbot_Send C t chatID text) ;;
      match r with
      | Some e =>
          ret (Some ("failed to send message part " +:+ fmt_d (i + 1) +:+ "/"
                     +:+ fmt_d total +:+ ": " +:+ e))
      | None =>
          (* Small delay between messages to avoid rate limiting *)
          enter (CallSleep 100) ;;;
          send_loop chatID total (i + 1) rest
      end
  end.

(** [Bot.sendLongMessage] *)
Definition sendLongMessage (chatID : Z) (text : string) : M (option error) :=
  let messages := split_loop text 0 [] in
  r <- send_loop chatID (Z.of_nat (length messages)) 0 messages ;;
  match r with
  | Some e => ret (Some e)
  | None =>
      log_Printf "Successfully sent long message in %d parts"
                 [LInt (Z.of_nat (length messages))] ;;;
      ret None
  end.

(** [Bot.SendMessage] *)
Definition SendMessage (chatID : Z) (text : string) : M (option error) :=
  enter (CallSendMessage chatID text) ;;;
  log_Printf "Sending message to chat %d: %s" [LInt chatID; LStr text] ;;;
  (* Check if message is too long for Telegram (max 4096 characters) *)
  if len text >? 4096 then
    log_Printf "Message too long (%d chars), splitting into multiple messages"
               [LInt (len text)] ;;;
    sendLongMessage chatID text
  else
    r <- call (CallBotSend chatID text) (fun t => tgbot_Send C t chatID text) ;;
    match r with
    | Some e => ret (Some ("failed to send message: " +:+ e))
    | None => ret None
    end.

End WithCollaborators.
End telegram.

(** ** Package [ai] *)

Module ai.
Section WithCollaborators.
Variable C : Collaborators.

(** The error and the length of the events of a [GetEvents] result, as the
    two Go return values show them to the logger. *)
Definition err_of {A : Type} (r : result A) : option error :=
  match r with Ok _ => None | Err e => Some e end.

Definition count_of (r : result (list CalendarEvent)) : Z :=
  match r with Ok events => Z.of_nat (length events) | Err _ => 0 end.

(** The user prompt [ProcessMessage] builds: the message, after the
    conversation context when there is one. *)
Definition userPrompt (userContext message : string) : string :=
  if negb (String.eqb userContext "")
  then userContext +:+ nl +:+ nl +:+ "User: " +:+ message
  else message.

(** [OpenAIService.ProcessMessage]. The system prompt is a constant text
    around the current time, read from the clock first; the request is
    recorded by its user prompt. *)
Definition ProcessMessage (userContext message : string) : M (result AIResponse) :=
  now <- call CallNow (time_Now C) ;;
  let userPrompt := userPrompt userContext message in
  r <- call (CallChatCompletion userPrompt)
            (fun t => openai_CreateChatCompletion C t userPrompt) ;;
  match r with
  | Err e => ret (Err ("OpenAI API error: " +:+ e))
  | Ok [] => ret (Err "no response from OpenAI")
  | Ok (content :: _) =>
      (* Try to parse JSON response; if not JSON, treat as simple message *)
      let aiResp :=
        match json_Unmarshal_AIResponse C content with
        | Some aiResp => aiResp
        | None => mkAIResponse "message" content "" "" "" "" "" "" []
        end in
      (* Validate required fields for specific actions *)
      if String.eqb (Action aiResp) "getEvents" && String.eqb (EventDate aiResp) ""
      then
        let aiResp :=
          mkAIResponse (Action aiResp) (Message aiResp) (EventID aiResp)
                       (EventTitle aiResp) "today" (EventTime aiResp)
                       (EventDesc aiResp) (EventLoc aiResp) (Actions aiResp) in
        log_Printf "AI response missing event_date for getEvents action, defaulting to 'today'" [] ;;;
        ret (Ok aiResp)
      else ret (Ok aiResp)
  end.

(** The loop over the events to show, the same in every branch that
    lists events: one line per event, appended to the response. *)
Definition append_events (response : string) (eventsToShow : list CalendarEvent)
  : string :=
  fold_left
    (fun response event =>
       let response :=
         response +:+ ("• " +:+ ev_Summary event +:+ " ("
                       +:+ Format_15_04 (ev_Start event) +:+ " - "
                       +:+ Format_15_04 (ev_End event) +:+ ")") in
       let response :=
         if negb (String.eqb (ev_Location event) "")
         then response +:+ (" - " +:+ ev_Location event)
         else response in
       response +:+ nl)
    eventsToShow response.

(** The loop of [executeAIAction] over [aiResponse.Actions]; [i] is the
    index of the head of [rest] in the whole list, of length [total]. *)
Fixpoint actions_loop (userID : Z) (total : Z) (i : Z) (rest : list AIAction)
         (response : string) : M string :=
  match rest with
  | [] => ret response
  | action :: rest =>
      log_Printf "Executing action %d/%d: %s"
                 [LInt (i + 1); LInt total; LStr (sub_Action action)] ;;;
      response <-
        (if String.eqb (sub_Action action) "getEvents" then
           r <- calendar.GetEvents C (sub_EventDate action) ;;
           match r with
           | Err err =>
               log_Printf "Error getting events for user %d: %v"
                          [LInt userID; LErr (Some err)] ;;;
               ret (response +:+ ("Error getting events for " +:+ sub_EventDate action
                                  +:+ ": " +:+ err +:+ nl))
           | Ok events =>
               if Z.of_nat (length events) =? 0 then
                 ret (response +:+ ("No events found for " +:+ sub_EventDate action
                                    +:+ "." +:+ nl))
               else
                 (* Limit the number of events shown *)
                 let maxEvents := 15 in
                 let eventsToShow :=
                   if Z.of_nat (length events) >? maxEvents
                   then take (Z.to_nat maxEvents) events else events in
                 let response :=
                   if Z.of_nat (length events) >? maxEvents
                   then response +:+ ("Events for " +:+ sub_EventDate action
                                      +:+ " (showing first " +:+ fmt_d maxEvents
                                      +:+ " of " +:+ fmt_d (Z.of_nat (length events))
                                      +:+ "):" +:+ nl)
                   else response +:+ ("Events for " +:+ sub_EventDate action
                                      +:+ ":" +:+ nl) in
                 let response := append_events response eventsToShow in
                 let response :=
                   if Z.of_nat (length events) >? maxEvents
                   then response +:+ ("... and "
                                      +:+ fmt_d (Z.of_nat (length events) - maxEvents)
                                      +:+ " more events." +:+ nl)
                   else response in
                 ret (response +:+ nl)
           end
         else
           ret (response +:+ ("Unknown action: " +:+ sub_Action action +:+ nl))) ;;
      actions_loop userID total (i + 1) rest response
  end.

(** The single-action [getEvents] case of [executeAIAction]. *)
Definition single_getEvents (userID : Z) (aiResponse : AIResponse) : M string :=
  log_Printf "Getting events for user %d, date: '%s' (length: %d)"
             [LInt userID; LStr (EventDate aiResponse); LInt (len (EventDate aiResponse))] ;;;
  log_Printf "About to call Google Calendar API for user %d" [LInt userID] ;;;
  r <- calendar.GetEvents C (EventDate aiResponse) ;;
  log_Printf "Google Calendar API call completed for user %d, err=%v, events count=%d"
             [LInt userID; LErr (err_of r); LInt (count_of r)] ;;;
  match r with
  | Err err =>
      log_Printf "Error getting events for user %d: %v" [LInt userID; LErr (Some err)] ;;;
      ret ("Error getting events: " +:+ err)
  | Ok events =>
      if Z.of_nat (length events) =? 0 then
        log_Printf "No events found for user %d on %s"
                   [LInt userID; LStr (EventDate aiResponse)] ;;;
        ret ("No events found for " +:+ EventDate aiResponse +:+ ".")
      else
        log_Printf "Found %d events for user %d on %s"
                   [LInt (Z.of_nat (length events)); LInt userID;
                    LStr (EventDate aiResponse)] ;;;
        (* Limit the number of events shown *)
        let maxEvents := 20 in
        let eventsToShow :=
          if Z.of_nat (length events) >? maxEvents
          then take (Z.to_nat maxEvents) events else events in
        let response :=
          if Z.of_nat (length events) >? maxEvents
          then "Events for " +:+ EventDate aiResponse +:+ " (showing first "
               +:+ fmt_d maxEvents +:+ " of " +:+ fmt_d (Z.of_nat (length events))
               +:+ "):" +:+ nl
          else "Events for " +:+ EventDate aiResponse +:+ ":" +:+ nl in
        let response := append_events response eventsToShow in
        let response :=
          if Z.of_nat (length events) >? maxEvents
          then response +:+ (nl +:+ "... and "
                             +:+ fmt_d (Z.of_nat (length events) - maxEvents)
                             +:+ " more events. Use a more specific date range to see fewer events.")
          else response in
        ret response
  end.

(** [Agent.executeAIAction] *)
Definition executeAIAction (userID : Z) (aiResponse : AIResponse)
  : M (string * option error) :=
  log_Printf "executeAIAction ENTRY for user %d" [LInt userID] ;;;
  log_Printf "Executing action for user %d, Action=%s, Message=%s, EventDate=%s"
             [LInt userID; LStr (Action aiResponse); LStr (Message aiResponse);
              LStr (EventDate aiResponse)] ;;;
  response <-
    (* Check if AI wants to perform multiple actions *)
    (if Z.of_nat (length (Actions aiResponse)) >? 0 then
       log_Printf "AI requested %d actions for user %d"
                  [LInt (Z.of_nat (length (Actions aiResponse))); LInt userID] ;;;
       actions_loop userID (Z.of_nat (length (Actions aiResponse))) 0
                    (Actions aiResponse) (Message aiResponse +:+ nl +:+ nl)
     else
       (* Single action (existing logic) *)
       if String.eqb (Action aiResponse) "getEvents" then
         single_getEvents userID aiResponse
       else if String.eqb (Action aiResponse) "makeEvent" then
         log_Printf "Creating event for user %d: %s on %s at %s"
                    [LInt userID; LStr (EventTitle aiResponse);
                     LStr (EventDate aiResponse); LStr (EventTime aiResponse)] ;;;
         err <- calendar.CreateEvent C (EventTitle aiResponse) (EventDate aiResponse)
                                     (EventTime aiResponse) (EventDesc aiResponse)
                                     (EventLoc aiResponse) ;;
         match err with
         | Some err =>
             log_Printf "Error creating event for user %d: %v"
                        [LInt userID; LErr (Some err)] ;;;
             ret ("Error creating event: " +:+ err)
         | None =>
             log_Printf "Successfully created event for user %d" [LInt userID] ;;;
             ret ("Event '" +:+ EventTitle aiResponse +:+ "' created successfully for "
                  +:+ EventDate aiResponse +:+ " at " +:+ EventTime aiResponse)
         end
       else if String.eqb (Action aiResponse) "delEvents" then
         if String.eqb (EventID aiResponse) "" then
           log_Printf "User %d tried to delete event without specifying ID" [LInt userID] ;;;
           ret "Please specify an event ID to delete. Use 'getEvents' first to see available events."
         else
           log_Printf "Deleting event %s for user %d"
                      [LStr (EventID aiResponse); LInt userID] ;;;
           err <- calendar.DeleteEvent C (EventID aiResponse) ;;
           match err with
           | Some err =>
               log_Printf "Error deleting event %s for user %d: %v"
                          [LStr (EventID aiResponse); LInt userID; LErr (Some err)] ;;;
               ret ("Error deleting event: " +:+ err)
           | None =>
               log_Printf "Successfully deleted event %s for user %d"
                          [LStr (EventID aiResponse); LInt userID] ;;;
               ret "Event deleted successfully."
           end
       else if String.eqb (Action aiResponse) "updtEvent" then
         if String.eqb (EventID aiResponse) "" then
           log_Printf "User %d tried to update event without specifying ID" [LInt userID] ;;;
           ret "Please specify an event ID to update. Use 'getEvents' first to see available events."
         else
           log_Printf "Updating event %s for user %d"
                      [LStr (EventID aiResponse); LInt userID] ;;;
           err <- calendar.UpdateEvent C (EventID aiResponse) (EventTitle aiResponse)
                                       (EventDate aiResponse) (EventTime aiResponse)
                                       (EventDesc aiResponse) (EventLoc aiResponse) ;;
           match err with
           | Some err =>
               log_Printf "Error updating event %s for user %d: %v"
                          [LStr (EventID aiResponse); LInt userID; LErr (Some err)] ;;;
               ret ("Error updating event: " +:+ err)
           | None =>
               log_Printf "Successfully updated event %s for user %d"
                          [LStr (EventID aiResponse); LInt userID] ;;;
               ret "Event updated successfully."
           end
       else if String.eqb (Action aiResponse) "None" then
         log_Printf "AI requested 'None' action for user %d" [LInt userID] ;;;
         ret (Message aiResponse)
       else if String.eqb (Action aiResponse) "message" then
         log_Printf "AI sent a simple message for user %d" [LInt userID] ;;;
         ret (Message aiResponse)
       else
         log_Printf "No specific action for user %d, using AI message: %s"
                    [LInt userID; LStr (Message aiResponse)] ;;;
         ret (Message aiResponse)) ;;
  log_Printf "Final response for user %d: %s" [LInt userID; LStr response] ;;;
  ret (response, None).

(** [Agent.ProcessUserMessage] *)
Definition ProcessUserMessage (userID chatID : Z) (message : string)
  : M (option error) :=
  log_Printf "Processing message from user %d: %s" [LInt userID; LStr message] ;;;
  (* Get user context from database *)
  userContext <- database.GetUserContext userID 10 ;;
  (* Send message to OpenAI for processing *)
  r <- ProcessMessage userContext message ;;
  match r with
  | Err err =>
      log_Printf "AI processing error for user %d: %v" [LInt userID; LErr (Some err)] ;;;
      let errorMsg :=
        "Sorry, I encountered an error processing your request. Please try again." in
      sendErr <- telegram.SendMessage C chatID errorMsg ;;
      match sendErr with
      | Some e => log_Printf "Failed to send error message: %v" [LErr (Some e)]
      | None => ret tt
      end ;;;
      ret (Some err)
  | Ok aiResponse =>
      log_Printf "AI response for user %d: Action=%s, Message=%s, EventDate='%s'"
                 [LInt userID; LStr (Action aiResponse); LStr (Message aiResponse);
                  LStr (EventDate aiResponse)] ;;;
      (* Store the interaction in database *)
      log_Printf "About to save interaction to database for user %d" [LInt userID] ;;;
      saveErr <- database.AddInteraction C userID message (Message aiResponse)
                                         (Action aiResponse) ;;
      match saveErr with
      | Some e => log_Printf "Failed to store interaction for user %d: %v"
                             [LInt userID; LErr (Some e)]
      | None => ret tt
      end ;;;
      log_Printf "Successfully saved interaction to database for user %d" [LInt userID] ;;;
      log_Printf "About to execute AI action for user %d" [LInt userID] ;;;
      (* Execute the AI's decision *)
      log_Printf "Calling executeAIAction for user %d" [LInt userID] ;;;
      returned <- executeAIAction userID aiResponse ;;
      let (response, err) := returned : string * option error in
      log_Printf "executeAIAction returned for user %d: response='%s', err=%v"
                 [LInt userID; LStr response; LErr err] ;;;
      response <-
        match err with
        | Some e =>
            log_Printf "Error executing AI action for user %d: %v"
                       [LInt userID; LErr (Some e)] ;;;
            ret ("Error executing action: " +:+ e)
        | None => ret response
        end ;;
      (* Send response to user *)
      log_Printf "About to send response to Telegram for user %d: %s"
                 [LInt userID; LStr response] ;;;
      sendErr <- telegram.SendMessage C chatID response ;;
      match sendErr with
      | Some e =>
          log_Printf "Failed to send response to user %d: %v" [LInt userID; LErr (Some e)] ;;;
          ret (Some e)
      | None =>
          log_Printf "Successfully sent response to Telegram for user %d" [LInt userID] ;;;
          ret None
      end
  end.

End WithCollaborators.
End ai.

(** ** Package [database]: statistics and cleanup *)

(** The two methods of [time.Time] that [Cleanup] uses: [t.AddDate(years,
    months, days)] and [t.After(u)]. *)
Record TimeLib : Type := mkTimeLib {
  time_AddDate : Time -> Z -> Z -> Z -> Time;
  time_After : Time -> Time -> bool
}.

(** The [map[string]interface{}] that [GetUserStats] returns: it has these
    four keys, always; a [nil] timestamp is [None]. *)
Record Stats : Type := mkStats {
  total_interactions : Z;
  first_interaction : option Time;
  last_interaction : option Time;
  actions_used : gmap string Z
}.

Module database_admin.
Section WithCollaborators.
Variable C : Collaborators.
Variable T : TimeLib.

(** The loop of [GetUserStats] that counts the actions. *)
Definition count_actions (interactions : list Interaction) : gmap string Z :=
  fold_left
    (fun used interaction =>
       if negb (String.eqb (i_Action interaction) "")
       then <[i_Action interaction := default 0 (used !! i_Action interaction) + 1]> used
       else used)
    interactions ∅.

(** [Database.GetUserStats] *)
Definition GetUserStats (userID : Z) : M Stats :=
  interactions <- database.GetUserInteractions userID 0 ;;
  if Z.of_nat (length interactions) >? 0 then
    ret (mkStats (Z.of_nat (length interactions))
                 (i_Timestamp <$> head interactions)
                 (i_Timestamp <$> last interactions)
                 (count_actions interactions))
  else
    ret (mkStats (Z.of_nat (length interactions)) None None ∅).

(** The inner loop of [Cleanup] on one user's interactions: the valid ones
    are kept, the others counted. *)
Definition sweep (cutoff : Time) (interactions : list Interaction) (totalRemoved : Z)
  : list Interaction * Z :=
  fold_left
    (fun '(validInteractions, totalRemoved) interaction =>
       if time_After T (i_Timestamp interaction) cutoff
       then (validInteractions ++ [interaction], totalRemoved)
       else (validInteractions, totalRemoved + 1))
    interactions ([], totalRemoved).

(** The body of the outer loop of [Cleanup], for one entry of the table. *)
Definition visit (cutoff : Time) (state : gmap Z (list Interaction) * Z)
           (entry : Z * list Interaction) : gmap Z (list Interaction) * Z :=
  let '(m, totalRemoved) := state in
  let '(userID, interactions) := entry in
  let '(validInteractions, totalRemoved) := sweep cutoff interactions totalRemoved in
  (<[userID := validInteractions]> m, totalRemoved).

(** [Database.Cleanup]. The users are visited in the order of the table's
    list of entries; Go leaves the order open. *)
Definition Cleanup (daysOld : Z) : M (option error) :=
  now <- call CallNow (time_Now C) ;;
  let cutoff := time_AddDate T now 0 0 (- daysOld) in
  m <- get_interactions ;;
  let '(m, totalRemoved) := fold_left (visit cutoff) (map_to_list m) (m, 0) in
  set_interactions m ;;;
  log_Printf "Cleaned up %d old interactions" [LInt totalRemoved] ;;;
  database.saveInteractions C.

(** [Database.Backup] *)
Definition Backup (backupPath : string) : M (option error) :=
  m <- get_interactions ;;
  match json_MarshalIndent C m with
  | Err e => ret (Some ("failed to marshal interactions for backup: " +:+ e))
  | Ok data =>
      r <- call (CallWriteFile backupPath data)
                (fun t => os_WriteFile C t backupPath data) ;;
      match r with
      | Some e => ret (Some ("failed to write backup file: " +:+ e))
      | None => ret None
      end
  end.

End WithCollaborators.
End database_admin.

(** ** Package [ai]: callbacks and maintenance *)

Module ai_callbacks.
Section WithCollaborators.
Variable C : Collaborators.
Variable T : TimeLib.

(** The two listing cases of [HandleCalendarCallback], which differ in the
    day only: ["today"] or ["tomorrow"]. *)
Definition day_listing (day : string) : M string :=
  let response := "Here are your events for " +:+ day +:+ ":" in
  r <- calendar.GetEvents C day ;;
  match r with
  | Err err => ret ("Error getting events: " +:+ err)
  | Ok events =>
      if Z.of_nat (length events) =? 0 then ret ("No events found for " +:+ day +:+ ".")
      else
        (* Limit events to prevent long messages *)
        let maxEvents := 15 in
        let eventsToShow :=
          if Z.of_nat (length events) >? maxEvents
          then take (Z.to_nat maxEvents) events else events in
        let response :=
          if Z.of_nat (length events) >? maxEvents
          then response +:+ (nl +:+ "(showing first " +:+ fmt_d maxEvents +:+ " of "
                             +:+ fmt_d (Z.of_nat (length events)) +:+ "):" +:+ nl)
          else response +:+ nl in
        let response := ai.append_events response eventsToShow in
        let response :=
          if Z.of_nat (length events) >? maxEvents
          then response +:+ ("... and " +:+ fmt_d (Z.of_nat (length events) - maxEvents)
                             +:+ " more events.")
          else response in
        ret response
  end.

(** [Agent.HandleCalendarCallback] *)
Definition HandleCalendarCallback (userID chatID : Z) (callbackData : string)
  : M (option error) :=
  log_Printf "Handling calendar callback for user %d: %s"
             [LInt userID; LStr callbackData] ;;;
  response <-
    (if String.eqb callbackData "calendar_today" then day_listing "today"
     else if String.eqb callbackData "calendar_tomorrow" then day_listing "tomorrow"
     else ret "Calendar navigation not implemented yet.") ;;
  (* Send response to user *)
  sendErr <- telegram.SendMessage C chatID response ;;
  match sendErr with
  | Some e =>
      log_Printf "Failed to send calendar callback response: %v" [LErr (Some e)] ;;;
      ret (Some e)
  | None => ret None
  end.

(** [Agent.GetUserStats] *)
Definition GetUserStats (userID : Z) : M Stats := database_admin.GetUserStats userID.

(** [Agent.CleanupOldInteractions] *)
Definition CleanupOldInteractions (daysOld : Z) : M (option error) :=
  database_admin.Cleanup C T daysOld.

End WithCollaborators.
End ai_callbacks.

(** ** Package [config] *)

Module config.

Record Config : Type := mkConfig {
  TelegramToken : string;
  OpenAIKey : string;
  GoogleCreds : string;
  CalendarID : string;
  Port : string
}.

(** The process environment as [Load] meets it: whether [godotenv.Load]
    found its file, and what [os.Getenv] answers after it. *)
Record Environment : Type := mkEnvironment {
  godotenv_Load : option error;
  os_Getenv : string -> string
}.

(** [Config.Validate] *)
Definition Validate (c : Config) : option error :=
  if String.eqb (TelegramToken c) "" then Some "TELEGRAM_TOKEN is required"
  else if String.eqb (OpenAIKey c) "" then Some "OPENAI_API_KEY is required"
  else if String.eqb (GoogleCreds c) "" then Some "GOOGLE_CREDENTIALS_FILE is required"
  else if String.eqb (CalendarID c) "" then Some "GOOGLE_CALENDAR_ID is required"
  else None.

(** [MaskToken] *)
Definition MaskToken (token : string) : string :=
  if len token <=? 8 then "***"
  else slice token 0 4 +:+ "..." +:+ slice token (len token - 4) (len token).

Section WithEnvironment.
Variable E : Environment.

(** [Load] *)
Definition Load : M (result Config) :=
  log_Printf "Loading configuration..." [] ;;;
  match godotenv_Load E with
  | Some _ => log_Printf "Warning: .env file not found, using environment variables" []
  | None => ret tt
  end ;;;
  let config := mkConfig (os_Getenv E "TELEGRAM_TOKEN") (os_Getenv E "OPENAI_API_KEY")
                         (os_Getenv E "GOOGLE_CREDENTIALS_FILE")
                         (os_Getenv E "GOOGLE_CALENDAR_ID") (os_Getenv E "PORT") in
  config <-
    (if String.eqb (Port config) "" then
       let config := mkConfig (TelegramToken config) (OpenAIKey config)
                              (GoogleCreds config) (CalendarID config) "8080" in
       log_Printf "Using default port: %s" [LStr (Port config)] ;;;
       ret config
     else ret config) ;;
  log_Printf "Configuration loaded:" [] ;;;
  log_Printf "  Telegram Token: %s" [LStr (MaskToken (TelegramToken config))] ;;;
  log_Printf "  OpenAI Key: %s" [LStr (MaskToken (OpenAIKey config))] ;;;
  log_Printf "  Google Credentials: %s" [LStr (GoogleCreds config)] ;;;
  log_Printf "  Calendar ID: %s" [LStr (CalendarID config)] ;;;
  log_Printf "  Port: %s" [LStr (Port config)] ;;;
  (* Validate required config *)
  match Validate config with
  | Some err => ret (Err err)
  | None =>
      log_Printf "Configuration validation passed" [] ;;;
      ret (Ok config)
  end.

End WithEnvironment.
End config.

(** * The vocabulary of the properties *)

(** ** Strings *)

(** Each line followed by a newline, concatenated. *)
Definition concat_lines (lines : list string) : string :=
  foldr (fun line rest => line +:+ nl +:+ rest) "" lines.

(** The in-order concatenation of a list of strings. *)
Definition concat_strings (l : list string) : string := foldr String.app "" l.

(** ** The conversation store *)

(** A call of [AddInteraction], by its arguments. *)
Record AddCall : Type := mkAddCall {
  add_userID : Z;
  add_userMessage : string;
  add_aiResponse : string;
  add_action : string
}.

(** One interaction as [GetUserContext] prints it. *)
Definition format_interaction (i : Interaction) : string :=
  "User: " +:+ i_UserMessage i +:+ nl +:+ "AI: " +:+ i_AIResponse i +:+ nl +:+ nl.

(** What is stored for a user in a world. *)
Definition stored (w : World) (userID : Z) : list Interaction :=
  at_user (interactions (db w)) userID.

(** The interactions [GetUserContext userID n] shows. *)
Definition shown (w : World) (userID n : Z) : list Interaction :=
  let count := Z.of_nat (length (stored w userID)) in
  if n <=? 0 then stored w userID
  else drop (Z.to_nat (count - Z.min n count)) (stored w userID).

(** The world after a sequence of [AddInteraction] calls. *)
Definition run_adds (C : Collaborators) (calls : list AddCall) (w : World) : World :=
  fold_left
    (fun w c =>
       (database.AddInteraction C (add_userID c) (add_userMessage c)
                                (add_aiResponse c) (add_action c) w).2)
    calls w.

(** No user has more than 50 interactions stored. *)
Definition within_window (w : World) : Prop :=
  forall userID, (length (stored w userID) <= 50)%nat.

(** ** The parts of a long message *)

(** A chunk: a non-empty string of at most [maxLength] bytes. *)
Definition is_chunk (s : string) : Prop := 0 < len s <= telegram.maxLength.

(** The texts given to [bot.Send], with the chat they went to. *)
Definition bot_sends (t : list Call) : list (Z * string) :=
  omap (fun c => match c with CallBotSend chatID text => Some (chatID, text) | _ => None end) t.

(** The parts as they are sent: every part but the last one is followed
    by the continuation marker. *)
Definition with_markers (parts : list string) : list string :=
  map (fun part => part +:+ telegram.continued) (take (length parts - 1) parts)
  ++ drop (length parts - 1) parts.

(** What the sending loop makes of the parts from index [i] on. *)
Fixpoint marked (total i : Z) (rest : list string) : list string :=
  match rest with
  | [] => []
  | message :: rest =>
      (if i <? total - 1 then message +:+ telegram.continued else message)
        :: marked total (i + 1) rest
  end.

(** ** The calls of a run, by kind *)

(** A call into the calendar gateway ([calendar.Service]). *)
Definition is_calendar (c : Call) : bool :=
  match c with
  | CallGetEvents _ | CallCreateEvent _ _ _ _ _ | CallUpdateEvent _ _ _ _ _ _
  | CallDeleteEvent _ => true
  | _ => false
  end.

(** A call of the notification sink ([telegram.Bot.SendMessage]). *)
Definition is_sink (c : Call) : bool :=
  match c with CallSendMessage _ _ => true | _ => false end.

(** The gateway calls of a trace, in order. *)
Definition calendar_calls (t : list Call) : list Call := List.filter is_calendar t.

(** The sink calls of a trace, in order: the chat and the text. *)
Definition sink_calls (t : list Call) : list (Z * string) :=
  omap (fun c => match c with CallSendMessage chatID text => Some (chatID, text) | _ => None end) t.

(** A computation that only appends calls of one kind to the trace. *)
Definition appends (kind : Call -> bool) {A : Type} (m : M A) : Prop :=
  forall w, exists l, trace (m w).2 = trace w ++ l /\ forallb kind l = true.

(** Neither a gateway call nor a sink call. *)
Definition is_internal (c : Call) : bool := negb (is_calendar c) && negb (is_sink c).

(** What follows the entry into [SendMessage]: sends and pauses. *)
Definition is_transmission (c : Call) : bool :=
  match c with CallBotSend _ _ | CallSleep _ => true | _ => false end.

(** ** The stages of [ProcessUserMessage] *)

(** Steps 1 and 2 of [ProcessUserMessage]: the context lookup and the
    classification. *)
Definition classify (C : Collaborators) (userID : Z) (message : string)
  : M (result AIResponse) :=
  log_Printf "Processing message from user %d: %s" [LInt userID; LStr message] ;;;
  userContext <- database.GetUserContext userID 10 ;;
  ai.ProcessMessage C userContext message.

(** Step 3 of [ProcessUserMessage]: persisting the interaction, up to the
    call of [executeAIAction]. *)
Definition persist (C : Collaborators) (userID : Z) (message : string)
           (aiResponse : AIResponse) : M unit :=
  log_Printf "AI response for user %d: Action=%s, Message=%s, EventDate='%s'"
             [LInt userID; LStr (Action aiResponse); LStr (Message aiResponse);
              LStr (EventDate aiResponse)] ;;;
  log_Printf "About to save interaction to database for user %d" [LInt userID] ;;;
  saveErr <- database.AddInteraction C userID message (Message aiResponse)
                                     (Action aiResponse) ;;
  match saveErr with
  | Some e => log_Printf "Failed to store interaction for user %d: %v"
                         [LInt userID; LErr (Some e)]
  | None => ret tt
  end ;;;
  log_Printf "Successfully saved interaction to database for user %d" [LInt userID] ;;;
  log_Printf "About to execute AI action for user %d" [LInt userID] ;;;
  log_Printf "Calling executeAIAction for user %d" [LInt userID].

(** The world in which the intent is dispatched. *)
Definition dispatch_world (C : Collaborators) (userID : Z) (message : string)
           (aiResponse : AIResponse) (w1 : World) : World :=
  (persist C userID message aiResponse w1).2.

(** Step 5 of [ProcessUserMessage]: sending the response. *)
Definition respond (C : Collaborators) (userID chatID : Z) (response : string)
  : M (option error) :=
  log_Printf "executeAIAction returned for user %d: response='%s', err=%v"
             [LInt userID; LStr response; LErr None] ;;;
  log_Printf "About to send response to Telegram for user %d: %s"
             [LInt userID; LStr response] ;;;
  sendErr <- telegram.SendMessage C chatID response ;;
  match sendErr with
  | Some e =>
      log_Printf "Failed to send response to user %d: %v" [LInt userID; LErr (Some e)] ;;;
      ret (Some e)
  | None =>
      log_Printf "Successfully sent response to Telegram for user %d" [LInt userID] ;;;
      ret None
  end.

(** What [ProcessUserMessage] does when the classification failed: the
    apology is sent, a failure to send it is only logged, and the
    classification error is returned. *)
Definition apologise (C : Collaborators) (userID chatID : Z) (err : error)
  : M (option error) :=
  log_Printf "AI processing error for user %d: %v" [LInt userID; LErr (Some err)] ;;;
  sendErr <- telegram.SendMessage C chatID
               "Sorry, I encountered an error processing your request. Please try again." ;;
  match sendErr with
  | Some e => log_Printf "Failed to send error message: %v" [LErr (Some e)]
  | None => ret tt
  end ;;;
  ret (Some err).

(** ** The texts of the dispatch *)

(** One line per event, as every listing renders it. *)
Definition event_line (event : CalendarEvent) : string :=
  "• " +:+ ev_Summary event +:+ " (" +:+ Format_15_04 (ev_Start event) +:+ " - "
  +:+ Format_15_04 (ev_End event) +:+ ")"
  +:+ (if String.eqb (ev_Location event) "" then "" else " - " +:+ ev_Location event)
  +:+ nl.

(** The text of the single-action [getEvents] branch, by what the gateway
    answered. *)
Definition single_getEvents_text (date : string) (r : result (list CalendarEvent))
  : string :=
  match r with
  | Err err => "Error getting events: " +:+ err
  | Ok events =>
      if Z.of_nat (length events) =? 0 then "No events found for " +:+ date +:+ "."
      else if Z.of_nat (length events) >? 20 then
        "Events for " +:+ date +:+ " (showing first 20 of "
        +:+ fmt_d (Z.of_nat (length events)) +:+ "):" +:+ nl
        +:+ concat_strings (map event_line (take 20 events))
        +:+ nl +:+ "... and " +:+ fmt_d (Z.of_nat (length events) - 20)
        +:+ " more events. Use a more specific date range to see fewer events."
      else
        "Events for " +:+ date +:+ ":" +:+ nl +:+ concat_strings (map event_line events)
  end.

(** The instruction given when an event id is missing. *)
Definition missing_id_text (verb : string) : string :=
  "Please specify an event ID to " +:+ verb
  +:+ ". Use 'getEvents' first to see available events.".

(** The intent [ProcessMessage] makes of a decoded reply: an empty date of
    a [getEvents] becomes today. *)
Definition with_default_date (raw : AIResponse) : AIResponse :=
  if String.eqb (Action raw) "getEvents" && String.eqb (EventDate raw) ""
  then mkAIResponse (Action raw) (Message raw) (EventID raw) (EventTitle raw) "today"
                    (EventTime raw) (EventDesc raw) (EventLoc raw) (Actions raw)
  else raw.

(** What the gateway answers to [GetEvents date] after the calls [t]. *)
Definition gateway_answer (C : Collaborators) (t : list Call) (date : string)
  : result (list CalendarEvent) :=
  calendar_list C (t ++ [CallGetEvents date])
                (if String.eqb date "" then "today" else date).

(** The result block of a [getEvents] step, by what the gateway answered. *)
Definition getEvents_block (date : string) (r : result (list CalendarEvent)) : string :=
  match r with
  | Err err => "Error getting events for " +:+ date +:+ ": " +:+ err +:+ nl
  | Ok events =>
      if Z.of_nat (length events) =? 0 then "No events found for " +:+ date +:+ "." +:+ nl
      else if Z.of_nat (length events) >? 15 then
        "Events for " +:+ date +:+ " (showing first 15 of "
        +:+ fmt_d (Z.of_nat (length events)) +:+ "):" +:+ nl
        +:+ concat_strings (map event_line (take 15 events))
        +:+ "... and " +:+ fmt_d (Z.of_nat (length events) - 15) +:+ " more events." +:+ nl
        +:+ nl
      else
        "Events for " +:+ date +:+ ":" +:+ nl
        +:+ concat_strings (map event_line events) +:+ nl
  end.

(** The result blocks of the steps, the first one taken after the calls [t]. *)
Fixpoint step_blocks (C : Collaborators) (t : list Call) (actions : list AIAction)
  : list string :=
  match actions with
  | [] => []
  | action :: rest =>
      if String.eqb (sub_Action action) "getEvents" then
        getEvents_block (sub_EventDate action)
                        (gateway_answer C t (sub_EventDate action))
          :: step_blocks C (t ++ [CallGetEvents (sub_EventDate action)]) rest
      else
        ("Unknown action: " +:+ sub_Action action +:+ nl) :: step_blocks C t rest
  end.

(** The gateway calls of the steps. *)
Fixpoint step_calls (actions : list AIAction) : list Call :=
  match actions with
  | [] => []
  | action :: rest =>
      if String.eqb (sub_Action action) "getEvents"
      then CallGetEvents (sub_EventDate action) :: step_calls rest
      else step_calls rest
  end.

(** Claim C1 as stated: an error is returned only when a send to the chat
    failed. *)
Definition only_send_failures_escape (C : Collaborators) (userID chatID : Z)
           (message : string) (w : World) : Prop :=
  forall err,
    (ai.ProcessUserMessage C userID chatID message w).1 = Some err ->
    exists t text e, tgbot_Send C t chatID text = Some e.

(** The world in which the response is sent: the dispatch has returned and
    two lines are logged. *)
Definition sending_world (userID : Z) (response : string) (w : World) : World :=
  (log_Printf "About to send response to Telegram for user %d: %s"
              [LInt userID; LStr response]
     (log_Printf "executeAIAction returned for user %d: response='%s', err=%v"
                 [LInt userID; LStr response; LErr None] w).2).2.

(** The text sent when the classification failed. *)
Definition apology : string :=
  "Sorry, I encountered an error processing your request. Please try again.".

(** ** The other packages *)

(** A computation that leaves the conversation store as it is. *)
Definition keeps_store {A : Type} (m : M A) : Prop :=
  forall w, db (m w).2 = db w.

(** A request to the model. *)
Definition is_model (c : Call) : bool :=
  match c with CallChatCompletion _ => true | _ => false end.

(** The requests to the model of a trace, in order, by their user prompt. *)
Definition model_calls (t : list Call) : list string :=
  omap (fun c => match c with CallChatCompletion prompt => Some prompt | _ => None end) t.

(** The text [HandleCalendarCallback] makes of the gateway's answer for a
    day: the listing is cut after 15 events. *)
Definition callback_listing (day : string) (r : result (list CalendarEvent)) : string :=
  match r with
  | Err err => "Error getting events: " +:+ err
  | Ok events =>
      if Z.of_nat (length events) =? 0 then "No events found for " +:+ day +:+ "."
      else if Z.of_nat (length events) >? 15 then
        "Here are your events for " +:+ day +:+ ":" +:+ nl
        +:+ "(showing first 15 of " +:+ fmt_d (Z.of_nat (length events)) +:+ "):" +:+ nl
        +:+ concat_strings (map event_line (take 15 events))
        +:+ "... and " +:+ fmt_d (Z.of_nat (length events) - 15) +:+ " more events."
      else
        "Here are your events for " +:+ day +:+ ":" +:+ nl
        +:+ concat_strings (map event_line events)
  end.

(** How many of the interactions carry the action [a]. *)
Definition times_used (a : string) (l : list Interaction) : nat :=
  length (List.filter (fun i => String.eqb (i_Action i) a) l).

(** The counter of an action after [n] more uses. *)
Definition bump (old : option Z) (n : nat) : option Z :=
  match n with
  | O => old
  | S _ => Some (default 0 old + Z.of_nat n)
  end.

(** The number of interactions in the store, all users together. *)
Definition population (w : World) : nat :=
  sum_list_with (fun entry : Z * list Interaction => length entry.2)
                (map_to_list (interactions (db w))).

(** The interactions [Cleanup] keeps. *)
Definition valid (T : TimeLib) (cutoff : Time) (i : Interaction) : bool :=
  time_After T (i_Timestamp i) cutoff.

(** The variables [Validate] asks for, in the order it checks them. *)
Definition required : list string :=
  ["TELEGRAM_TOKEN"; "OPENAI_API_KEY"; "GOOGLE_CREDENTIALS_FILE"; "GOOGLE_CALENDAR_ID"].

(** A call that changes the calendar. *)
Definition is_write (c : Call) : bool :=
  match c with
  | CallCreateEvent _ _ _ _ _ | CallUpdateEvent _ _ _ _ _ _ | CallDeleteEvent _ => true
  | _ => false
  end.

(** The calls of a trace that change the calendar, in order. *)
Definition write_calls (t : list Call) : list Call := List.filter is_write t.

(** The calls of the parts that went through: each one is sent, then the
    loop pauses for 100 ms. *)
Definition delivered (chatID : Z) (texts : list string) : list Call :=
  flat_map (fun text => [CallBotSend chatID text; CallSleep 100]) texts.

(** What the Telegram client answers when it is given the part of index
    [k], after the calls [t0] and after the parts before it went through. *)
Definition client_answer (C : Collaborators) (chatID : Z) (t0 : list Call)
           (parts : list string) (k : nat) (part : string) : option error :=
  tgbot_Send C (t0 ++ delivered chatID (take k parts) ++ [CallBotSend chatID part])
             chatID part.

(** A computation that only adds lines to the log. *)
Definition logs_more {A : Type} (m : M A) : Prop :=
  forall w, exists l, logs (m w).2 = logs w ++ l.

(** * The file of the store

    [saveInteractions] hands the table to [json.MarshalIndent] and
    [loadInteractions] hands the bytes of the file to [json.Unmarshal].
    What the two do to a table is no code of the bot. It is modelled here
    as functions on texts, after the documentation of the packages
    [unicode/utf8], [strconv], [encoding/json] and [time] of Go 1.21, the
    version the bot is built with. The texts of the errors of these
    packages are not modelled: a failure is [None]. *)

(** ** Package [unicode/utf8] *)

Module utf8.

(** The value of a byte. *)
Definition byte (c : ascii) : Z := Z.of_N (N_of_ascii c).

Definition between (lo hi : Z) (c : ascii) : bool := (lo <=? byte c) && (byte c <=? hi).

(** A continuation byte, [10xxxxxx]. *)
Definition continuation : ascii -> bool := between 128 191.

(** [utf8.DecodeRuneInString], as far as [encoding/json] looks at its
    result: the width of the encoding at the head of [s] when it is valid
    (shortest form, no surrogate half, at most U+10FFFF), and [None] when the
    function returns [RuneError] with width 1 or 0. *)
Definition rune_width (s : string) : option nat :=
  match s with
  | EmptyString => None
  | String c0 s1 =>
      if byte c0 <? 128 then Some 1%nat
      else if between 194 223 c0 then
        match s1 with
        | String c1 _ => if continuation c1 then Some 2%nat else None
        | _ => None
        end
      else if between 224 239 c0 then
        match s1 with
        | String c1 (String c2 _) =>
            if between (if byte c0 =? 224 then 160 else 128)
                       (if byte c0 =? 237 then 159 else 191) c1
               && continuation c2
            then Some 3%nat else None
        | _ => None
        end
      else if between 240 244 c0 then
        match s1 with
        | String c1 (String c2 (String c3 _)) =>
            if between (if byte c0 =? 240 then 144 else 128)
                       (if byte c0 =? 244 then 143 else 191) c1
               && continuation c2 && continuation c3
            then Some 4%nat else None
        | _ => None
        end
      else None
  end.

Definition chr (n : Z) : ascii := ascii_of_N (Z.to_N n).

(** [utf8.AppendRune]: the encoding of a code point; a surrogate half and a
    value above U+10FFFF are encoded as U+FFFD. *)
Definition encode_rune (r : Z) : string :=
  if r <? 128 then String (chr r) EmptyString
  else if r <? 2048 then
    String (chr (192 + r / 64)) (String (chr (128 + r mod 64)) EmptyString)
  else if (r >? 1114111) || ((55296 <=? r) && (r <=? 57343)) then
    String (chr 239) (String (chr 191) (String (chr 189) EmptyString))
  else if r <? 65536 then
    String (chr (224 + r / 4096))
      (String (chr (128 + (r / 64) mod 64)) (String (chr (128 + r mod 64)) EmptyString))
  else
    String (chr (240 + r / 262144))
      (String (chr (128 + (r / 4096) mod 64))
         (String (chr (128 + (r / 64) mod 64))
            (String (chr (128 + r mod 64)) EmptyString))).

(** U+FFFD, the replacement character. *)
Definition replacement : string := encode_rune 65533.

(** What a scan of a text is in the middle of: nothing, the [n] bytes left
    of a valid encoding, which are taken as they are, or [n] bytes to pass
    over. *)
Inductive pending : Type := Ready | Copy (n : nat) | Skip (n : nat).

(** The text with every byte that is not part of a valid encoding replaced
    by U+FFFD, one replacement per byte. *)
Fixpoint coerce_from (p : pending) (s : string) : string :=
  match s with
  | EmptyString => EmptyString
  | String c rest =>
      match p with
      | Copy (S n) => String c (coerce_from (Copy n) rest)
      | Skip (S n) => coerce_from (Skip n) rest
      | _ =>
          match rune_width s with
          | Some (S n) => String c (coerce_from (Copy n) rest)
          | _ => replacement +:+ coerce_from Ready rest
          end
      end
  end.

Definition coerce (s : string) : string := coerce_from Ready s.

(** [utf8.ValidString] *)
Definition valid (s : string) : bool := String.eqb (coerce s) s.

End utf8.

(** ** Package [encoding/json]: string literals *)

Module json_string.
Import utf8.

Definition quote : ascii := "034"%char.
Definition backslash : ascii := "092"%char.

(** [const hex = "0123456789abcdef"] *)
Definition hex (n : Z) : ascii :=
  match n with
  | 0 => "0" | 1 => "1" | 2 => "2" | 3 => "3" | 4 => "4" | 5 => "5" | 6 => "6" | 7 => "7"
  | 8 => "8" | 9 => "9" | 10 => "a" | 11 => "b" | 12 => "c" | 13 => "d" | 14 => "e"
  | _ => "f"
  end%char.

(** What [appendString] writes for a byte below 0x80, with HTML escaping
    on as [Marshal] has it. *)
Definition escape_ascii (c : ascii) : string :=
  let b := byte c in
  if (b =? 34) || (b =? 92) then String backslash (String c EmptyString)
  else if b =? 10 then String backslash "n"
  else if b =? 13 then String backslash "r"
  else if b =? 9 then String backslash "t"
  else if (b <? 32) || (b =? 60) || (b =? 62) || (b =? 38) then
    String backslash
      (String "u" (String "0" (String "0"
         (String (hex (b / 16)) (String (hex (b mod 16)) EmptyString)))))
  else String c EmptyString.

(** The last hex digit of U+2028 or U+2029 when its encoding is at the head
    of [s]. *)
Definition line_separator (s : string) : option Z :=
  match s with
  | String c0 (String c1 (String c2 _)) =>
      if (byte c0 =? 226) && (byte c1 =? 128) && ((byte c2 =? 168) || (byte c2 =? 169))
      then Some (byte c2 - 160) else None
  | _ => None
  end.

(** The loop of [appendString]. *)
Fixpoint escape_from (p : pending) (s : string) : string :=
  match s with
  | EmptyString => EmptyString
  | String c rest =>
      match p with
      | Copy (S n) => String c (escape_from (Copy n) rest)
      | Skip (S n) => escape_from (Skip n) rest
      | _ =>
          if byte c <? 128 then escape_ascii c +:+ escape_from Ready rest
          else
            match rune_width s with
            | Some (S n) =>
                match line_separator s with
                | Some digit =>
                    String backslash
                      (String "u" (String "2" (String "0" (String "2"
                         (String (hex digit) (escape_from (Skip n) rest))))))
                | None => String c (escape_from (Copy n) rest)
                end
            | _ =>
                String backslash
                  (String "u" (String "f" (String "f" (String "f"
                     (String "d" (escape_from Ready rest))))))
            end
      end
  end.

(** [appendString]: the JSON string literal of a Go string. *)
Definition append_string (s : string) : string :=
  String quote (escape_from Ready s +:+ String quote EmptyString).

Definition unhex (c : ascii) : option Z :=
  let b := byte c in
  if (48 <=? b) && (b <=? 57) then Some (b - 48)
  else if (97 <=? b) && (b <=? 102) then Some (b - 87)
  else if (65 <=? b) && (b <=? 70) then Some (b - 55)
  else None.

(** [getu4] on the four characters after a backslash and a [u]. *)
Definition unhex4 (c1 c2 c3 c4 : ascii) : option Z :=
  match unhex c1, unhex c2, unhex c3, unhex c4 with
  | Some d1, Some d2, Some d3, Some d4 => Some (((d1 * 16 + d2) * 16 + d3) * 16 + d4)
  | _, _, _, _ => None
  end.

(** The low half of a surrogate pair written as an escape at the head of
    [s], and what follows it. *)
Definition low_surrogate (s : string) : option (Z * string) :=
  match s with
  | String b (String u (String c1 (String c2 (String c3 (String c4 rest))))) =>
      if (byte b =? 92) && (byte u =? 117) then
        match unhex4 c1 c2 c3 c4 with
        | Some r => if (56320 <=? r) && (r <? 57344) then Some (r, rest) else None
        | None => None
        end
      else None
  | _ => None
  end.

Definition prepend (text : string) (r : option (string * string))
  : option (string * string) :=
  match r with
  | Some (more, rest) => Some (text +:+ more, rest)
  | None => None
  end.

(** The body of a string literal, read by the scanner and unquoted as
    [unquoteBytes] does: the text it denotes and what follows its closing
    quote, or [None] when the literal is malformed. *)
Fixpoint unquote_from (p : pending) (s : string) : option (string * string) :=
  match s with
  | EmptyString => None
  | String c rest =>
      match p with
      | Copy (S n) => prepend (String c EmptyString) (unquote_from (Copy n) rest)
      | Skip (S n) => unquote_from (Skip n) rest
      | _ =>
          let b := byte c in
          if b =? 34 then Some (EmptyString, rest)
          else if b =? 92 then
            match rest with
            | String e rest1 =>
                let code := byte e in
                if (code =? 34) || (code =? 92) || (code =? 47) then
                  prepend (String e EmptyString) (unquote_from Ready rest1)
                else if code =? 98 then
                  prepend (String (chr 8) EmptyString) (unquote_from Ready rest1)
                else if code =? 102 then
                  prepend (String (chr 12) EmptyString) (unquote_from Ready rest1)
                else if code =? 110 then
                  prepend (String (chr 10) EmptyString) (unquote_from Ready rest1)
                else if code =? 114 then
                  prepend (String (chr 13) EmptyString) (unquote_from Ready rest1)
                else if code =? 116 then
                  prepend (String (chr 9) EmptyString) (unquote_from Ready rest1)
                else if code =? 117 then
                  match rest1 with
                  | String c1 (String c2 (String c3 (String c4 rest5))) =>
                      match unhex4 c1 c2 c3 c4 with
                      | Some r =>
                          if (55296 <=? r) && (r <? 57344) then
                            match (if r <? 56320 then low_surrogate rest5 else None) with
                            | Some (r2, _) =>
                                (* A valid pair; consume. *)
                                match rest5 with
                                | String _ (String _ (String _ (String _ (String _
                                    (String _ rest11))))) =>
                                    prepend (encode_rune ((r - 55296) * 1024 + (r2 - 56320)
                                                          + 65536))
                                            (unquote_from Ready rest11)
                                | _ => None
                                end
                            | None =>
                                (* Invalid surrogate; fall back to replacement rune. *)
                                prepend replacement (unquote_from Ready rest5)
                            end
                          else prepend (encode_rune r) (unquote_from Ready rest5)
                      | None => None
                      end
                  | _ => None
                  end
                else None
            | EmptyString => None
            end
          else if b <? 32 then None
          else if b <? 128 then prepend (String c EmptyString) (unquote_from Ready rest)
          else
            match rune_width s with
            | Some (S n) => prepend (String c EmptyString) (unquote_from (Copy n) rest)
            | _ => prepend replacement (unquote_from Ready rest)
            end
      end
  end.

(** A text of bytes that [appendString] writes as they are. *)
Definition plain_char (c : ascii) : bool :=
  let b := byte c in
  (32 <=? b) && (b <? 128)
  && negb ((b =? 34) || (b =? 92) || (b =? 60) || (b =? 62) || (b =? 38)).

Fixpoint plain (s : string) : bool :=
  match s with
  | EmptyString => true
  | String c rest => plain_char c && plain rest
  end.

End json_string.

(** ** Package [strconv] *)

Module strconv.
Import utf8.

(** [strconv.FormatInt(n, 10)] *)
Definition FormatInt (n : Z) : string := NilEmpty.string_of_int (Z.to_int n).

(** [strconv.ParseInt(s, 10, 64)]: an optional sign and decimal digits, at
    least one, denoting a value of [int64]. *)
Definition ParseInt (s : string) : option Z :=
  let '(negative, digits) :=
    match s with
    | String c rest =>
        if byte c =? 43 then (false, rest)
        else if byte c =? 45 then (true, rest)
        else (false, s)
    | EmptyString => (false, s)
    end in
  match digits with
  | EmptyString => None
  | _ =>
      match NilEmpty.uint_of_string digits with
      | Some d =>
          let n := if negative then - Z.of_uint d else Z.of_uint d in
          if (- 2 ^ 63 <=? n) && (n <? 2 ^ 63) then Some n else None
      | None => None
      end
  end.

(** A decimal numeral with no leading zero, or the numeral 0. *)
Definition normal (d : Decimal.uint) : bool :=
  match d with
  | Decimal.Nil => false
  | Decimal.D0 Decimal.Nil => true
  | Decimal.D0 _ => false
  | _ => true
  end.

End strconv.

(** ** Package [encoding/json]: documents *)

Module json.
Import utf8 json_string.

(** A JSON value. A number is kept as its literal, as the decoder of
    [encoding/json] keeps it until it knows the Go type to convert it to; a
    string is kept as the body of its literal, which is what an
    [Unmarshaler] is given, and as the text the literal denotes, which is
    what a Go string receives. The key of a member is kept as its text. *)
Inductive value : Type :=
| Null
| Bool (b : bool)
| Number (literal : string)
| Str (literal text : string)
| Array (items : list value)
| Object (members : list (string * value)).

(** *** Writing: [Indent] of the compact encoding, with no prefix and two
    spaces per level *)

Fixpoint spaces (depth : nat) : string :=
  match depth with
  | O => EmptyString
  | S depth => String " " (String " " (spaces depth))
  end.

(** A new line at a nesting depth. *)
Definition newline (depth : nat) : string := String "010" (spaces depth).

(** The text of a document at a nesting depth: an empty array or object on
    one line, every element and member of another on a line of its own, a
    space after the colon of a member. *)
Fixpoint print (depth : nat) (v : value) : string :=
  match v with
  | Null => "null"
  | Bool true => "true"
  | Bool false => "false"
  | Number literal => literal
  | Str literal _ => String quote (literal +:+ String quote EmptyString)
  | Array [] => "[]"
  | Array (first :: items) =>
      String "["
        (newline (S depth) +:+ print (S depth) first
         +:+ concat_strings
               (map (fun item => String "," (newline (S depth) +:+ print (S depth) item))
                    items)
         +:+ newline depth +:+ "]")
  | Object [] => "{}"
  | Object (first :: members) =>
      String "{"
        (newline (S depth) +:+ append_string first.1 +:+ ": " +:+ print (S depth) first.2
         +:+ concat_strings
               (map (fun member =>
                       String "," (newline (S depth) +:+ append_string member.1 +:+ ": "
                                   +:+ print (S depth) member.2))
                    members)
         +:+ newline depth +:+ "}")
  end.

(** *** Reading: the scanner *)

(** [isSpace]: space, tab, carriage return, line feed. *)
Definition is_space (c : ascii) : bool :=
  let b := byte c in (b =? 32) || (b =? 9) || (b =? 13) || (b =? 10).

Fixpoint skip_space (s : string) : string :=
  match s with
  | String c rest => if is_space c then skip_space rest else s
  | EmptyString => s
  end.

Definition is_digit (c : ascii) : bool := between 48 57 c.

(** The states of the scanner inside a number. *)
Inductive number_state : Type :=
| Begin        (* nothing read *)
| Neg          (* a minus sign *)
| Zero         (* a single 0 *)
| Digits       (* a digit from 1 to 9, and digits *)
| Dot          (* a decimal point *)
| Fraction     (* a decimal point and digits *)
| E            (* an e *)
| ESign        (* an e and a sign *)
| Exponent.    (* an e, perhaps a sign, and digits *)

(** Whether a number can end in a state. *)
Definition complete (st : number_state) : bool :=
  match st with
  | Zero | Digits | Fraction | Exponent => true
  | _ => false
  end.

(** The state after one more character, when the number goes on. *)
Definition number_step (st : number_state) (c : ascii) : option number_state :=
  let b := byte c in
  match st with
  | Begin =>
      if b =? 45 then Some Neg
      else if b =? 48 then Some Zero
      else if is_digit c then Some Digits else None
  | Neg => if b =? 48 then Some Zero else if is_digit c then Some Digits else None
  | Zero =>
      if b =? 46 then Some Dot else if (b =? 101) || (b =? 69) then Some E else None
  | Digits =>
      if is_digit c then Some Digits
      else if b =? 46 then Some Dot
      else if (b =? 101) || (b =? 69) then Some E else None
  | Dot => if is_digit c then Some Fraction else None
  | Fraction =>
      if is_digit c then Some Fraction
      else if (b =? 101) || (b =? 69) then Some E else None
  | E =>
      if (b =? 43) || (b =? 45) then Some ESign
      else if is_digit c then Some Exponent else None
  | ESign => if is_digit c then Some Exponent else None
  | Exponent => if is_digit c then Some Exponent else None
  end.

(** The number literal at the head of [s] and what follows it. *)
Fixpoint scan_number (st : number_state) (s : string) : option (string * string) :=
  match s with
  | String c rest =>
      match number_step st c with
      | Some st' => prepend (String c EmptyString) (scan_number st' rest)
      | None => if complete st then Some (EmptyString, s) else None
      end
  | EmptyString => if complete st then Some (EmptyString, s) else None
  end.

(** The rest of a literal name, after its first letter. *)
Fixpoint expect (name : string) (s : string) : option string :=
  match name with
  | EmptyString => Some s
  | String c name =>
      match s with
      | String c' rest => if Ascii.eqb c c' then expect name rest else None
      | EmptyString => None
      end
  end.

(** The value at the head of [s], after white space, and what follows it;
    [None] when the text is no JSON. [fuel] bounds the nesting and the
    number of elements: one more than the length of the text is enough for
    every text. The limit of 10000 that the decoder puts on the nesting is
    not modelled. *)
Fixpoint parse_value (fuel : nat) (s : string) : option (value * string) :=
  match fuel with
  | O => None
  | S fuel =>
      match skip_space s with
      | EmptyString => None
      | String c rest =>
          let b := byte c in
          if b =? 110 then option_map (pair Null) (expect "ull" rest)
          else if b =? 116 then option_map (pair (Bool true)) (expect "rue" rest)
          else if b =? 102 then option_map (pair (Bool false)) (expect "alse" rest)
          else if b =? 34 then
            match unquote_from Ready rest with
            | Some (text, rest') =>
                let width := (String.length rest - String.length rest' - 1)%nat in
                Some (Str (substring 0 width rest) text, rest')
            | None => None
            end
          else if b =? 91 then
            match skip_space rest with
            | String c' rest' =>
                if byte c' =? 93 then Some (Array [], rest')
                else
                  match parse_items fuel rest with
                  | Some (items, rest) => Some (Array items, rest)
                  | None => None
                  end
            | EmptyString => None
            end
          else if b =? 123 then
            match skip_space rest with
            | String c' rest' =>
                if byte c' =? 125 then Some (Object [], rest')
                else
                  match parse_members fuel rest with
                  | Some (members, rest) => Some (Object members, rest)
                  | None => None
                  end
            | EmptyString => None
            end
          else
            match scan_number Begin (String c rest) with
            | Some (literal, rest) => Some (Number literal, rest)
            | None => None
            end
      end
  end
with parse_items (fuel : nat) (s : string) : option (list value * string) :=
  match fuel with
  | O => None
  | S fuel =>
      match parse_value fuel s with
      | Some (item, rest) =>
          match skip_space rest with
          | String c rest =>
              if byte c =? 44 then
                match parse_items fuel rest with
                | Some (items, rest) => Some (item :: items, rest)
                | None => None
                end
              else if byte c =? 93 then Some ([item], rest)
              else None
          | EmptyString => None
          end
      | None => None
      end
  end
with parse_members (fuel : nat) (s : string) : option (list (string * value) * string) :=
  match fuel with
  | O => None
  | S fuel =>
      match skip_space s with
      | String q rest =>
          if byte q =? 34 then
            match unquote_from Ready rest with
            | Some (key, rest) =>
                match skip_space rest with
                | String colon rest =>
                    if byte colon =? 58 then
                      match parse_value fuel rest with
                      | Some (item, rest) =>
                          match skip_space rest with
                          | String c rest =>
                              if byte c =? 44 then
                                match parse_members fuel rest with
                                | Some (members, rest) => Some ((key, item) :: members, rest)
                                | None => None
                                end
                              else if byte c =? 125 then Some ([(key, item)], rest)
                              else None
                          | EmptyString => None
                          end
                      | None => None
                      end
                    else None
                | EmptyString => None
                end
            | None => None
            end
          else None
      | EmptyString => None
      end
  end.

(** [checkValid] and the scan of [Unmarshal]: the document that the whole
    of [data] spells, if it is JSON. *)
Definition parse (data : string) : option value :=
  match parse_value (S (String.length data)) data with
  | Some (v, rest) =>
      match skip_space rest with
      | EmptyString => Some v
      | _ => None
      end
  | None => None
  end.

(** *** The documents that are written *)

(** The text of a JSON number. *)
Definition number_literal (literal : string) : bool :=
  match scan_number Begin literal with
  | Some (_, EmptyString) => true
  | _ => false
  end.

(** What can follow a value in an indented document: nothing, a comma or
    a new line. *)
Definition after_value (rest : string) : bool :=
  match rest with
  | EmptyString => true
  | String c _ => (byte c =? 44) || (byte c =? 10)
  end.

(** A document whose literals are what the scanner reads as one literal,
    and whose keys are valid UTF-8. *)
Inductive well_formed : value -> Prop :=
| wf_null : well_formed Null
| wf_bool b : well_formed (Bool b)
| wf_number literal : number_literal literal = true -> well_formed (Number literal)
| wf_str literal text :
    (forall rest, unquote_from Ready (literal +:+ String quote rest) = Some (text, rest)) ->
    well_formed (Str literal text)
| wf_array items : Forall well_formed items -> well_formed (Array items)
| wf_object members :
    Forall (fun member => coerce member.1 = member.1 /\ well_formed member.2) members ->
    well_formed (Object members).

(** The number of nodes of a document. *)
Fixpoint size (v : value) : nat :=
  match v with
  | Array items => S (list_sum (map (fun item => S (size item)) items))
  | Object members => S (list_sum (map (fun member => S (size member.2)) members))
  | _ => 1
  end.

End json.

(** ** Package [time]: RFC 3339 *)

Module rfc3339.
Import utf8.

(** [isLeap] *)
Definition isLeap (year : Z) : bool :=
  (year mod 4 =? 0) && (negb (year mod 100 =? 0) || (year mod 400 =? 0)).

(** [daysIn] *)
Definition daysIn (month year : Z) : Z :=
  if month =? 2 then (if isLeap year then 29 else 28)
  else if (month =? 4) || (month =? 6) || (month =? 9) || (month =? 11) then 30
  else 31.

(** The proleptic Gregorian calendar, in cycles of 400 years, 146097 days,
    that begin on a first of March. A day of a cycle is in the year
    [(y, m, d)] of the cycle, years counted from March. *)
Definition date_in_cycle (day : Z) : Z * Z * Z :=
  let y := (day - day / 1460 + day / 36524 - day / 146096) / 365 in
  let day_of_year := day - (365 * y + y / 4 - y / 100) in
  let mp := (5 * day_of_year + 2) / 153 in
  (y, (if mp <? 10 then mp + 3 else mp - 9), day_of_year - (153 * mp + 2) / 5 + 1).

Definition day_in_cycle (y m d : Z) : Z :=
  y * 365 + y / 4 - y / 100 + (153 * (if m >? 2 then m - 3 else m + 9) + 2) / 5 + d - 1.

(** The date of a day counted from 1970-01-01, what [Time.Date] gives. *)
Definition civil_from_days (days : Z) : Z * Z * Z :=
  let '(y, m, d) := date_in_cycle ((days + 719468) mod 146097) in
  let year := y + (days + 719468) / 146097 * 400 in
  ((if m <=? 2 then year + 1 else year), m, d).

(** The day of a date, counted from 1970-01-01, what [Date] computes. *)
Definition days_from_civil (year month day : Z) : Z :=
  let y := if month <=? 2 then year - 1 else year in
  y / 400 * 146097 + day_in_cycle (y mod 400) month day - 719468.

Definition digit (n : Z) : ascii := chr (48 + n mod 10).

(** [appendInt(b, n, 2)] for [0 <= n < 100], before [rest]. *)
Definition two (n : Z) (rest : string) : string :=
  String (digit (n / 10)) (String (digit n) rest).

(** [appendInt(b, n, 4)] for [0 <= n < 10000], before [rest]. *)
Definition four (n : Z) (rest : string) : string := two (n / 100) (two n rest).

(** The zone of [appendFormatRFC3339]. *)
Definition format_zone (offset : Z) : string :=
  if offset =? 0 then "Z"
  else
    let zone := Z.quot offset 60 in
    String (if zone <? 0 then "-"%char else "+"%char)
      (two (Z.abs zone / 60) (String ":" (two ((Z.abs zone) mod 60) EmptyString))).

(** [Time.appendStrictRFC3339], which [Time.MarshalJSON] puts between
    quotes: the text of a time, or [None] when the year is outside of
    [0, 9999] or the hour of the zone outside of [0, 23]. [Time] holds no
    fraction of a second, and none is written. *)
Definition Format (t : Time) : option string :=
  let abs := unix t + zone_offset t in
  let '(year, month, day) := civil_from_days (abs / 86400) in
  let clock := abs mod 86400 in
  if (year <? 0) || (9999 <? year) then None
  else if 24 <=? Z.abs (Z.quot (zone_offset t) 60) / 60 then None
  else
    Some (four year (String "-" (two month (String "-" (two day (String "T"
            (two (clock / 3600) (String ":" (two ((clock mod 3600) / 60) (String ":"
               (two (clock mod 60) (format_zone (zone_offset t))))))))))))).

Definition is_digit (c : ascii) : bool := between 48 57 c.

(** [parseUint] on two characters. *)
Definition number (c1 c2 : ascii) (lo hi : Z) : option Z :=
  if is_digit c1 && is_digit c2 then
    let n := (byte c1 - 48) * 10 + (byte c2 - 48) in
    if (lo <=? n) && (n <=? hi) then Some n else None
  else None.

(** The fraction of a second at the head of [s], if any, passed over. *)
Fixpoint skip_digits (s : string) : string :=
  match s with
  | String c rest => if is_digit c then skip_digits rest else s
  | EmptyString => s
  end.

Definition skip_fraction (s : string) : string :=
  match s with
  | String dot (String c rest) =>
      if (byte dot =? 46) && is_digit c then skip_digits rest else s
  | _ => s
  end.

(** The zone of [parseRFC3339]: the offset in seconds. *)
Definition parse_zone (s : string) : option Z :=
  match s with
  | String z EmptyString => if byte z =? 90 then Some 0 else None
  | String sign (String h1 (String h2 (String colon (String m1 (String m2 EmptyString))))) =>
      match number h1 h2 0 23, number m1 m2 0 59 with
      | Some hr, Some mm =>
          if (byte colon =? 58) && ((byte sign =? 45) || (byte sign =? 43)) then
            Some (if byte sign =? 45 then - ((hr * 60 + mm) * 60) else (hr * 60 + mm) * 60)
          else None
      | _, _ => None
      end
  | _ => None
  end.

(** [parseRFC3339], the strict reading of [Time.UnmarshalJSON]. The forms
    outside of RFC 3339 that [time.Parse] accepts as well are left out. *)
Definition Parse (s : string) : option Time :=
  match s with
  | String y1 (String y2 (String y3 (String y4 (String dash1
      (String mo1 (String mo2 (String dash2
        (String da1 (String da2 (String t
          (String h1 (String h2 (String colon1
            (String mi1 (String mi2 (String colon2
              (String s1 (String s2 rest)))))))))))))))))) =>
      match number y1 y2 0 99, number y3 y4 0 99 with
      | Some century, Some years =>
          let year := century * 100 + years in
          match number mo1 mo2 1 12 with
          | Some month =>
              match number da1 da2 1 (daysIn month year),
                    number h1 h2 0 23, number mi1 mi2 0 59, number s1 s2 0 59 with
              | Some day, Some hour, Some min, Some sec =>
                  if (byte dash1 =? 45) && (byte dash2 =? 45) && (byte t =? 84)
                     && (byte colon1 =? 58) && (byte colon2 =? 58)
                  then
                    match parse_zone (skip_fraction rest) with
                    | Some offset =>
                        Some (mkTime (days_from_civil year month day * 86400
                                      + hour * 3600 + min * 60 + sec - offset)
                                     offset)
                    | None => None
                    end
                  else None
              | _, _, _, _ => None
              end
          | None => None
          end
      | _, _ => None
      end
  | _ => None
  end.

(** [check] holds on the [Z.pos p] integers from [lo]. *)
Fixpoint all_range (p : positive) (lo : Z) (check : Z -> bool) : bool :=
  match p with
  | xH => check lo
  | xO q => all_range q lo check && all_range q (lo + Z.pos q) check
  | xI q => check lo && all_range q (lo + 1) check && all_range q (lo + 1 + Z.pos q) check
  end.

(** A day of a cycle has a date, and the date is that of this day. *)
Definition cycle_day_ok (day : Z) : bool :=
  let '(y, m, d) := date_in_cycle day in
  (0 <=? y) && (y <? 400) && (1 <=? m) && (m <=? 12) && (1 <=? d)
  && (d <=? daysIn m (if m <=? 2 then y + 1 else y))
  && (day_in_cycle y m d =? day).

End rfc3339.

(** ** Package [encoding/json]: the interaction table *)

Module json_table.
Import utf8 json_string strconv json.

(** A Go string as a JSON value: the literal [appendString] writes, and
    the text it denotes. *)
Definition string_value (text : string) : value :=
  Str (escape_from Ready text) (coerce text).

(** A [types.Interaction], field by field in the order of the struct, under
    the names of the [json] tags; [action] has [omitempty]. The time is
    what [Time.MarshalJSON] returns, and an error of it is one of
    [Marshal]. *)
Definition interaction_value (i : Interaction) : option value :=
  match rfc3339.Format (i_Timestamp i) with
  | Some stamp =>
      Some (Object
              ([("user_id", Number (FormatInt (i_UserID i)));
                ("timestamp", Str stamp stamp);
                ("user_message", string_value (i_UserMessage i));
                ("ai_response", string_value (i_AIResponse i))]
               ++ match i_Action i with
                  | EmptyString => []
                  | action => [("action", string_value action)]
                  end))
  | None => None
  end.

(** A slice of interactions. The empty slice is written [[]]; the nil
    slice, which the embedding does not tell apart from it and which
    [AddInteraction] never stores, would be written [null]. *)
Definition list_value (l : list Interaction) : option value :=
  Array <$> mapM interaction_value l.

(** The order of the members of a map: that of the keys as strings. *)
Definition key_order (a b : Z * list Interaction) : Prop :=
  String.leb (FormatInt a.1) (FormatInt b.1) = true.

#[global] Instance key_order_dec : RelDecision key_order :=
  fun a b => decide (String.leb (FormatInt a.1) (FormatInt b.1) = true).

Definition table_value (m : gmap Z (list Interaction)) : option value :=
  Object <$> mapM (fun entry => pair (FormatInt entry.1) <$> list_value entry.2)
                  (merge_sort key_order (map_to_list m)).

(** [json.MarshalIndent(m, "", "  ")] on the interaction table; [None]
    stands for an error. *)
Definition MarshalIndent (m : gmap Z (list Interaction)) : option string :=
  print 0 <$> table_value m.

(** *** Decoding *)

(** The name of a field that a key selects: letters compare without
    case, and the long s (U+017F) and the Kelvin sign (U+212A) are an s and
    a k. *)
Fixpoint fold_name (key : string) : string :=
  match key with
  | EmptyString => EmptyString
  | String c rest =>
      let plain := String (if between 65 90 c then chr (byte c + 32) else c) (fold_name rest) in
      match rest with
      | String c1 rest1 =>
          if (byte c =? 197) && (byte c1 =? 191) then String "s" (fold_name rest1)
          else
            match rest1 with
            | String c2 rest2 =>
                if (byte c =? 226) && (byte c1 =? 132) && (byte c2 =? 170)
                then String "k" (fold_name rest2)
                else plain
            | EmptyString => plain
            end
      | EmptyString => plain
      end
  end.

(** A JSON value stored in an [int64]: an integer literal in range; [null]
    changes nothing; anything else is an error. *)
Definition decode_int64 (v : value) (old : Z) : option Z :=
  match v with
  | Number literal => ParseInt literal
  | Null => Some old
  | _ => None
  end.

Definition decode_string (v : value) (old : string) : option string :=
  match v with
  | Str _ text => Some text
  | Null => Some old
  | _ => None
  end.

(** [Time.UnmarshalJSON], which is given the literal as it is written. *)
Definition decode_time (v : value) (old : Time) : option Time :=
  match v with
  | Str literal _ => rfc3339.Parse literal
  | Null => Some old
  | _ => None
  end.

(** One member of an object stored in a [types.Interaction]; a key that
    names no field is passed over. *)
Definition decode_member (i : Interaction) (member : string * value) : option Interaction :=
  let name := fold_name member.1 in
  if String.eqb name "user_id" then
    (fun n => mkInteraction n (i_Timestamp i) (i_UserMessage i) (i_AIResponse i) (i_Action i))
      <$> decode_int64 member.2 (i_UserID i)
  else if String.eqb name "timestamp" then
    (fun t => mkInteraction (i_UserID i) t (i_UserMessage i) (i_AIResponse i) (i_Action i))
      <$> decode_time member.2 (i_Timestamp i)
  else if String.eqb name "user_message" then
    (fun s => mkInteraction (i_UserID i) (i_Timestamp i) s (i_AIResponse i) (i_Action i))
      <$> decode_string member.2 (i_UserMessage i)
  else if String.eqb name "ai_response" then
    (fun s => mkInteraction (i_UserID i) (i_Timestamp i) (i_UserMessage i) s (i_Action i))
      <$> decode_string member.2 (i_AIResponse i)
  else if String.eqb name "action" then
    (fun s => mkInteraction (i_UserID i) (i_Timestamp i) (i_UserMessage i) (i_AIResponse i) s)
      <$> decode_string member.2 (i_Action i)
  else Some i.

(** The members of an object, stored one after the other. *)
Fixpoint decode_members {A B : Type} (store : A -> B -> option A) (a : A) (members : list B)
  : option A :=
  match members with
  | [] => Some a
  | member :: members =>
      match store a member with
      | Some a => decode_members store a members
      | None => None
      end
  end.

(** The zero [types.Interaction]; the zero [time.Time] is the first
    instant of the year 1, UTC. *)
Definition zero_Interaction : Interaction :=
  mkInteraction 0 (mkTime (-62135596800) 0) "" "" "".

Definition decode_interaction (v : value) : option Interaction :=
  match v with
  | Object members => decode_members decode_member zero_Interaction members
  | Null => Some zero_Interaction
  | _ => None
  end.

Definition decode_list (v : value) : option (list Interaction) :=
  match v with
  | Array items => mapM decode_interaction items
  | Null => Some []
  | _ => None
  end.

(** One member of an object stored in the table: the key is read as an
    [int64]. *)
Definition decode_entry (m : gmap Z (list Interaction)) (member : string * value)
  : option (gmap Z (list Interaction)) :=
  match ParseInt member.1, decode_list member.2 with
  | Some userID, Some l => Some (<[userID := l]> m)
  | _, _ => None
  end.

Definition decode_table (v : value) : option (gmap Z (list Interaction)) :=
  match v with
  | Object members => decode_members decode_entry ∅ members
  | Null => Some ∅
  | _ => None
  end.

(** [json.Unmarshal(data, &interactions)] on a nil table; [None] stands
    for an error. The nil table that [null] leaves is the empty one. *)
Definition Unmarshal (data : string) : option (gmap Z (list Interaction)) :=
  match parse data with
  | Some v => decode_table v
  | None => None
  end.

(** *** What a table is read back as *)

(** An interaction with its texts as they are read back. *)
Definition coerce_interaction (i : Interaction) : Interaction :=
  mkInteraction (i_UserID i) (i_Timestamp i)
                (coerce (i_UserMessage i)) (coerce (i_AIResponse i)) (coerce (i_Action i)).

(** A value of [int64]. *)
Definition int64 (n : Z) : Prop := - 2 ^ 63 <= n < 2 ^ 63.

(** An interaction of a user with an [int64] id, at a time whose zone is a
    whole number of minutes from UTC. *)
Definition representable (i : Interaction) : Prop :=
  int64 (i_UserID i) /\ zone_offset (i_Timestamp i) mod 60 = 0.

(** An entry of the table that can be written and read. *)
Definition representable_entry (entry : Z * list Interaction) : Prop :=
  int64 entry.1 /\ Forall representable entry.2.

(** The table with its texts as they are read back. *)
Definition coerce_table (m : gmap Z (list Interaction)) : gmap Z (list Interaction) :=
  map coerce_interaction <$> m.

(** A table that can be written and read. *)
Definition representable_table (m : gmap Z (list Interaction)) : Prop :=
  map_Forall (fun userID l => int64 userID /\ Forall representable l) m.

End json_table.

(** ** Package [database]: loading *)

(** What [os.ReadFile] returns. *)
Inductive ReadFile_result : Type :=
| ReadFile_data (data : string)
| ReadFile_not_exist
| ReadFile_error (e : error).

(** What the outside answers to a database that loads its file. *)
Record Storage : Type := mkStorage {
  (** [os.ReadFile], an error told apart by [os.IsNotExist] *)
  os_ReadFile : list Call -> string -> ReadFile_result;
  (** [json.Unmarshal] into a table of interactions *)
  json_Unmarshal_interactions : string -> result (gmap Z (list Interaction))
}.

Module database_load.
Section WithStorage.
Variable disk : Storage.
Local Open Scope go_scope.

(** [Database.loadInteractions]; the read is a look at the world that
    leaves no trace. *)
Definition loadInteractions : M (option error) :=
  path <- get_filePath ;;
  fun w =>
    match os_ReadFile disk (trace w) path with
    | ReadFile_not_exist => ret None w
    | ReadFile_error e => ret (Some ("failed to read interactions file: " +:+ e)) w
    | ReadFile_data data =>
        if len data =? 0 then ret None w
        else
          match json_Unmarshal_interactions disk data with
          | Err e => ret (Some ("failed to unmarshal interactions: " +:+ e)) w
          | Ok interactions => (set_interactions interactions ;;; ret None) w
          end
    end.

End WithStorage.
End database_load.

(** ** The vocabulary of the properties of the file *)

(** The codec does what its documentation says: the collaborators answer
    as the model of [encoding/json] does, whatever the text of their
    errors. *)
Definition documented_codec (C : Collaborators) (disk : Storage) : Prop :=
  (forall m,
      match json_MarshalIndent C m with
      | Ok data => json_table.MarshalIndent m = Some data
      | Err _ => json_table.MarshalIndent m = None
      end)
  /\ (forall data,
         match json_Unmarshal_interactions disk data with
         | Ok m => json_table.Unmarshal data = Some m
         | Err _ => json_table.Unmarshal data = None
         end).

(** The table holds texts of valid UTF-8 only. *)
Definition valid_texts (m : gmap Z (list Interaction)) : Prop :=
  map_Forall
    (fun _ l =>
       Forall (fun i => utf8.valid (i_UserMessage i) = true
                        /\ utf8.valid (i_AIResponse i) = true
                        /\ utf8.valid (i_Action i) = true) l) m.

(** What the last write to a file put in it, by the calls made so far. *)
Definition written (t : list Call) (path : string) : option string :=
  foldl (fun data c =>
           match c with
           | CallWriteFile p d => if String.eqb p path then Some d else data
           | _ => data
           end) None t.

(** The database a restarted process builds on the file of [w], before
    it loads the file: [stale] is what its table holds. *)
Definition restarted (w : World) (stale : gmap Z (list Interaction)) : World :=
  mkWorld (mkDatabase (filePath (db w)) stale) (trace w) (logs w).

(** ** A concrete world to run the embedding in *)

Module demo.

(** An event on 2025-08-05 (UTC), half an hour long, starting [10 n]
    minutes after 09:00; every second one has a location. *)
Definition meeting (n : nat) : CalendarEvent :=
  mkCalendarEvent ("evt" +:+ pretty n) ("Meeting " +:+ pretty n) ""
                  (mkTime (1754384400 + 600 * Z.of_nat n) 0)
                  (mkTime (1754384400 + 600 * Z.of_nat n + 1800) 0)
                  (if Nat.even n then "Room A" else "").

Definition busy_day : list CalendarEvent := map meeting (seq 1 25).

Definition getEvents_for (message date : string) : AIResponse :=
  mkAIResponse "getEvents" message "" "" date "" "" "" [].

Definition week : AIResponse :=
  mkAIResponse "" "Here is your week" "" "" "" "" "" ""
               [mkAIAction "getEvents" "2025-08-05" "" "" "" "";
                mkAIAction "getEvents" "next-tuesday" "" "" "" "";
                mkAIAction "getEvents" "2025-08-10" "" "" "" ""].

(** The replies of the model that decode as JSON, by their text. *)
Definition decode (content : string) : option AIResponse :=
  if String.eqb content "today?" then Some (getEvents_for "Checking today" "")
  else if String.eqb content "tuesday?" then Some (getEvents_for "Checking Tuesday" "2025-08-05")
  else if String.eqb content "sunday?" then Some (getEvents_for "Checking Sunday" "2025-08-10")
  else if String.eqb content "week?" then Some week
  else if String.eqb content "cancel it" then
    Some (mkAIResponse "delEvents" "Cancelling" "" "" "" "" "" "" [])
  else if String.eqb content "move it" then
    Some (mkAIResponse "updtEvent" "Moving" "" "" "" "" "" "" [])
  else None.

(** The model answers with the user prompt itself, unless it is down; the
    calendar has the busy day and otherwise nothing, and rejects what is
    not a date; writes and sends succeed. *)
Definition C : Collaborators :=
  {| time_Now := fun _ => mkTime 1754350000 0;
     openai_CreateChatCompletion :=
       fun _ prompt => if String.eqb prompt "crash" then Err "connection refused"
                       else Ok [prompt];
     json_Unmarshal_AIResponse := decode;
     json_MarshalIndent := fun _ => Ok "{}";
     os_WriteFile := fun _ _ _ => None;
     calendar_list :=
       fun _ date =>
         if String.eqb date "2025-08-05" then Ok busy_day
         else if String.eqb date "today" || String.eqb date "2025-08-10" then Ok []
         else Err ("invalid date format: cannot parse " +:+ date);
     calendar_insert := fun _ _ _ _ _ _ => None;
     calendar_update := fun _ _ _ _ _ _ _ => None;
     calendar_delete := fun _ _ => None;
     tgbot_Send := fun _ _ _ => None |}.

(** The world of a fresh [NewDatabase]: nothing stored, nothing done. *)
Definition fresh : World :=
  mkWorld (mkDatabase "data/interactions.json" ∅) [] [].

(** A text of 72 lines of 70 bytes each, the newline included. *)
Definition long_text : string :=
  concat_lines (repeat "sixty-nine bytes of text on each line of this long message, then a nl" 72).

(** Fifty-one interactions of one user. *)
Definition fifty_one : list AddCall :=
  map (fun n => mkAddCall 7 ("message " +:+ pretty n) "reply" "None") (seq 1 51).

End demo.

(** A second setting, for the write actions, the cleanup and a client that
    refuses messages. *)

Module office.

(** The replies of the model that decode as JSON, by their text. *)
Definition decode (content : string) : option AIResponse :=
  if String.eqb content "book it" then
    Some (mkAIResponse "makeEvent" "Booking" "" "Review" "2025-08-06" "14:00"
                       "Quarterly review" "Room B" [])
  else if String.eqb content "cancel 42" then
    Some (mkAIResponse "delEvents" "Cancelling" "evt42" "" "" "" "" "" [])
  else if String.eqb content "move 42" then
    Some (mkAIResponse "updtEvent" "Moving" "evt42" "Review" "2025-08-07" "15:00" "" "" [])
  else if String.eqb content "thanks" then
    Some (mkAIResponse "None" "You are welcome!" "" "" "" "" "" "" [])
  else None.

(** How many times the client was given a message. *)
Definition sends (t : list Call) : Z := Z.of_nat (length (bot_sends t)).

(** The model answers with the user prompt itself; the calendar accepts
    new events and updates but does not know the event to delete; the
    Telegram client accepts one message and refuses the next ones. *)
Definition C : Collaborators :=
  {| time_Now := fun _ => mkTime 1754350000 0;
     openai_CreateChatCompletion := fun _ prompt => Ok [prompt];
     json_Unmarshal_AIResponse := decode;
     json_MarshalIndent := fun _ => Ok "{}";
     os_WriteFile := fun _ _ _ => None;
     calendar_list := fun _ _ => Ok [];
     calendar_insert := fun _ _ _ _ _ _ => None;
     calendar_update := fun _ _ _ _ _ _ _ => None;
     calendar_delete := fun _ _ => Some "googleapi: Error 404: Not Found";
     tgbot_Send := fun t _ _ => if sends t >? 1
                                then Some "Too Many Requests: retry after 5"
                                else None |}.

(** Instants compared by their Unix time; whole days added as 86400
    seconds each ([Cleanup] adds no years and no months). *)
Definition T : TimeLib :=
  {| time_AddDate := fun t _ _ days => mkTime (unix t + 86400 * days) (zone_offset t);
     time_After := fun t u => unix t >? unix u |}.

(** A store with an interaction of June 2025 and one of August 2025 for
    user 7, and one of June 2025 for user 8. *)
Definition aged : World :=
  mkWorld
    (mkDatabase "data/interactions.json"
       (<[7 := [mkInteraction 7 (mkTime 1750000000 0) "hi" "Hello!" "None";
                mkInteraction 7 (mkTime 1754340000 0) "today?" "Checking today" "getEvents"]]>
          (<[8 := [mkInteraction 8 (mkTime 1750000000 0) "hi" "Hello!" "None"]]> ∅)))
    [] [].

End office.

(** A third setting, for the file of the store: the codec is the
    documented one, and a file holds what was last written to it. *)
Module archive.

Definition C : Collaborators :=
  {| time_Now := fun _ => mkTime 1754350000 7200;
     openai_CreateChatCompletion := fun _ prompt => Ok [prompt];
     json_Unmarshal_AIResponse := fun _ => None;
     json_MarshalIndent :=
       fun m => match json_table.MarshalIndent m with
                | Some data => Ok data
                | None => Err "json: error calling MarshalJSON for type time.Time"
                end;
     os_WriteFile := fun _ _ _ => None;
     calendar_list := fun _ _ => Ok [];
     calendar_insert := fun _ _ _ _ _ _ => None;
     calendar_update := fun _ _ _ _ _ _ _ => None;
     calendar_delete := fun _ _ => None;
     tgbot_Send := fun _ _ _ => None |}.

Definition disk : Storage :=
  {| os_ReadFile := fun t path => match written t path with
                                  | Some data => ReadFile_data data
                                  | None => ReadFile_not_exist
                                  end;
     json_Unmarshal_interactions :=
       fun data => match json_table.Unmarshal data with
                   | Some m => Ok m
                   | None => Err "invalid character"
                   end |}.

(** The byte 0xFF, which is no UTF-8. *)
Definition xff : string := String "255"%char EmptyString.

(** The store after a first interaction, of an accented greeting, and
    after one whose message is the byte 0xFF. *)
Definition greeted : World :=
  (database.AddInteraction C 7 "café?" "Bonjour!" "None" demo.fresh).2.

Definition garbled : World :=
  (database.AddInteraction C 7 xff "Pardon?" "" demo.fresh).2.

(** The store is saved, and a restarted process with an empty table loads
    the file. *)
Definition reload (w : World) : option error * World :=
  database_load.loadInteractions disk (restarted (database.saveInteractions C w).2 ∅).

End archive.

(** * Properties *)

(** ** Byte strings *)

Lemma string_app_nil_r (s : string) : s +:+ "" = s.
Proof.
  induction s as [|c s IH]; [reflexivity |].
  change (String c (s +:+ "") = String c s). now rewrite IH.
Qed.

Lemma string_app_assoc (a b c : string) : (a +:+ b) +:+ c = a +:+ (b +:+ c).
Proof.
  induction a as [|x a IH]; [reflexivity |].
  change (String x ((a +:+ b) +:+ c) = String x (a +:+ (b +:+ c))). now rewrite IH.
Qed.

Lemma string_length_app (a b : string) :
  String.length (a +:+ b) = (String.length a + String.length b)%nat.
Proof.
  induction a as [|x a IH]; [reflexivity |].
  change (S (String.length (a +:+ b)) = S (String.length a + String.length b)).
  now rewrite IH.
Qed.

Lemma concat_strings_app (l k : list string) :
  concat_strings (l ++ k) = concat_strings l +:+ concat_strings k.
Proof.
  induction l as [|s l IH]; [reflexivity |].
  change (s +:+ concat_strings (l ++ k) = (s +:+ concat_strings l) +:+ concat_strings k).
  now rewrite IH, string_app_assoc.
Qed.

(** A loop that appends one rendered piece per element builds the
    concatenation of the pieces after what it started with. *)
Lemma fold_left_append {A : Type} (f : A -> string) (l : list A) (acc : string) :
  fold_left (fun s x => s +:+ f x) l acc = acc +:+ concat_strings (map f l).
Proof.
  revert acc. induction l as [|x l IH]; intros acc.
  - symmetry. apply string_app_nil_r.
  - cbn [fold_left map]. rewrite IH. apply string_app_assoc.
Qed.

(** Case analysis on the integer comparisons of the goal. *)
Ltac case_compare :=
  repeat match goal with
    | |- context [?a >? ?b] => destruct (Z.gtb_spec a b)
    | |- context [?a <? ?b] => destruct (Z.ltb_spec a b)
    | |- context [?a <=? ?b] => destruct (Z.leb_spec a b)
    | |- context [?a =? ?b] => destruct (Z.eqb_spec a b)
    end.

Lemma length_zero_nil {A : Type} (l : list A) : Z.of_nat (length l) = 0 -> l = [].
Proof. destruct l; [reflexivity | cbn; lia]. Qed.

(** ** The conversation store *)

(** The loop of [GetUserContext] on a list of interactions. *)
Lemma context_loop (l : list Interaction) :
  (if Z.of_nat (length l) =? 0 then ""
   else fold_left (fun context interaction =>
                     context +:+ ("User: " +:+ i_UserMessage interaction +:+ nl
                                  +:+ "AI: " +:+ i_AIResponse interaction +:+ nl +:+ nl))
                  l "")
  = concat_strings (map format_interaction l).
Proof.
  case_compare.
  - now rewrite (length_zero_nil l).
  - now rewrite (fold_left_append format_interaction).
Qed.

Lemma GetUserContext_run (userID n : Z) (w : World) :
  database.GetUserContext userID n w
  = (concat_strings (map format_interaction (shown w userID n)), w).
Proof.
  rewrite <- (context_loop (shown w userID n)).
  unfold database.GetUserContext, database.GetUserInteractions, bind, ret,
    get_interactions, shown. cbn beta.
  fold (stored w userID). set (count := Z.of_nat (length (stored w userID))).
  destruct (Z.eqb_spec count 0) as [Hzero | Hpos].
  - rewrite (length_zero_nil _ Hzero).
    destruct (n <=? 0); rewrite ?drop_nil; reflexivity.
  - destruct (Z.gtb_spec n 0), (Z.gtb_spec count n), (Z.leb_spec n 0);
      try lia; cbn [andb];
      try (replace (Z.min n count) with n by lia);
      try (replace (Z.min n count) with count by lia; rewrite Z.sub_diag);
      now destruct (_ =? 0).
Qed.

(** Claim C7. [GetUserContext userID n] changes nothing and returns the
    concatenation, oldest first, of the blocks ["User: {message}\nAI:
    {response}\n\n"] of the interactions it shows: all the stored ones when
    [n <= 0], the last [min n count] of the [count] stored ones when
    [n > 0]; and the empty string when none is stored. *)
Theorem GetUserContext_shows_last_n (userID n : Z) (w : World) :
  let count := Z.of_nat (length (stored w userID)) in
  let shown :=
    if n <=? 0 then stored w userID
    else drop (Z.to_nat (count - Z.min n count)) (stored w userID) in
  database.GetUserContext userID n w = (concat_strings (map format_interaction shown), w)
  /\ Z.of_nat (length shown) = (if n <=? 0 then count else Z.min n count)
  /\ (stored w userID = [] -> database.GetUserContext userID n w = ("", w)).
Proof.
  intros count shown0.
  assert (Hrun := GetUserContext_run userID n w). unfold shown in Hrun.
  fold count in Hrun. fold shown0 in Hrun.
  split; [exact Hrun | split].
  - subst shown0. destruct (Z.leb_spec n 0); [reflexivity |].
    rewrite length_drop. subst count. lia.
  - intros Hnil. rewrite Hrun. subst shown0. rewrite Hnil.
    destruct (n <=? 0); rewrite ?drop_nil; reflexivity.
Qed.

(** The table [AddInteraction] leaves in memory, whatever the save does. *)
Lemma AddInteraction_table (C : Collaborators) (userID : Z) (um ar act : string)
      (w : World) :
  let new := mkInteraction userID (time_Now C (trace w ++ [CallNow])) um ar act in
  let added := stored w userID ++ [new] in
  interactions (db (database.AddInteraction C userID um ar act w).2)
  = <[userID := drop (length added - 50) added]> (interactions (db w)).
Proof.
  intros new added.
  assert (Hrun : forall m0, interactions (db w) = m0 ->
    interactions (db (database.AddInteraction C userID um ar act w).2)
    = let m1 := match m0 !! userID with None => <[userID := []]> m0 | Some _ => m0 end in
      let m2 := <[userID := at_user m1 userID ++ [new]]> m1 in
      if Z.of_nat (length (at_user m2 userID)) >? 50
      then <[userID := drop (Z.to_nat (Z.of_nat (length (at_user m2 userID)) - 50))
                            (at_user m2 userID)]> m2
      else m2).
  { intros m0 <-.
    unfold database.AddInteraction, database.saveInteractions, bind, ret, call,
      get_interactions, set_interactions, get_filePath, log_Printf.
    cbn. destruct (json_MarshalIndent C _); cbn; [| reflexivity].
    now destruct (os_WriteFile C _ _ _). }
  rewrite (Hrun _ eq_refl). clear Hrun.
  unfold added, stored, at_user.
  generalize (interactions (db w)). intros m0.
  assert (Hsame : forall l,
    (if Z.of_nat (length (l ++ [new])) >? 50
     then <[userID := drop (Z.to_nat (Z.of_nat (length (l ++ [new])) - 50))
                           (l ++ [new])]> m0
     else <[userID := l ++ [new]]> m0)
    = <[userID := drop (length (l ++ [new]) - 50) (l ++ [new])]> m0).
  { intros l.
    destruct (Z.gtb_spec (Z.of_nat (length (l ++ [new]))) 50) as [Hgt | Hle].
    - f_equal. f_equal. lia.
    - replace (length (l ++ [new]) - 50)%nat with 0%nat by lia. reflexivity. }
  cbn zeta. destruct (m0 !! userID) as [l |] eqn:Hm;
    repeat (rewrite ?Hm, ?lookup_insert_eq, ?insert_insert_eq; cbn [from_option id]);
    apply Hsame.
Qed.

Lemma AddInteraction_stored_same (C : Collaborators) (userID : Z) (um ar act : string)
      (w : World) :
  let new := mkInteraction userID (time_Now C (trace w ++ [CallNow])) um ar act in
  let added := stored w userID ++ [new] in
  stored (database.AddInteraction C userID um ar act w).2 userID
  = drop (length added - 50) added.
Proof.
  intros new added. unfold stored at 1, at_user.
  rewrite AddInteraction_table, lookup_insert_eq. reflexivity.
Qed.

Lemma AddInteraction_stored_other (C : Collaborators) (userID other : Z)
      (um ar act : string) (w : World) :
  other <> userID ->
  stored (database.AddInteraction C userID um ar act w).2 other = stored w other.
Proof.
  intros Hne. unfold stored, at_user.
  rewrite AddInteraction_table, lookup_insert_ne by congruence. reflexivity.
Qed.

Lemma AddInteraction_within_window (C : Collaborators) (userID : Z) (um ar act : string)
      (w : World) :
  within_window w -> within_window (database.AddInteraction C userID um ar act w).2.
Proof.
  intros Hw other. destruct (decide (other = userID)) as [-> | Hne].
  - rewrite AddInteraction_stored_same, length_drop. lia.
  - rewrite AddInteraction_stored_other by assumption. apply Hw.
Qed.

Lemma run_adds_within_window (C : Collaborators) (calls : list AddCall) (w : World) :
  within_window w -> within_window (run_adds C calls w).
Proof.
  revert w. induction calls as [|c calls IH]; intros w Hw; [exact Hw |].
  apply IH, AddInteraction_within_window, Hw.
Qed.

(** Claim C2. From a store in which no user has more than 50 interactions
    (the empty store of a fresh [NewDatabase] is one), after any sequence of
    [AddInteraction] calls no user has more than 50; and one more call for
    [userID] leaves the last 50 of the old entries followed by the new one,
    in order: with 50 already stored the oldest entry is dropped from the
    front, and no other user's entries change. *)
Theorem store_keeps_last_50 (C : Collaborators) (calls : list AddCall) (w0 : World) :
  within_window w0 ->
  let w := run_adds C calls w0 in
  within_window w
  /\ forall (userID : Z) (um ar act : string),
       let new := mkInteraction userID (time_Now C (trace w ++ [CallNow])) um ar act in
       let w' := (database.AddInteraction C userID um ar act w).2 in
       stored w' userID
       = drop (length (stored w userID ++ [new]) - 50) (stored w userID ++ [new])
       /\ (length (stored w userID) = 50%nat ->
           stored w' userID = drop 1 (stored w userID) ++ [new])
       /\ (forall other, other <> userID -> stored w' other = stored w other).
Proof.
  intros Hw0 w.
  assert (Hw : within_window w) by now apply run_adds_within_window.
  split; [exact Hw |].
  intros userID um ar act new w'. split; [| split].
  - apply AddInteraction_stored_same.
  - intros Hfull. unfold w'. rewrite AddInteraction_stored_same.
    fold new. rewrite length_app, Hfull. cbn [length].
    replace (50 + 1 - 50)%nat with 1%nat by lia.
    rewrite drop_app_le by lia. reflexivity.
  - intros other Hne. now apply AddInteraction_stored_other.
Qed.

(** Run the monadic plumbing of the goal. *)
Ltac run_go :=
  repeat (progress (unfold bind, ret, call, enter, log_Printf, get_interactions,
                      set_interactions, get_filePath;
                    cbn [fst snd trace db logs])).

(** ** Splitting a long message *)

Lemma string_app_cons (c : ascii) (a b : string) :
  String c a +:+ b = String c (a +:+ b).
Proof. reflexivity. Qed.

Lemma substring_zero_length (s : string) (n : nat) : substring n 0 s = "".
Proof.
  revert n. induction s as [|c s IH]; intros [|n]; cbn; try reflexivity. apply IH.
Qed.

Lemma substring_length (s : string) (n m : nat) :
  (n + m <= String.length s)%nat -> String.length (substring n m s) = m.
Proof.
  revert n m. induction s as [|c s IH]; intros [|n] [|m]; cbn; intros H; try lia.
  - rewrite (IH 0%nat m); [reflexivity | lia].
  - apply IH. lia.
  - apply IH. lia.
Qed.

(** Two adjacent slices make one. *)
Lemma substring_split (s : string) (n m k : nat) :
  substring n m s +:+ substring (n + m) k s = substring n (m + k) s.
Proof.
  revert n m. induction s as [|c s IH]; intros n m.
  - destruct n, m, k; reflexivity.
  - destruct n as [|n].
    + destruct m as [|m].
      * reflexivity.
      * cbn [substring Nat.add]. rewrite string_app_cons. f_equal.
        apply (IH 0%nat m).
    + cbn [substring Nat.add]. apply (IH n m).
Qed.

Lemma substring_all (s : string) : substring 0 (String.length s) s = s.
Proof. induction s as [|c s IH]; cbn; [reflexivity | now rewrite IH]. Qed.

Lemma slice_split (s : string) (a b c : Z) :
  0 <= a <= b -> b <= c -> slice s a b +:+ slice s b c = slice s a c.
Proof.
  intros Hab Hbc. unfold slice.
  replace (Z.to_nat b) with (Z.to_nat a + Z.to_nat (b - a))%nat by lia.
  rewrite substring_split. f_equal. lia.
Qed.

Lemma slice_len (s : string) (a b : Z) :
  0 <= a <= b -> b <= len s -> len (slice s a b) = b - a.
Proof.
  intros Hab Hb. unfold slice, len in *. rewrite substring_length; lia.
Qed.

(** The unfolding of the splitting loop. *)
Lemma split_loop_eq (text : string) (start : Z) (messages : list string) :
  telegram.split_loop text start messages
  = if decide (start < len text)
    then telegram.split_loop text (telegram.chunk_end text start)
           (messages ++ [slice text start (telegram.chunk_end text start)])
    else messages.
Proof.
  rewrite telegram.split_loop_equation_1.
  destruct (decide (start < len text)); reflexivity.
Qed.

(** From any position inside the text the loop terminates, having appended
    chunks that partition the rest of the text. *)
Lemma split_loop_partitions (text : string) (n : nat) :
  forall (start : Z) (messages : list string),
    Z.to_nat (len text - start) = n ->
    0 <= start <= len text ->
    exists chunks,
      telegram.split_loop text start messages = messages ++ chunks
      /\ concat_strings chunks = slice text start (len text)
      /\ Forall is_chunk chunks.
Proof.
  induction n as [n IH] using lt_wf_ind. intros start messages Hn Hstart.
  rewrite split_loop_eq. destruct (decide (start < len text)) as [Hlt | Hge].
  - destruct (telegram.chunk_end_progress text start Hlt) as [Hprog Hmax].
    set (e := telegram.chunk_end text start) in *.
    destruct (IH (Z.to_nat (len text - e)) ltac:(lia) e
                 (messages ++ [slice text start e]) eq_refl ltac:(lia))
      as (chunks & Hrun & Hcat & Hall).
    exists (slice text start e :: chunks). split; [| split].
    + rewrite Hrun, <- app_assoc. reflexivity.
    + change (slice text start e +:+ concat_strings chunks = slice text start (len text)).
      rewrite Hcat. apply slice_split; lia.
    + constructor; [| exact Hall].
      unfold is_chunk. rewrite slice_len by lia. lia.
  - exists []. rewrite app_nil_r. split; [reflexivity | split; [| constructor]].
    unfold slice. replace (len text - start) with 0 by lia.
    now rewrite substring_zero_length.
Qed.

Lemma marked_with_markers (rest : list string) (total i : Z) :
  total = i + Z.of_nat (length rest) ->
  marked total i rest = with_markers rest.
Proof.
  revert i. induction rest as [|m rest IH]; intros i Htotal; [reflexivity |].
  cbn [marked]. rewrite (IH (i + 1)) by (cbn [length] in Htotal; lia).
  unfold with_markers. destruct rest as [|m' rest].
  - cbn in *. destruct (Z.ltb_spec i (total - 1)); [lia | reflexivity].
  - cbn [length] in *. destruct (Z.ltb_spec i (total - 1)); [| lia].
    replace (S (S (length rest)) - 1)%nat with (S (length rest)) by lia.
    replace (S (length rest) - 1)%nat with (length rest) by lia.
    reflexivity.
Qed.

(** The sending loop gives [bot.Send] the marked parts in order, up to and
    including the first one whose send fails. *)
Lemma send_loop_sends (C : Collaborators) (chatID total : Z) (rest : list string) :
  forall (i : Z) (w : World),
    exists k : nat,
      bot_sends (trace (telegram.send_loop C chatID total i rest w).2)
      = bot_sends (trace w) ++ map (pair chatID) (take k (marked total i rest))
      /\ match (telegram.send_loop C chatID total i rest w).1 with
         | None => k = length rest
         | Some _ => (0 < k <= length rest)%nat
         end.
Proof.
  induction rest as [|m rest IH]; intros i w.
  - exists 0%nat. cbn. rewrite app_nil_r. split; reflexivity.
  - cbn [telegram.send_loop marked]. unfold bind, call, enter, ret. cbn [trace db logs].
    set (text := if i <? total - 1 then m +:+ telegram.continued else m).
    destruct (tgbot_Send C (trace w ++ [CallBotSend chatID text]) chatID text) as [e |].
    + exists 1%nat. cbn [fst snd trace]. unfold bot_sends. rewrite omap_app.
      cbn. split; [reflexivity | lia].
    + run_go.
      match goal with
      | |- context [telegram.send_loop C chatID total (i + 1) rest ?w1] =>
          destruct (IH (i + 1) w1) as (k & Htrace & Hres); exists (S k)
      end.
      split.
      * rewrite Htrace. cbn [trace]. unfold bot_sends. rewrite !omap_app.
        cbn [omap take map]. rewrite <- !app_assoc. reflexivity.
      * revert Hres.
        destruct (telegram.send_loop C chatID total (i + 1) rest _).1; cbn [length]; lia.
Qed.

Lemma split_loop_from_start (text : string) :
  concat_strings (telegram.split_loop text 0 []) = text
  /\ Forall is_chunk (telegram.split_loop text 0 []).
Proof.
  destruct (split_loop_partitions text (Z.to_nat (len text - 0)) 0 [] eq_refl)
    as (chunks & Hrun & Hcat & Hall); [unfold len; lia |].
  rewrite Hrun. cbn [app]. split; [| exact Hall].
  rewrite Hcat. unfold slice, len. rewrite Z.sub_0_r, Nat2Z.id. apply substring_all.
Qed.


(** ** The message pipeline *)

Lemma sink_calls_app (t l : list Call) : sink_calls (t ++ l) = sink_calls t ++ sink_calls l.
Proof. apply omap_app. Qed.

Lemma calendar_calls_app (t l : list Call) :
  calendar_calls (t ++ l) = calendar_calls t ++ calendar_calls l.
Proof. apply List.filter_app. Qed.

Lemma sink_calls_none (kind : Call -> bool) (l : list Call) :
  (forall c, kind c = true -> is_sink c = false) ->
  forallb kind l = true -> sink_calls l = [].
Proof.
  intros Hkind. induction l as [|c l IH]; [reflexivity |]. cbn [forallb].
  intros [Hc Hl]%andb_prop. specialize (Hkind c Hc).
  unfold sink_calls. cbn [omap]. destruct c; try discriminate Hkind; now apply IH.
Qed.

Lemma calendar_calls_none (kind : Call -> bool) (l : list Call) :
  (forall c, kind c = true -> is_calendar c = false) ->
  forallb kind l = true -> calendar_calls l = [].
Proof.
  intros Hkind. induction l as [|c l IH]; [reflexivity |]. cbn [forallb].
  intros [Hc Hl]%andb_prop. unfold calendar_calls. cbn [List.filter].
  rewrite (Hkind c Hc). now apply IH.
Qed.

Lemma calendar_calls_all (l : list Call) :
  forallb is_calendar l = true -> calendar_calls l = l.
Proof.
  induction l as [|c l IH]; [reflexivity |]. cbn [forallb].
  intros [Hc Hl]%andb_prop. unfold calendar_calls. cbn [List.filter].
  rewrite Hc. f_equal. now apply IH.
Qed.

(** [executeAIAction] never returns an error: every branch ends in text. *)
Lemma executeAIAction_no_error (C : Collaborators) (userID : Z) (ai : AIResponse)
      (w : World) :
  (ai.executeAIAction C userID ai w).1.2 = None.
Proof.
  unfold ai.executeAIAction. run_go.
  match goal with |- context [let (_, _) := ?m ?w1 in _] => destruct (m w1) end.
  reflexivity.
Qed.

(** [ProcessUserMessage], stage by stage. *)
Lemma ProcessUserMessage_stages (C : Collaborators) (userID chatID : Z)
      (message : string) (w : World) :
  ai.ProcessUserMessage C userID chatID message w
  = match classify C userID message w with
    | (Err err, w1) => apologise C userID chatID err w1
    | (Ok aiResponse, w1) =>
        let run := ai.executeAIAction C userID aiResponse
                     (dispatch_world C userID message aiResponse w1) in
        respond C userID chatID run.1.1 run.2
    end.
Proof.
  unfold ai.ProcessUserMessage, classify, dispatch_world, persist, apologise, respond.
  unfold bind, ret, log_Printf. cbn [fst snd].
  destruct (database.GetUserContext userID 10 _) as [context w0].
  destruct (ai.ProcessMessage C context message w0) as [[aiResponse | err] w1];
    [| reflexivity].
  cbn [db trace logs].
  destruct (database.AddInteraction C userID message _ _ _) as [[e |] w2];
    cbn [fst snd db trace logs];
    match goal with
    | |- context [ai.executeAIAction C userID aiResponse ?w3] =>
        pose proof (executeAIAction_no_error C userID aiResponse w3) as Hnone;
        destruct (ai.executeAIAction C userID aiResponse w3) as [[response err] w4]
    end;
    cbn in Hnone; subst err; reflexivity.
Qed.

(** *** Which calls each stage makes *)

Lemma appends_ret (kind : Call -> bool) {A : Type} (a : A) : appends kind (ret a).
Proof. intros w. exists []. now rewrite app_nil_r. Qed.

Lemma appends_bind (kind : Call -> bool) {A B : Type} (m : M A) (k : A -> M B) :
  appends kind m -> (forall a, appends kind (k a)) -> appends kind (bind m k).
Proof.
  intros Hm Hk w. unfold bind. destruct (Hm w) as (l1 & H1 & Hl1).
  destruct (m w) as [a w1]. destruct (Hk a w1) as (l2 & H2 & Hl2).
  exists (l1 ++ l2). cbn [snd] in *. rewrite H2, H1, app_assoc. split; [reflexivity |].
  rewrite forallb_app, Hl1, Hl2. reflexivity.
Qed.

Lemma appends_log (kind : Call -> bool) (format : string) (args : list LogArg) :
  appends kind (log_Printf format args).
Proof. intros w. exists []. now rewrite app_nil_r. Qed.

Lemma appends_call (kind : Call -> bool) {A : Type} (c : Call) (answer : list Call -> A) :
  kind c = true -> appends kind (call c answer).
Proof. intros Hc w. exists [c]. cbn. now rewrite Hc. Qed.

Lemma appends_quiet (kind : Call -> bool) {A : Type} (m : M A) :
  (forall w, trace (m w).2 = trace w) -> appends kind m.
Proof. intros Hm w. exists []. now rewrite Hm, app_nil_r. Qed.

Lemma GetUserContext_reads (userID n : Z) (w : World) :
  (database.GetUserContext userID n w).2 = w.
Proof. now rewrite GetUserContext_run. Qed.

(** Decompose a computation into its calls. *)
Ltac appends_step :=
  first
    [ apply appends_ret
    | apply appends_log
    | apply appends_call; reflexivity
    | apply appends_quiet; intros ?; first [reflexivity | now rewrite GetUserContext_reads]
    | apply appends_bind; [| intros ?]
    | match goal with
      | |- appends _ (if ?b then _ else _) => destruct b
      | |- appends _ (match ?x with _ => _ end) => destruct x
      | |- appends _ (let _ := _ in _) => cbv zeta
      end ].

Lemma classify_appends (C : Collaborators) (userID : Z) (message : string) :
  appends is_internal (classify C userID message).
Proof. unfold classify, ai.ProcessMessage. repeat appends_step. Qed.

Lemma persist_appends (C : Collaborators) (userID : Z) (message : string)
      (aiResponse : AIResponse) :
  appends is_internal (persist C userID message aiResponse).
Proof.
  unfold persist, database.AddInteraction, database.saveInteractions.
  repeat appends_step.
Qed.

Lemma send_loop_appends (C : Collaborators) (chatID total : Z) (rest : list string) :
  forall i, appends is_transmission (telegram.send_loop C chatID total i rest).
Proof.
  induction rest as [|m rest IH]; intros i; cbn [telegram.send_loop].
  - apply appends_ret.
  - unfold enter. repeat appends_step. apply IH.
Qed.

(** [SendMessage] records its entry, then only sends and pauses. *)
Lemma SendMessage_trace (C : Collaborators) (chatID : Z) (text : string) (w : World) :
  exists l,
    trace (telegram.SendMessage C chatID text w).2
    = trace w ++ CallSendMessage chatID text :: l
    /\ forallb is_transmission l = true.
Proof.
  pose (rest := (log_Printf "Sending message to chat %d: %s" [LInt chatID; LStr text] ;;;
                 if len text >? 4096 then
                   log_Printf "Message too long (%d chars), splitting into multiple messages"
                              [LInt (len text)] ;;;
                   telegram.sendLongMessage C chatID text
                 else
                   r <- call (CallBotSend chatID text)
                             (fun t => tgbot_Send C t chatID text) ;;
                   match r with
                   | Some e => ret (Some ("failed to send message: " +:+ e))
                   | None => ret None
                   end) : M (option error)).
  assert (Hrest : appends is_transmission rest).
  { unfold rest, telegram.sendLongMessage. repeat appends_step. apply send_loop_appends. }
  pose (w1 := mkWorld (db w) (trace w ++ [CallSendMessage chatID text]) (logs w)).
  assert (Heq : telegram.SendMessage C chatID text w = rest w1) by reflexivity.
  rewrite Heq. destruct (Hrest w1) as (l & Hl & Hall).
  exists l. rewrite Hl. cbn [trace w1]. rewrite <- app_assoc. split; [reflexivity | exact Hall].
Qed.

Lemma actions_loop_appends (C : Collaborators) (userID total : Z) (rest : list AIAction) :
  forall i response,
    appends is_calendar (ai.actions_loop C userID total i rest response).
Proof.
  induction rest as [|action rest IH]; intros i response; cbn [ai.actions_loop].
  - apply appends_ret.
  - unfold calendar.GetEvents.
    apply appends_bind; [apply appends_log | intros _].
    apply appends_bind; [repeat appends_step | intros ?; apply IH].
Qed.

(** [executeAIAction] only calls the calendar gateway. *)
Lemma executeAIAction_appends (C : Collaborators) (userID : Z) (aiResponse : AIResponse) :
  appends is_calendar (ai.executeAIAction C userID aiResponse).
Proof.
  unfold ai.executeAIAction.
  apply appends_bind; [apply appends_log | intros _].
  apply appends_bind; [apply appends_log | intros _].
  apply appends_bind; [| intros ?; repeat appends_step].
  destruct (Z.of_nat (length (Actions aiResponse)) >? 0).
  - apply appends_bind; [apply appends_log | intros _]. apply actions_loop_appends.
  - unfold ai.single_getEvents, calendar.GetEvents, calendar.CreateEvent,
      calendar.DeleteEvent, calendar.UpdateEvent.
    repeat appends_step.
Qed.

Lemma transmission_not_sink (c : Call) : is_transmission c = true -> is_sink c = false.
Proof. now destruct c. Qed.

Lemma transmission_not_calendar (c : Call) :
  is_transmission c = true -> is_calendar c = false.
Proof. now destruct c. Qed.

Lemma internal_not_sink (c : Call) : is_internal c = true -> is_sink c = false.
Proof. now destruct c. Qed.

Lemma internal_not_calendar (c : Call) : is_internal c = true -> is_calendar c = false.
Proof. now destruct c. Qed.

Lemma calendar_not_sink (c : Call) : is_calendar c = true -> is_sink c = false.
Proof. now destruct c. Qed.

Lemma sink_calls_entry (chatID : Z) (text : string) (l : list Call) :
  sink_calls (CallSendMessage chatID text :: l) = (chatID, text) :: sink_calls l.
Proof. reflexivity. Qed.

Lemma calendar_calls_entry (chatID : Z) (text : string) (l : list Call) :
  calendar_calls (CallSendMessage chatID text :: l) = calendar_calls l.
Proof. reflexivity. Qed.

(** The calls of [respond]: one sink call with the response, no gateway
    call; and what it returns is what that [SendMessage] returns. *)
Lemma respond_calls (C : Collaborators) (userID chatID : Z) (response : string)
      (w : World) :
  sink_calls (trace (respond C userID chatID response w).2)
  = sink_calls (trace w) ++ [(chatID, response)]
  /\ calendar_calls (trace (respond C userID chatID response w).2)
     = calendar_calls (trace w)
  /\ exists w', trace w' = trace w
       /\ (respond C userID chatID response w).1
          = (telegram.SendMessage C chatID response w').1.
Proof.
  unfold respond. run_go.
  match goal with
  | |- context [telegram.SendMessage C chatID response ?w1] =>
      destruct (SendMessage_trace C chatID response w1) as (l & Hl & Hall);
      set (wsend := w1) in *;
      destruct (telegram.SendMessage C chatID response wsend) as [sendErr w2] eqn:Hsend
  end.
  cbn [snd fst trace] in Hl.
  assert (Htrace : trace w2 = trace w ++ CallSendMessage chatID response :: l) by exact Hl.
  split; [| split].
  - destruct sendErr; run_go;
      rewrite Htrace, sink_calls_app, sink_calls_entry,
        (sink_calls_none _ l transmission_not_sink Hall); reflexivity.
  - destruct sendErr; run_go;
      rewrite Htrace, calendar_calls_app, calendar_calls_entry,
        (calendar_calls_none _ l transmission_not_calendar Hall);
      now rewrite app_nil_r.
  - exists wsend. split; [reflexivity |]. rewrite Hsend. now destruct sendErr.
Qed.

(** A run of [ProcessUserMessage] in which the classification succeeded:
    the gateway is only called by the dispatch, the sink is called once,
    with the text the dispatch produced, and the result is that of this
    sink call. *)
Lemma ProcessUserMessage_ok (C : Collaborators) (userID chatID : Z) (message : string)
      (w w1 : World) (aiResponse : AIResponse) :
  classify C userID message w = (Ok aiResponse, w1) ->
  let w2 := dispatch_world C userID message aiResponse w1 in
  let run := ai.executeAIAction C userID aiResponse w2 in
  let final := ai.ProcessUserMessage C userID chatID message w in
  forall l, trace run.2 = trace w2 ++ l ->
    sink_calls (trace final.2) = sink_calls (trace w) ++ [(chatID, run.1.1)]
    /\ calendar_calls (trace final.2) = calendar_calls (trace w) ++ l
    /\ calendar_calls (trace w2) = calendar_calls (trace w)
    /\ exists w', trace w' = trace run.2
         /\ final.1 = (telegram.SendMessage C chatID run.1.1 w').1.
Proof.
  intros Hclass w2 run final l Hl.
  assert (Hfinal : final = respond C userID chatID run.1.1 run.2).
  { unfold final. rewrite ProcessUserMessage_stages, Hclass. reflexivity. }
  destruct (classify_appends C userID message w) as (l1 & H1 & Hall1).
  rewrite Hclass in H1. cbn [snd] in H1.
  destruct (persist_appends C userID message aiResponse w1) as (l2 & H2 & Hall2).
  fold (dispatch_world C userID message aiResponse w1) in H2. fold w2 in H2.
  destruct (executeAIAction_appends C userID aiResponse w2) as (l3 & H3 & Hall3).
  fold run in H3. rewrite Hl in H3. apply app_inv_head in H3. subst l3.
  destruct (respond_calls C userID chatID run.1.1 run.2) as (Hsink & Hcal & Hret).
  rewrite <- Hfinal in Hsink, Hcal, Hret.
  assert (Hcal2 : calendar_calls (trace w2) = calendar_calls (trace w)).
  { rewrite H2, H1, !calendar_calls_app.
    rewrite (calendar_calls_none _ l1 internal_not_calendar Hall1).
    rewrite (calendar_calls_none _ l2 internal_not_calendar Hall2).
    now rewrite !app_nil_r. }
  split; [| split; [| split]].
  - rewrite Hsink, Hl, H2, H1, !sink_calls_app.
    rewrite (sink_calls_none _ l1 internal_not_sink Hall1).
    rewrite (sink_calls_none _ l2 internal_not_sink Hall2).
    rewrite (sink_calls_none _ l calendar_not_sink Hall3).
    now rewrite !app_nil_r.
  - rewrite Hcal, Hl, calendar_calls_app, Hcal2.
    now rewrite (calendar_calls_all l Hall3).
  - exact Hcal2.
  - exact Hret.
Qed.

(** *** The dispatch of a single action *)

(** What [Service.GetEvents] answers depends on the calls made so far. *)
Lemma GetEvents_answer (C : Collaborators) (dateStr : string) (w : World) :
  calendar.GetEvents C dateStr w
  = (calendar_list C (trace w ++ [CallGetEvents dateStr])
                   (if String.eqb dateStr "" then "today" else dateStr),
     mkWorld (db w) (trace w ++ [CallGetEvents dateStr]) (logs w)).
Proof. reflexivity. Qed.

Lemma append_events_lines (response : string) (events : list CalendarEvent) :
  ai.append_events response events
  = response +:+ concat_strings (map event_line events).
Proof.
  unfold ai.append_events. revert response.
  induction events as [|event events IH]; intros response.
  - symmetry. apply string_app_nil_r.
  - cbn [fold_left map]. rewrite IH.
    change (concat_strings (event_line event :: map event_line events))
      with (event_line event +:+ concat_strings (map event_line events)).
    rewrite <- (string_app_assoc response (event_line event)). f_equal.
    unfold event_line. destruct (String.eqb (ev_Location event) ""); cbn [negb];
      rewrite !string_app_assoc; try reflexivity.
Qed.

Lemma executeAIAction_single_getEvents (C : Collaborators) (userID : Z)
      (aiResponse : AIResponse) (w : World) :
  Actions aiResponse = [] ->
  Action aiResponse = "getEvents" ->
  (ai.executeAIAction C userID aiResponse w).1.1
  = single_getEvents_text (EventDate aiResponse)
      (calendar.GetEvents C (EventDate aiResponse) w).1
  /\ trace (ai.executeAIAction C userID aiResponse w).2
     = trace w ++ [CallGetEvents (EventDate aiResponse)].
Proof.
  intros Hactions Haction.
  unfold ai.executeAIAction. rewrite Hactions, Haction.
  change (Z.of_nat (length (@nil AIAction))) with 0.
  unfold ai.single_getEvents. rewrite !GetEvents_answer.
  unfold bind, ret, log_Printf. cbn.
  destruct (calendar_list C _ _) as [events | err]; cbn; [| split; reflexivity].
  destruct (Z.eqb_spec (Z.of_nat (length events)) 0); cbn; [split; reflexivity |].
  destruct (Z.gtb_spec (Z.of_nat (length events)) 20); cbn;
    (split; [| reflexivity]);
    rewrite append_events_lines, !string_app_assoc; reflexivity.
Qed.

(** Claim C9. When the intent is a single [getEvents] and the gateway call
    made at dispatch returns no event, the text of the response, which is
    the text given to the notification sink, is exactly
    ["No events found for {date}."] with the intent's date. *)
Theorem no_events_found_text (C : Collaborators) (userID chatID : Z) (message : string)
        (w w1 : World) (aiResponse : AIResponse) :
  classify C userID message w = (Ok aiResponse, w1) ->
  Actions aiResponse = [] ->
  Action aiResponse = "getEvents" ->
  let w2 := dispatch_world C userID message aiResponse w1 in
  (calendar.GetEvents C (EventDate aiResponse) w2).1 = Ok [] ->
  (ai.executeAIAction C userID aiResponse w2).1.1
  = "No events found for " +:+ EventDate aiResponse +:+ "."
  /\ sink_calls (trace (ai.ProcessUserMessage C userID chatID message w).2)
     = sink_calls (trace w)
       ++ [(chatID, "No events found for " +:+ EventDate aiResponse +:+ ".")].
Proof.
  intros Hclass Hactions Haction w2 Hnone.
  destruct (executeAIAction_single_getEvents C userID aiResponse w2 Hactions Haction)
    as [Htext Htrace].
  rewrite Hnone in Htext. change (single_getEvents_text _ (Ok [])) with
    ("No events found for " +:+ EventDate aiResponse +:+ ".") in Htext.
  split; [exact Htext |].
  destruct (ProcessUserMessage_ok C userID chatID message w w1 aiResponse Hclass _ Htrace)
    as (Hsink & _).
  fold w2 in Hsink. rewrite Hsink, Htext. reflexivity.
Qed.

Lemma executeAIAction_missing_id (C : Collaborators) (userID : Z)
      (aiResponse : AIResponse) (w : World) :
  Actions aiResponse = [] ->
  EventID aiResponse = "" ->
  (Action aiResponse = "updtEvent"
   /\ (ai.executeAIAction C userID aiResponse w).1.1 = missing_id_text "update"
   \/ Action aiResponse = "delEvents"
      /\ (ai.executeAIAction C userID aiResponse w).1.1 = missing_id_text "delete"
   \/ Action aiResponse <> "updtEvent" /\ Action aiResponse <> "delEvents")
  /\ (Action aiResponse = "updtEvent" \/ Action aiResponse = "delEvents" ->
      trace (ai.executeAIAction C userID aiResponse w).2 = trace w).
Proof.
  intros Hactions Hid.
  unfold ai.executeAIAction. rewrite Hactions, Hid.
  change (Z.of_nat (length (@nil AIAction))) with 0.
  destruct (String.eqb_spec (Action aiResponse) "updtEvent") as [Hu | Hu].
  - rewrite Hu. unfold bind, ret, log_Printf. cbn. split; [left | intros _]; auto.
  - destruct (String.eqb_spec (Action aiResponse) "delEvents") as [Hd | Hd].
    + rewrite Hd. unfold bind, ret, log_Printf. cbn.
      split; [right; left | intros _]; auto.
    + split; [right; right; auto | intros [? | ?]; contradiction].
Qed.

(** Claim C5. When the intent is a single [updtEvent] or [delEvents] whose
    event id is empty, the run of [ProcessUserMessage] makes no call to the
    calendar gateway, and the text given to the notification sink is the
    instruction to use [getEvents] first. *)
Theorem missing_event_id_never_reaches_gateway (C : Collaborators) (userID chatID : Z)
        (message : string) (w w1 : World) (aiResponse : AIResponse) :
  classify C userID message w = (Ok aiResponse, w1) ->
  Actions aiResponse = [] ->
  Action aiResponse = "updtEvent" \/ Action aiResponse = "delEvents" ->
  EventID aiResponse = "" ->
  let final := ai.ProcessUserMessage C userID chatID message w in
  calendar_calls (trace final.2) = calendar_calls (trace w)
  /\ sink_calls (trace final.2)
     = sink_calls (trace w)
       ++ [(chatID,
            missing_id_text (if String.eqb (Action aiResponse) "updtEvent"
                             then "update" else "delete"))].
Proof.
  intros Hclass Hactions Hkind Hid final.
  set (w2 := dispatch_world C userID message aiResponse w1).
  destruct (executeAIAction_missing_id C userID aiResponse w2 Hactions Hid)
    as [Htext Htrace].
  specialize (Htrace Hkind).
  assert (Hl : trace (ai.executeAIAction C userID aiResponse w2).2 = trace w2 ++ [])
    by now rewrite app_nil_r.
  destruct (ProcessUserMessage_ok C userID chatID message w w1 aiResponse Hclass _ Hl)
    as (Hsink & Hcal & _).
  fold w2 in Hsink. fold final in Hsink, Hcal.
  split; [now rewrite Hcal, app_nil_r |].
  rewrite Hsink. do 3 f_equal.
  destruct Htext as [[Hu ->] | [[Hd ->] | [Hu Hd]]].
  - now rewrite Hu.
  - now rewrite Hd.
  - destruct Hkind; contradiction.
Qed.

(** The classification, when the model's first choice decodes as JSON. *)
Lemma classify_decoded (C : Collaborators) (userID : Z) (message : string) (w : World)
      (content : string) (more : list string) (raw : AIResponse) :
  let prompt := ai.userPrompt (database.GetUserContext userID 10 w).1 message in
  openai_CreateChatCompletion C (trace w ++ [CallNow; CallChatCompletion prompt]) prompt
  = Ok (content :: more) ->
  json_Unmarshal_AIResponse C content = Some raw ->
  (classify C userID message w).1 = Ok (with_default_date raw).
Proof.
  intros prompt Hreply Hdecode.
  unfold classify, bind at 1 2. unfold log_Printf at 1.
  rewrite GetUserContext_run. fold prompt.
  unfold prompt in Hreply. rewrite GetUserContext_run in Hreply. cbn [fst] in Hreply.
  unfold ai.ProcessMessage, bind, call, ret. cbn [fst snd trace db logs].
  rewrite <- app_assoc. cbn [app].
  change (shown (mkWorld (db w) (trace w) _) userID 10) with (shown w userID 10).
  rewrite Hreply, Hdecode. unfold with_default_date.
  destruct (String.eqb (Action raw) "getEvents" && String.eqb (EventDate raw) "");
    reflexivity.
Qed.

(** Claim C6. When the model's reply decodes to a single [getEvents]
    intent with an empty date, the one gateway call of the run is
    [GetEvents "today"]. Besides, [Service.GetEvents] itself asks the
    calendar about today when it is called with an empty date. *)
Theorem empty_date_defaults_to_today (C : Collaborators) (userID chatID : Z)
        (message : string) (w : World) (content : string) (more : list string)
        (raw : AIResponse) :
  let prompt := ai.userPrompt (database.GetUserContext userID 10 w).1 message in
  openai_CreateChatCompletion C (trace w ++ [CallNow; CallChatCompletion prompt]) prompt
  = Ok (content :: more) ->
  json_Unmarshal_AIResponse C content = Some raw ->
  Action raw = "getEvents" ->
  EventDate raw = "" ->
  Actions raw = [] ->
  calendar_calls (trace (ai.ProcessUserMessage C userID chatID message w).2)
  = calendar_calls (trace w) ++ [CallGetEvents "today"]
  /\ forall w', (calendar.GetEvents C "" w').1
                = calendar_list C (trace w' ++ [CallGetEvents ""]) "today".
Proof.
  intros prompt Hreply Hdecode Haction Hdate Hactions.
  split; [| reflexivity].
  pose proof (classify_decoded C userID message w content more raw Hreply Hdecode)
    as Hclass.
  destruct (classify C userID message w) as [r w1] eqn:Hrun. cbn [fst] in Hclass.
  subst r. set (aiResponse := with_default_date raw) in *.
  assert (Hai : Action aiResponse = "getEvents" /\ EventDate aiResponse = "today"
                /\ Actions aiResponse = []).
  { unfold aiResponse, with_default_date. rewrite Haction, Hdate. cbn. auto. }
  destruct Hai as (Ha & Hd & Hs).
  destruct (executeAIAction_single_getEvents C userID aiResponse
              (dispatch_world C userID message aiResponse w1) Hs Ha) as [_ Htrace].
  destruct (ProcessUserMessage_ok C userID chatID message w w1 aiResponse Hrun _ Htrace)
    as (_ & Hcal & _).
  rewrite Hcal, Hd. reflexivity.
Qed.

(** *** The dispatch of a list of actions *)

Lemma bind_run {A B : Type} (m : M A) (k : A -> M B) (w : World) :
  bind m k w = k (m w).1 (m w).2.
Proof. unfold bind. now destruct (m w). Qed.

Lemma actions_loop_run (C : Collaborators) (userID total : Z) (rest : list AIAction) :
  forall (i : Z) (response : string) (w : World),
    (ai.actions_loop C userID total i rest response w).1
    = response +:+ concat_strings (step_blocks C (trace w) rest)
    /\ trace (ai.actions_loop C userID total i rest response w).2
       = trace w ++ step_calls rest.
Proof.
  induction rest as [|action rest IH]; intros i response w.
  - cbn. now rewrite string_app_nil_r, app_nil_r.
  - cbn [ai.actions_loop step_blocks step_calls].
    rewrite bind_run, bind_run.
    match goal with
    | |- context [ai.actions_loop C userID total (i + 1) rest ?resp ?w1] =>
        destruct (IH (i + 1) resp w1) as [Htext Htrace];
        rewrite Htext, Htrace; clear Htext Htrace
    end.
    destruct (String.eqb (sub_Action action) "getEvents").
    + change (concat_strings (?b :: ?l)) with (b +:+ concat_strings l).
      rewrite !bind_run, !GetEvents_answer. unfold log_Printf.
      cbn [fst snd trace db logs].
      fold (gateway_answer C (trace w) (sub_EventDate action)).
      destruct (gateway_answer C (trace w) (sub_EventDate action)) as [events | err].
      * unfold getEvents_block.
        destruct (Z.eqb_spec (Z.of_nat (length events)) 0) as [Hz | Hz].
        -- cbn [ret fst snd trace].
           rewrite <- app_assoc, !string_app_assoc. split; reflexivity.
        -- cbv zeta. change (Z.to_nat 15) with 15%nat.
           destruct (Z.gtb_spec (Z.of_nat (length events)) 15);
             cbn [ret fst snd trace];
             rewrite append_events_lines, <- app_assoc, !string_app_assoc;
             split; reflexivity.
      * unfold bind. cbn [ret fst snd trace getEvents_block].
        rewrite <- app_assoc, !string_app_assoc. split; reflexivity.
    + change (concat_strings (?b :: ?l)) with (b +:+ concat_strings l).
      unfold log_Printf. cbn [ret fst snd trace].
      rewrite !string_app_assoc. split; reflexivity.
Qed.

Lemma log_trace (format : string) (args : list LogArg) (w : World) :
  trace (log_Printf format args w).2 = trace w.
Proof. reflexivity. Qed.

Lemma executeAIAction_multi (C : Collaborators) (userID : Z) (aiResponse : AIResponse)
      (w : World) :
  Actions aiResponse <> [] ->
  (ai.executeAIAction C userID aiResponse w).1.1
  = Message aiResponse +:+ nl +:+ nl
    +:+ concat_strings (step_blocks C (trace w) (Actions aiResponse))
  /\ trace (ai.executeAIAction C userID aiResponse w).2
     = trace w ++ step_calls (Actions aiResponse).
Proof.
  intros Hsome. unfold ai.executeAIAction.
  destruct (Z.gtb_spec (Z.of_nat (length (Actions aiResponse))) 0) as [_ | Hnone].
  - rewrite !bind_run.
    match goal with
    | |- context [ai.actions_loop C userID ?total 0 (Actions aiResponse) ?resp ?w1] =>
        destruct (actions_loop_run C userID total (Actions aiResponse) 0 resp w1)
          as [Htext Htrace]
    end.
    unfold ret. cbn [fst snd]. rewrite log_trace, Htext, Htrace, !log_trace.
    rewrite !string_app_assoc. split; reflexivity.
  - destruct (Actions aiResponse); [contradiction | cbn [length] in Hnone; lia].
Qed.

Lemma step_calls_app (l1 l2 : list AIAction) :
  step_calls (l1 ++ l2) = step_calls l1 ++ step_calls l2.
Proof.
  induction l1 as [|a l1 IH]; [reflexivity |]. cbn [app step_calls].
  destruct (String.eqb (sub_Action a) "getEvents"); cbn [app]; now rewrite IH.
Qed.

Lemma step_blocks_app (C : Collaborators) (l1 l2 : list AIAction) :
  forall t,
    step_blocks C t (l1 ++ l2)
    = step_blocks C t l1 ++ step_blocks C (t ++ step_calls l1) l2.
Proof.
  induction l1 as [|a l1 IH]; intros t.
  - cbn. now rewrite app_nil_r.
  - cbn [app step_blocks step_calls].
    destruct (String.eqb (sub_Action a) "getEvents"); cbn [app]; rewrite IH.
    + now rewrite <- app_assoc.
    + reflexivity.
Qed.

Lemma step_blocks_length (C : Collaborators) (actions : list AIAction) :
  forall t, length (step_blocks C t actions) = length actions.
Proof.
  induction actions as [|a actions IH]; intros t; [reflexivity |].
  cbn [step_blocks]. destruct (String.eqb (sub_Action a) "getEvents");
    cbn [length]; now rewrite IH.
Qed.

(** Claim C3. When the intent carries a non-empty list of actions, every
    step is executed in order whatever the earlier ones returned: each
    [getEvents] step calls the gateway, and the steps produce one result block
    each. The notification sink is called exactly once, with the top-level
    message, an empty line and the blocks in order. In particular three
    [getEvents] steps make three gateway calls and three blocks; the block of
    a step whose gateway call failed is the line
    ["Error getting events for {date}: {error}"]; and a step of any other
    kind contributes the line ["Unknown action: {kind}"] while the steps
    before and after it run as they would without it. *)
Theorem multi_action_runs_every_step (C : Collaborators) (userID chatID : Z)
        (message : string) (w w1 : World) (aiResponse : AIResponse) :
  classify C userID message w = (Ok aiResponse, w1) ->
  Actions aiResponse <> [] ->
  let t := trace (dispatch_world C userID message aiResponse w1) in
  let final := ai.ProcessUserMessage C userID chatID message w in
  let blocks := step_blocks C t (Actions aiResponse) in
  sink_calls (trace final.2)
  = sink_calls (trace w)
    ++ [(chatID, Message aiResponse +:+ nl +:+ nl +:+ concat_strings blocks)]
  /\ calendar_calls (trace final.2)
     = calendar_calls (trace w) ++ step_calls (Actions aiResponse)
  /\ length blocks = length (Actions aiResponse)
  /\ (forall a1 a2 a3,
        Actions aiResponse = [a1; a2; a3] ->
        sub_Action a1 = "getEvents" -> sub_Action a2 = "getEvents" ->
        sub_Action a3 = "getEvents" ->
        let d1 := sub_EventDate a1 in
        let d2 := sub_EventDate a2 in
        let d3 := sub_EventDate a3 in
        blocks = [getEvents_block d1 (gateway_answer C t d1);
                  getEvents_block d2 (gateway_answer C (t ++ [CallGetEvents d1]) d2);
                  getEvents_block d3
                    (gateway_answer C (t ++ [CallGetEvents d1; CallGetEvents d2]) d3)]
        /\ step_calls (Actions aiResponse)
           = [CallGetEvents d1; CallGetEvents d2; CallGetEvents d3])
  /\ (forall date err,
        getEvents_block date (Err err)
        = "Error getting events for " +:+ date +:+ ": " +:+ err +:+ nl)
  /\ (forall before a after,
        Actions aiResponse = before ++ a :: after ->
        sub_Action a <> "getEvents" ->
        blocks = step_blocks C t before
                 ++ ("Unknown action: " +:+ sub_Action a +:+ nl)
                 :: step_blocks C (t ++ step_calls before) after
        /\ step_calls (Actions aiResponse) = step_calls before ++ step_calls after).
Proof.
  intros Hclass Hsome t final blocks.
  destruct (executeAIAction_multi C userID aiResponse
              (dispatch_world C userID message aiResponse w1) Hsome) as [Htext Htrace].
  destruct (ProcessUserMessage_ok C userID chatID message w w1 aiResponse Hclass _ Htrace)
    as (Hsink & Hcal & _).
  rewrite Htext in Hsink.
  split; [exact Hsink | split; [exact Hcal | split; [apply step_blocks_length |]]].
  split; [| split].
  - intros a1 a2 a3 Hthree H1 H2 H3 d1 d2 d3. subst blocks. rewrite Hthree.
    cbn [step_blocks step_calls]. rewrite H1, H2, H3. cbn.
    rewrite <- app_assoc. split; reflexivity.
  - reflexivity.
  - intros before a after Hsplit Hkind. subst blocks. rewrite Hsplit.
    rewrite step_blocks_app, step_calls_app. cbn [step_blocks step_calls].
    destruct (String.eqb_spec (sub_Action a) "getEvents"); [contradiction |].
    split; reflexivity.
Qed.

(** *** Truncated listings *)

Lemma suffix_as_substring (pre suf : string) :
  substring (String.length pre) (String.length suf) (pre +:+ suf) = suf.
Proof.
  induction pre as [|c pre IH]; [apply substring_all | exact IH].
Qed.

(** A text whose last bytes differ from [suf] does not end with [suf]. *)
Lemma not_a_suffix (text suf : string) :
  substring (String.length text - String.length suf) (String.length suf) text <> suf ->
  ~ exists pre, text = pre +:+ suf.
Proof.
  intros Hdiff [pre ->]. apply Hdiff.
  rewrite string_length_app.
  replace (String.length pre + String.length suf - String.length suf)%nat
    with (String.length pre) by lia.
  apply suffix_as_substring.
Qed.

(** Claim C4, as stated, fails: with 25 events for the day the text given to
    the notification sink ends with the footer ["... and 5 more events. Use
    a more specific date range to see fewer events."], not with
    ["... and 5 more events."]. *)
Lemma footer_is_longer_than_claimed :
  sink_calls (trace (ai.ProcessUserMessage demo.C 7 70 "tuesday?" demo.fresh).2)
  = [(70, "Events for 2025-08-05 (showing first 20 of 25):" +:+ nl
          +:+ concat_strings (map event_line (take 20 demo.busy_day)) +:+ nl
          +:+ "... and 5 more events. Use a more specific date range to see fewer events.")]
  /\ ~ exists pre,
        sink_calls (trace (ai.ProcessUserMessage demo.C 7 70 "tuesday?" demo.fresh).2)
        = [(70, pre +:+ "... and 5 more events.")].
Proof.
  split; [vm_compute; reflexivity |].
  intros [pre Hpre].
  assert (Hsent : exists text,
             sink_calls (trace (ai.ProcessUserMessage demo.C 7 70 "tuesday?" demo.fresh).2)
             = [(70, text)]
             /\ substring (String.length text - 22) 22 text = "e to see fewer events.")
    by (eexists; split; vm_compute; reflexivity).
  destruct Hsent as (text & Htext & Hlast).
  rewrite Htext in Hpre. injection Hpre as Hpre.
  apply (not_a_suffix text "... and 5 more events."); [| now exists pre].
  change (String.length "... and 5 more events.") with 22%nat.
  rewrite Hlast. discriminate.
Qed.

(** Claim C4, amended. When the intent is a single [getEvents] and the
    gateway call made at dispatch returns more than 20 events, the text
    given to the notification sink is the header
    ["Events for {date} (showing first 20 of N):"], the lines of exactly the
    first 20 events, an empty line, and the footer ["... and N-20 more
    events. Use a more specific date range to see fewer events."]; with 25
    events the header says ["of 25"] and the footer starts ["... and 5 more
    events."]. A [getEvents] step of a list of actions that gets more than 15
    events appends the header ["Events for {date} (showing first 15 of N):"],
    the lines of the first 15 events, the line ["... and N-15 more events."]
    and an empty line. *)
Theorem long_listing_is_truncated (C : Collaborators) (userID chatID : Z)
        (message : string) (w w1 : World) (aiResponse : AIResponse)
        (events : list CalendarEvent) :
  classify C userID message w = (Ok aiResponse, w1) ->
  Actions aiResponse = [] ->
  Action aiResponse = "getEvents" ->
  let w2 := dispatch_world C userID message aiResponse w1 in
  (calendar.GetEvents C (EventDate aiResponse) w2).1 = Ok events ->
  Z.of_nat (length events) > 20 ->
  let shown_text :=
    "Events for " +:+ EventDate aiResponse +:+ " (showing first 20 of "
    +:+ fmt_d (Z.of_nat (length events)) +:+ "):" +:+ nl
    +:+ concat_strings (map event_line (take 20 events))
    +:+ nl +:+ "... and " +:+ fmt_d (Z.of_nat (length events) - 20)
    +:+ " more events. Use a more specific date range to see fewer events." in
  sink_calls (trace (ai.ProcessUserMessage C userID chatID message w).2)
  = sink_calls (trace w) ++ [(chatID, shown_text)]
  /\ (length events = 25%nat ->
      shown_text
      = "Events for " +:+ EventDate aiResponse +:+ " (showing first 20 of 25):" +:+ nl
        +:+ concat_strings (map event_line (take 20 events))
        +:+ nl +:+ "... and 5 more events."
        +:+ " Use a more specific date range to see fewer events.")
  /\ (forall total i action response w' many,
        sub_Action action = "getEvents" ->
        (calendar.GetEvents C (sub_EventDate action) w').1 = Ok many ->
        Z.of_nat (length many) > 15 ->
        (ai.actions_loop C userID total i [action] response w').1
        = response +:+ "Events for " +:+ sub_EventDate action +:+ " (showing first 15 of "
          +:+ fmt_d (Z.of_nat (length many)) +:+ "):" +:+ nl
          +:+ concat_strings (map event_line (take 15 many))
          +:+ "... and " +:+ fmt_d (Z.of_nat (length many) - 15) +:+ " more events." +:+ nl
          +:+ nl).
Proof.
  intros Hclass Hactions Haction w2 Hevents Hmany shown_text.
  destruct (executeAIAction_single_getEvents C userID aiResponse w2 Hactions Haction)
    as [Htext Htrace].
  rewrite Hevents in Htext. unfold single_getEvents_text in Htext.
  destruct (Z.eqb_spec (Z.of_nat (length events)) 0) as [? | _]; [lia |].
  destruct (Z.gtb_spec (Z.of_nat (length events)) 20) as [_ | ?]; [| lia].
  destruct (ProcessUserMessage_ok C userID chatID message w w1 aiResponse Hclass _ Htrace)
    as (Hsink & _).
  fold w2 in Hsink. rewrite Htext in Hsink.
  split; [exact Hsink | split].
  - intros H25. subst shown_text. rewrite H25.
    change (fmt_d (Z.of_nat 25)) with "25". change (fmt_d (Z.of_nat 25 - 20)) with "5".
    reflexivity.
  - intros total i action response w' many Hkind Hanswer Hlong.
    destruct (actions_loop_run C userID total [action] i response w') as [Hrun _].
    rewrite Hrun. cbn [step_blocks]. rewrite Hkind.
    change (String.eqb "getEvents" "getEvents") with true. cbn iota.
    rewrite GetEvents_answer in Hanswer. cbn [fst] in Hanswer.
    unfold gateway_answer. rewrite Hanswer. unfold getEvents_block.
    destruct (Z.eqb_spec (Z.of_nat (length many)) 0) as [? | _]; [lia |].
    destruct (Z.gtb_spec (Z.of_nat (length many)) 15) as [_ | ?]; [| lia].
    change (concat_strings [?b]) with (b +:+ "").
    rewrite !string_app_assoc, string_app_nil_r. reflexivity.
Qed.

(** * The theorems on concrete runs *)

(** The embedding, evaluated. *)

Example Format_15_04_utc : Format_15_04 (mkTime 1754384400 0) = "09:00".
Proof. reflexivity. Qed.

Example Format_15_04_zone : Format_15_04 (mkTime 1754384400 (-18000)) = "04:00".
Proof. reflexivity. Qed.

Example Format_15_04_zero_time : Format_15_04 (mkTime (-62135596800) 0) = "00:00".
Proof. reflexivity. Qed.

Example LastIndex_found : strings_LastIndex_nl ("ab" +:+ nl +:+ "cd" +:+ nl +:+ "e") = 5.
Proof. reflexivity. Qed.

Example LastIndex_missing : strings_LastIndex_nl "abcde" = -1.
Proof. reflexivity. Qed.

(** The long text is cut after the 57th line, the last newline of its
    first 4000 bytes. *)
Example long_text_parts :
  map len (telegram.split_loop demo.long_text 0 []) = [3990; 1050].
Proof. vm_compute. reflexivity. Qed.

(** A text without a newline is cut at 4000 bytes. *)
Example unbroken_text_parts :
  map len (telegram.split_loop
             (string_of_list_ascii (repeat (ascii_of_nat 97) (90 * 100))) 0 [])
  = [4000; 4000; 1000].
Proof. vm_compute. reflexivity. Qed.

(** After 51 interactions the first one is gone. *)
Example fifty_one_stored :
  let kept := stored (run_adds demo.C demo.fifty_one demo.fresh) 7 in
  length kept = 50%nat
  /\ map i_UserMessage (take 2 kept) = ["message 2"; "message 3"]
  /\ map i_UserMessage (drop 49 kept) = ["message 51"].
Proof. vm_compute. auto. Qed.

Example context_of_last_two :
  (database.GetUserContext 7 2 (run_adds demo.C demo.fifty_one demo.fresh)).1
  = "User: message 50" +:+ nl +:+ "AI: reply" +:+ nl +:+ nl
    +:+ "User: message 51" +:+ nl +:+ "AI: reply" +:+ nl +:+ nl.
Proof. vm_compute. reflexivity. Qed.

Example context_of_a_stranger :
  (database.GetUserContext 8 0 (run_adds demo.C demo.fifty_one demo.fresh)).1 = "".
Proof. vm_compute. reflexivity. Qed.

(** The empty store is within the window. *)
Lemma fresh_within_window : within_window demo.fresh.
Proof. intros userID. unfold stored, at_user. cbn. rewrite lookup_empty. cbn. lia. Defined.

(** After 51 interactions of user 7 in a fresh store, nobody has more than
    50 stored, and a 52nd is appended to the last 50. *)
Lemma store_keeps_last_50_witness :
  let w := run_adds demo.C demo.fifty_one demo.fresh in
  within_window w
  /\ forall (userID : Z) (um ar act : string),
       let new := mkInteraction userID (time_Now demo.C (trace w ++ [CallNow])) um ar act in
       let w' := (database.AddInteraction demo.C userID um ar act w).2 in
       stored w' userID
       = drop (length (stored w userID ++ [new]) - 50) (stored w userID ++ [new])
       /\ (length (stored w userID) = 50%nat ->
           stored w' userID = drop 1 (stored w userID) ++ [new])
       /\ (forall other, other <> userID -> stored w' other = stored w other).
Proof.
  exact (store_keeps_last_50 demo.C demo.fifty_one demo.fresh fresh_within_window).
Defined.


(** Nothing is planned on Sunday. *)
Lemma no_events_found_text_witness :
  sink_calls (trace (ai.ProcessUserMessage demo.C 7 70 "sunday?" demo.fresh).2)
  = [(70, "No events found for 2025-08-10.")].
Proof.
  exact (proj2 (no_events_found_text demo.C 7 70 "sunday?" demo.fresh _ _
                  eq_refl eq_refl eq_refl eq_refl)).
Defined.

(** A cancellation without an event id. *)
Lemma missing_event_id_never_reaches_gateway_witness :
  calendar_calls (trace (ai.ProcessUserMessage demo.C 7 70 "cancel it" demo.fresh).2) = []
  /\ sink_calls (trace (ai.ProcessUserMessage demo.C 7 70 "cancel it" demo.fresh).2)
     = [(70, "Please specify an event ID to delete. Use 'getEvents' first to see available events.")].
Proof.
  exact (missing_event_id_never_reaches_gateway demo.C 7 70 "cancel it" demo.fresh _ _
           eq_refl eq_refl (or_intror eq_refl) eq_refl).
Defined.

(** The model leaves the date of a [getEvents] out. *)
Lemma empty_date_defaults_to_today_witness :
  calendar_calls (trace (ai.ProcessUserMessage demo.C 7 70 "today?" demo.fresh).2)
  = [CallGetEvents "today"].
Proof.
  exact (proj1 (empty_date_defaults_to_today demo.C 7 70 "today?" demo.fresh
                  "today?" [] (demo.getEvents_for "Checking today" "")
                  eq_refl eq_refl eq_refl eq_refl eq_refl)).
Defined.

(** Three [getEvents] steps, the second of which fails. *)
Lemma multi_action_runs_every_step_witness :
  sink_calls (trace (ai.ProcessUserMessage demo.C 7 70 "week?" demo.fresh).2)
  = [(70, "Here is your week" +:+ nl +:+ nl
          +:+ getEvents_block "2025-08-05" (Ok demo.busy_day)
          +:+ "Error getting events for next-tuesday: invalid date format: cannot parse next-tuesday"
          +:+ nl
          +:+ "No events found for 2025-08-10." +:+ nl)]
  /\ calendar_calls (trace (ai.ProcessUserMessage demo.C 7 70 "week?" demo.fresh).2)
     = [CallGetEvents "2025-08-05"; CallGetEvents "next-tuesday";
        CallGetEvents "2025-08-10"].
Proof.
  assert (Hsome : Actions demo.week <> []) by discriminate.
  destruct (multi_action_runs_every_step demo.C 7 70 "week?" demo.fresh _ _
              eq_refl Hsome) as (Hsink & Hcal & _).
  split; [exact Hsink | exact Hcal].
Defined.

(** Twenty-five meetings on Tuesday. *)
Lemma long_listing_is_truncated_witness :
  sink_calls (trace (ai.ProcessUserMessage demo.C 7 70 "tuesday?" demo.fresh).2)
  = [(70, "Events for 2025-08-05 (showing first 20 of 25):" +:+ nl
          +:+ concat_strings (map event_line (take 20 demo.busy_day))
          +:+ nl +:+ "... and 5 more events."
          +:+ " Use a more specific date range to see fewer events.")].
Proof.
  assert (Hmany : Z.of_nat (length demo.busy_day) > 20) by reflexivity.
  exact (proj1 (long_listing_is_truncated demo.C 7 70 "tuesday?" demo.fresh _ _
                  demo.busy_day eq_refl eq_refl eq_refl eq_refl Hmany)).
Defined.

(** The context of the last two of 51 interactions, of all of them, and of
    a user who has none. *)
Lemma GetUserContext_shows_last_n_witness :
  let w := run_adds demo.C demo.fifty_one demo.fresh in
  (database.GetUserContext 7 2 w).1
  = concat_strings (map format_interaction (drop 48 (stored w 7)))
  /\ (database.GetUserContext 7 0 w).1
     = concat_strings (map format_interaction (stored w 7))
  /\ (database.GetUserContext 8 2 w).1 = "".
Proof.
  intros w.
  pose proof (f_equal fst (proj1 (GetUserContext_shows_last_n 7 2 w))) as Hlast.
  pose proof (f_equal fst (proj1 (GetUserContext_shows_last_n 7 0 w))) as Hall.
  assert (Hnone : stored w 8 = []) by (vm_compute; reflexivity).
  pose proof (f_equal fst (proj2 (proj2 (GetUserContext_shows_last_n 8 2 w)) Hnone))
    as Hempty.
  split; [| split].
  - rewrite Hlast. vm_compute. reflexivity.
  - rewrite Hall. reflexivity.
  - exact Hempty.
Defined.

(** * More of the packages *)

(** ** What reaches the conversation store *)

Lemma keeps_ret {A : Type} (a : A) : keeps_store (ret a).
Proof. intros w. reflexivity. Qed.

Lemma keeps_bind {A B : Type} (m : M A) (k : A -> M B) :
  keeps_store m -> (forall a, keeps_store (k a)) -> keeps_store (bind m k).
Proof. intros Hm Hk w. rewrite bind_run, Hk, Hm. reflexivity. Qed.

Lemma keeps_log (format : string) (args : list LogArg) :
  keeps_store (log_Printf format args).
Proof. intros w. reflexivity. Qed.

Lemma keeps_call {A : Type} (c : Call) (answer : list Call -> A) :
  keeps_store (call c answer).
Proof. intros w. reflexivity. Qed.

Lemma keeps_GetUserContext (userID n : Z) :
  keeps_store (database.GetUserContext userID n).
Proof. intros w. now rewrite GetUserContext_run. Qed.

(** Decompose a computation that does not write to the store. *)
Ltac keeps_step :=
  first
    [ apply keeps_ret
    | apply keeps_log
    | apply keeps_call
    | apply keeps_GetUserContext
    | apply keeps_bind; [| intros ?]
    | match goal with
      | |- keeps_store (if ?b then _ else _) => destruct b
      | |- keeps_store (match ?x with _ => _ end) => destruct x
      | |- keeps_store (let _ := _ in _) => cbv zeta
      end ].

Lemma keeps_send_loop (C : Collaborators) (chatID total : Z) (rest : list string) :
  forall i, keeps_store (telegram.send_loop C chatID total i rest).
Proof.
  induction rest as [|m rest IH]; intros i; cbn [telegram.send_loop].
  - apply keeps_ret.
  - unfold enter. repeat keeps_step. apply IH.
Qed.

Lemma keeps_SendMessage (C : Collaborators) (chatID : Z) (text : string) :
  keeps_store (telegram.SendMessage C chatID text).
Proof.
  unfold telegram.SendMessage, telegram.sendLongMessage, enter.
  repeat keeps_step. apply keeps_send_loop.
Qed.

Lemma keeps_actions_loop (C : Collaborators) (userID total : Z) (rest : list AIAction) :
  forall i response, keeps_store (ai.actions_loop C userID total i rest response).
Proof.
  induction rest as [|action rest IH]; intros i response; cbn [ai.actions_loop].
  - apply keeps_ret.
  - unfold calendar.GetEvents.
    apply keeps_bind; [apply keeps_log | intros _].
    apply keeps_bind; [repeat keeps_step | intros ?; apply IH].
Qed.

Lemma keeps_executeAIAction (C : Collaborators) (userID : Z) (aiResponse : AIResponse) :
  keeps_store (ai.executeAIAction C userID aiResponse).
Proof.
  unfold ai.executeAIAction.
  apply keeps_bind; [apply keeps_log | intros _].
  apply keeps_bind; [apply keeps_log | intros _].
  apply keeps_bind; [| intros ?; repeat keeps_step].
  destruct (Z.of_nat (length (Actions aiResponse)) >? 0).
  - apply keeps_bind; [apply keeps_log | intros _]. apply keeps_actions_loop.
  - unfold ai.single_getEvents, calendar.GetEvents, calendar.CreateEvent,
      calendar.DeleteEvent, calendar.UpdateEvent.
    repeat keeps_step.
Qed.

Lemma keeps_classify (C : Collaborators) (userID : Z) (message : string) :
  keeps_store (classify C userID message).
Proof. unfold classify, ai.ProcessMessage. repeat keeps_step. Qed.

Lemma keeps_respond (C : Collaborators) (userID chatID : Z) (response : string) :
  keeps_store (respond C userID chatID response).
Proof. unfold respond. repeat (first [apply keeps_SendMessage | keeps_step]). Qed.

Lemma keeps_apologise (C : Collaborators) (userID chatID : Z) (err : error) :
  keeps_store (apologise C userID chatID err).
Proof. unfold apologise. repeat (first [apply keeps_SendMessage | keeps_step]). Qed.

(** What [persist] leaves in the store. *)
Lemma persist_stored (C : Collaborators) (userID : Z) (message : string)
      (aiResponse : AIResponse) (w1 : World) :
  let new := mkInteraction userID (time_Now C (trace w1 ++ [CallNow])) message
                           (Message aiResponse) (Action aiResponse) in
  stored (dispatch_world C userID message aiResponse w1) userID
  = drop (length (stored w1 userID ++ [new]) - 50) (stored w1 userID ++ [new])
  /\ forall other, other <> userID ->
       stored (dispatch_world C userID message aiResponse w1) other = stored w1 other.
Proof.
  intros new.
  set (wl := (log_Printf "About to save interaction to database for user %d"
                [LInt userID]
                (log_Printf "AI response for user %d: Action=%s, Message=%s, EventDate='%s'"
                   [LInt userID; LStr (Action aiResponse); LStr (Message aiResponse);
                    LStr (EventDate aiResponse)] w1).2).2).
  assert (Hdb : db (dispatch_world C userID message aiResponse w1)
                = db (database.AddInteraction C userID message (Message aiResponse)
                        (Action aiResponse) wl).2).
  { unfold dispatch_world, persist. rewrite !bind_run. fold wl.
    now destruct (database.AddInteraction C userID message _ _ wl).1. }
  unfold stored at 1. rewrite Hdb. split.
  - exact (AddInteraction_stored_same C userID message (Message aiResponse)
             (Action aiResponse) wl).
  - intros other Hother. unfold stored at 1. rewrite Hdb.
    exact (AddInteraction_stored_other C userID other message (Message aiResponse)
             (Action aiResponse) wl Hother).
Qed.

(** X1. A run of [ProcessUserMessage] touches the store in one way only.
    When the classification fails the store is left as it was. When it
    succeeds the interaction (the user's text, the intent's message and
    action, the time of the clock) is appended to the user's entries, of
    which the last 50 are kept, whatever the save, the calendar and the send
    do afterwards; no other user's entries change. *)
Theorem run_stores_one_interaction (C : Collaborators) (userID chatID : Z)
        (message : string) (w : World) :
  let final := (ai.ProcessUserMessage C userID chatID message w).2 in
  match classify C userID message w with
  | (Err _, _) => db final = db w
  | (Ok aiResponse, w1) =>
      let new := mkInteraction userID (time_Now C (trace w1 ++ [CallNow])) message
                               (Message aiResponse) (Action aiResponse) in
      stored final userID
      = drop (length (stored w userID ++ [new]) - 50) (stored w userID ++ [new])
      /\ forall other, other <> userID -> stored final other = stored w other
  end.
Proof.
  intros final. unfold final. rewrite ProcessUserMessage_stages.
  pose proof (keeps_classify C userID message w) as Hclass.
  destruct (classify C userID message w) as [[aiResponse | err] w1]; cbn [snd] in Hclass.
  - cbv zeta.
    destruct (persist_stored C userID message aiResponse w1) as [Hsame Hother].
    assert (Hdb : db (respond C userID chatID
                        (ai.executeAIAction C userID aiResponse
                           (dispatch_world C userID message aiResponse w1)).1.1
                        (ai.executeAIAction C userID aiResponse
                           (dispatch_world C userID message aiResponse w1)).2).2
                  = db (dispatch_world C userID message aiResponse w1))
      by now rewrite keeps_respond, keeps_executeAIAction.
    unfold stored in *. rewrite Hdb, <- Hclass. split; [exact Hsame | exact Hother].
  - now rewrite keeps_apologise.
Qed.

(** [saveInteractions], by what the encoder and the file system answer. *)
Lemma saveInteractions_run (C : Collaborators) (w : World) :
  let path := filePath (db w) in
  match json_MarshalIndent C (interactions (db w)) with
  | Err e =>
      database.saveInteractions C w = (Some ("failed to marshal interactions: " +:+ e), w)
  | Ok data =>
      database.saveInteractions C w
      = (match os_WriteFile C (trace w ++ [CallWriteFile path data]) path data with
         | Some e => Some ("failed to write interactions file: " +:+ e)
         | None => None
         end,
         mkWorld (db w) (trace w ++ [CallWriteFile path data]) (logs w))
  end.
Proof.
  unfold database.saveInteractions, bind, get_interactions, get_filePath, call, ret.
  destruct (json_MarshalIndent C (interactions (db w))) as [data | e];
    [| now destruct w].
  cbn [fst snd trace db logs]. now destruct (os_WriteFile C _ _ _).
Qed.

(** [AddInteraction] ends with the save, in a world that has the new table
    and one more reading of the clock. *)
Lemma AddInteraction_ends_with_save (C : Collaborators) (userID : Z) (um ar act : string)
      (w : World) :
  exists w',
    database.AddInteraction C userID um ar act w = database.saveInteractions C w'
    /\ trace w' = trace w ++ [CallNow]
    /\ filePath (db w') = filePath (db w).
Proof.
  unfold database.AddInteraction. rewrite !bind_run.
  eexists. split; [reflexivity | split; reflexivity].
Qed.

(** X2. [AddInteraction] appends before it saves. The table it leaves in
    memory is the old one with the new interaction (the user, the time of
    the clock, the two texts and the action) appended to the user's entries,
    of which the last 50 are kept; what it hands to [os.WriteFile], at the
    path of the database, is the encoding of that table, the new interaction
    included. It returns an error exactly when the encoding or the write
    fails, and the table in memory is the new one in either case; when the
    encoding fails nothing is written. *)
Theorem AddInteraction_saves_the_new_table (C : Collaborators) (userID : Z)
        (um ar act : string) (w : World) :
  let run := database.AddInteraction C userID um ar act w in
  let path := filePath (db w) in
  let new := mkInteraction userID (time_Now C (trace w ++ [CallNow])) um ar act in
  let added := stored w userID ++ [new] in
  let table := <[userID := drop (length added - 50) added]> (interactions (db w)) in
  interactions (db run.2) = table
  /\ last (stored run.2 userID) = Some new
  /\ filePath (db run.2) = path
  /\ match json_MarshalIndent C table with
     | Err e =>
         run.1 = Some ("failed to marshal interactions: " +:+ e)
         /\ trace run.2 = trace w ++ [CallNow]
     | Ok data =>
         trace run.2 = trace w ++ [CallNow; CallWriteFile path data]
         /\ run.1 = match os_WriteFile C (trace w ++ [CallNow; CallWriteFile path data])
                                       path data with
                    | Some e => Some ("failed to write interactions file: " +:+ e)
                    | None => None
                    end
     end.
Proof.
  intros run path new added table.
  pose proof (AddInteraction_table C userID um ar act w) as Htable.
  cbv zeta in Htable. fold new added table run in Htable.
  split; [exact Htable |]. split.
  { unfold stored, at_user. rewrite Htable. unfold table.
    rewrite lookup_insert_eq. cbn [from_option id default]. unfold added.
    rewrite length_app. cbn [length]. rewrite drop_app_le by lia. apply last_snoc. }
  rewrite <- Htable. clear Htable. subst run.
  destruct (AddInteraction_ends_with_save C userID um ar act w)
    as (w' & -> & Htrace & Hpath).
  pose proof (saveInteractions_run C w') as Hsave. cbv zeta in Hsave.
  destruct (json_MarshalIndent C (interactions (db w'))) as [data | e] eqn:Hdata;
    rewrite Hsave; cbn [fst snd db]; rewrite ?Hdata, ?Htrace, ?Hpath, <- ?app_assoc;
    split; try split; reflexivity.
Qed.

(** ** What [SendMessage] gives the Telegram client *)

(** The parts of a long text as the client gets them. *)
Lemma sendLongMessage_sends (C : Collaborators) (chatID : Z) (text : string) (w : World) :
  exists k : nat,
    bot_sends (trace (telegram.sendLongMessage C chatID text w).2)
    = bot_sends (trace w)
      ++ map (pair chatID) (take k (with_markers (telegram.split_loop text 0 []))).
Proof.
  unfold telegram.sendLongMessage. set (parts := telegram.split_loop text 0 []).
  rewrite bind_run.
  destruct (send_loop_sends C chatID (Z.of_nat (length parts)) parts 0 w)
    as (k & Htrace & _).
  rewrite marked_with_markers in Htrace by lia.
  exists k. destruct (telegram.send_loop C chatID _ 0 parts w) as [[e |] w2];
    cbn [fst snd] in *; run_go; exact Htrace.
Qed.

(** A chunk with the continuation marker is still within the limit. *)
Lemma with_markers_within_limit (parts : list string) :
  Forall is_chunk parts ->
  Forall (fun part => 0 < len part <= 4096) (with_markers parts).
Proof.
  intros Hall. unfold with_markers. apply Forall_app. split.
  - apply Forall_map, Forall_take.
    eapply Forall_impl; [exact Hall |]. intros part [Hpos Hmax].
    unfold is_chunk, telegram.maxLength, len in *.
    rewrite string_length_app.
    change (String.length telegram.continued) with 24%nat. lia.
  - apply Forall_drop. eapply Forall_impl; [exact Hall |].
    unfold is_chunk, telegram.maxLength. intros part. cbn beta. lia.
Qed.

(** X3. Whatever the text, no call of [bot.Send] made by [SendMessage]
    carries more than 4096 bytes, and every one goes to the chat asked for.
    A text of at most 4096 bytes is sent whole, in one call and without a
    pause, and a failure of that call is returned behind the prefix
    ["failed to send message: "]; a longer text never reaches the client in
    one piece, and none of its pieces is empty. *)
Theorem SendMessage_respects_the_limit (C : Collaborators) (chatID : Z) (text : string)
        (w : World) :
  let run := telegram.SendMessage C chatID text w in
  (exists sent,
      bot_sends (trace run.2) = bot_sends (trace w) ++ map (pair chatID) sent
      /\ Forall (fun part => len part <= 4096) sent
      /\ (len text > 4096 -> Forall (fun part => 0 < len part) sent))
  /\ (len text <= 4096 ->
      let t := trace w ++ [CallSendMessage chatID text; CallBotSend chatID text] in
      trace run.2 = t
      /\ run.1 = match tgbot_Send C t chatID text with
                 | Some e => Some ("failed to send message: " +:+ e)
                 | None => None
                 end).
Proof.
  intros run. subst run. unfold telegram.SendMessage.
  destruct (Z.gtb_spec (len text) 4096) as [Hlong | Hshort].
  - split; [| lia].
    rewrite !bind_run.
    match goal with
    | |- context [telegram.sendLongMessage C chatID text ?w1] =>
        destruct (sendLongMessage_sends C chatID text w1) as (k & Htrace)
    end.
    exists (take k (with_markers (telegram.split_loop text 0 []))).
    destruct (split_loop_from_start text) as [_ Hall].
    apply with_markers_within_limit in Hall.
    apply Forall_take with (n := k) in Hall.
    split; [| split].
    + rewrite Htrace. run_go. unfold bot_sends. rewrite omap_app. cbn [omap].
      now rewrite app_nil_r.
    + eapply Forall_impl; [exact Hall |]. cbn beta. lia.
    + intros _. eapply Forall_impl; [exact Hall |]. cbn beta. lia.
  - split.
    + exists [text]. run_go.
      destruct (tgbot_Send C _ chatID text); cbn [fst snd trace];
        (split; [| split; [constructor; [lia | constructor] | lia]]);
        unfold bot_sends; rewrite <- app_assoc, omap_app; reflexivity.
    + intros _. run_go. rewrite <- app_assoc.
      destruct (tgbot_Send C _ chatID text); cbn [fst snd trace]; split; reflexivity.
Qed.

(** ** The branches of the dispatch that write to the calendar *)

(** The single [makeEvent] branch: its text and its one call. *)
Lemma executeAIAction_makeEvent (C : Collaborators) (userID : Z) (aiResponse : AIResponse)
      (w : World) :
  Actions aiResponse = [] ->
  Action aiResponse = "makeEvent" ->
  let c := CallCreateEvent (EventTitle aiResponse) (EventDate aiResponse)
                           (EventTime aiResponse) (EventDesc aiResponse)
                           (EventLoc aiResponse) in
  (ai.executeAIAction C userID aiResponse w).1.1
  = match calendar_insert C (trace w ++ [c]) (EventTitle aiResponse)
                          (EventDate aiResponse) (EventTime aiResponse)
                          (EventDesc aiResponse) (EventLoc aiResponse) with
    | Some e => "Error creating event: " +:+ e
    | None => "Event '" +:+ EventTitle aiResponse +:+ "' created successfully for "
              +:+ EventDate aiResponse +:+ " at " +:+ EventTime aiResponse
    end
  /\ trace (ai.executeAIAction C userID aiResponse w).2 = trace w ++ [c].
Proof.
  intros Hactions Haction c. subst c.
  unfold ai.executeAIAction. rewrite Hactions, Haction.
  change (Z.of_nat (length (@nil AIAction))) with 0.
  unfold calendar.CreateEvent. run_go. cbn [Z.gtb Z.compare String.eqb Ascii.eqb Bool.eqb].
  run_go. destruct (calendar_insert C _ _ _ _ _ _); run_go; split; reflexivity.
Qed.

(** X4. A single [makeEvent] intent always reaches the calendar: the run
    makes exactly one gateway call, [CreateEvent] with the five fields of the
    intent as the model gave them (none is checked, an empty title or date
    included), and the user is told the outcome: the confirmation with title,
    date and time, or the gateway's error behind ["Error creating event: "]. *)
Theorem makeEvent_creates_one_event (C : Collaborators) (userID chatID : Z)
        (message : string) (w w1 : World) (aiResponse : AIResponse) :
  classify C userID message w = (Ok aiResponse, w1) ->
  Actions aiResponse = [] ->
  Action aiResponse = "makeEvent" ->
  let w2 := dispatch_world C userID message aiResponse w1 in
  let c := CallCreateEvent (EventTitle aiResponse) (EventDate aiResponse)
                           (EventTime aiResponse) (EventDesc aiResponse)
                           (EventLoc aiResponse) in
  let final := ai.ProcessUserMessage C userID chatID message w in
  calendar_calls (trace final.2) = calendar_calls (trace w) ++ [c]
  /\ sink_calls (trace final.2)
     = sink_calls (trace w)
       ++ [(chatID,
            match calendar_insert C (trace w2 ++ [c]) (EventTitle aiResponse)
                                  (EventDate aiResponse) (EventTime aiResponse)
                                  (EventDesc aiResponse) (EventLoc aiResponse) with
            | Some e => "Error creating event: " +:+ e
            | None => "Event '" +:+ EventTitle aiResponse
                      +:+ "' created successfully for " +:+ EventDate aiResponse
                      +:+ " at " +:+ EventTime aiResponse
            end)].
Proof.
  intros Hclass Hactions Haction w2 c final.
  destruct (executeAIAction_makeEvent C userID aiResponse w2 Hactions Haction)
    as [Htext Htrace].
  destruct (ProcessUserMessage_ok C userID chatID message w w1 aiResponse Hclass _ Htrace)
    as (Hsink & Hcal & _).
  fold w2 in Hsink. fold final in Hsink, Hcal.
  split; [exact Hcal |]. rewrite Hsink, Htext. reflexivity.
Qed.

(** The single [delEvents] branch when the intent names an event. *)
Lemma executeAIAction_delEvents (C : Collaborators) (userID : Z) (aiResponse : AIResponse)
      (w : World) :
  Actions aiResponse = [] ->
  Action aiResponse = "delEvents" ->
  EventID aiResponse <> "" ->
  let c := CallDeleteEvent (EventID aiResponse) in
  (ai.executeAIAction C userID aiResponse w).1.1
  = match calendar_delete C (trace w ++ [c]) (EventID aiResponse) with
    | Some e => "Error deleting event: " +:+ e
    | None => "Event deleted successfully."
    end
  /\ trace (ai.executeAIAction C userID aiResponse w).2 = trace w ++ [c].
Proof.
  intros Hactions Haction Hid%String.eqb_neq c. subst c.
  unfold ai.executeAIAction. rewrite Hactions, Haction, Hid.
  change (Z.of_nat (length (@nil AIAction))) with 0.
  unfold calendar.DeleteEvent. run_go. cbn [Z.gtb Z.compare String.eqb Ascii.eqb Bool.eqb].
  run_go. destruct (calendar_delete C _ _); run_go; split; reflexivity.
Qed.

(** The single [updtEvent] branch when the intent names an event. *)
Lemma executeAIAction_updtEvent (C : Collaborators) (userID : Z) (aiResponse : AIResponse)
      (w : World) :
  Actions aiResponse = [] ->
  Action aiResponse = "updtEvent" ->
  EventID aiResponse <> "" ->
  let c := CallUpdateEvent (EventID aiResponse) (EventTitle aiResponse)
                           (EventDate aiResponse) (EventTime aiResponse)
                           (EventDesc aiResponse) (EventLoc aiResponse) in
  (ai.executeAIAction C userID aiResponse w).1.1
  = match calendar_update C (trace w ++ [c]) (EventID aiResponse) (EventTitle aiResponse)
                          (EventDate aiResponse) (EventTime aiResponse)
                          (EventDesc aiResponse) (EventLoc aiResponse) with
    | Some e => "Error updating event: " +:+ e
    | None => "Event updated successfully."
    end
  /\ trace (ai.executeAIAction C userID aiResponse w).2 = trace w ++ [c].
Proof.
  intros Hactions Haction Hid%String.eqb_neq c. subst c.
  unfold ai.executeAIAction. rewrite Hactions, Haction, Hid.
  change (Z.of_nat (length (@nil AIAction))) with 0.
  unfold calendar.UpdateEvent. run_go. cbn [Z.gtb Z.compare String.eqb Ascii.eqb Bool.eqb].
  run_go. destruct (calendar_update C _ _ _ _ _ _ _); run_go; split; reflexivity.
Qed.

(** X5. A single [delEvents] or [updtEvent] intent that names an event
    makes exactly one gateway call, [DeleteEvent] with the id or
    [UpdateEvent] with the id and the five fields of the intent, and the
    user is told the outcome: ["Event deleted successfully."] or
    ["Event updated successfully."], or the gateway's error behind
    ["Error deleting event: "] or ["Error updating event: "]. *)
Theorem named_event_is_deleted_or_updated (C : Collaborators) (userID chatID : Z)
        (message : string) (w w1 : World) (aiResponse : AIResponse) :
  classify C userID message w = (Ok aiResponse, w1) ->
  Actions aiResponse = [] ->
  EventID aiResponse <> "" ->
  let w2 := dispatch_world C userID message aiResponse w1 in
  let final := ai.ProcessUserMessage C userID chatID message w in
  (Action aiResponse = "delEvents" ->
   let c := CallDeleteEvent (EventID aiResponse) in
   calendar_calls (trace final.2) = calendar_calls (trace w) ++ [c]
   /\ sink_calls (trace final.2)
      = sink_calls (trace w)
        ++ [(chatID,
             match calendar_delete C (trace w2 ++ [c]) (EventID aiResponse) with
             | Some e => "Error deleting event: " +:+ e
             | None => "Event deleted successfully."
             end)])
  /\ (Action aiResponse = "updtEvent" ->
      let c := CallUpdateEvent (EventID aiResponse) (EventTitle aiResponse)
                               (EventDate aiResponse) (EventTime aiResponse)
                               (EventDesc aiResponse) (EventLoc aiResponse) in
      calendar_calls (trace final.2) = calendar_calls (trace w) ++ [c]
      /\ sink_calls (trace final.2)
         = sink_calls (trace w)
           ++ [(chatID,
                match calendar_update C (trace w2 ++ [c]) (EventID aiResponse)
                                      (EventTitle aiResponse) (EventDate aiResponse)
                                      (EventTime aiResponse) (EventDesc aiResponse)
                                      (EventLoc aiResponse) with
                | Some e => "Error updating event: " +:+ e
                | None => "Event updated successfully."
                end)]).
Proof.
  intros Hclass Hactions Hid w2 final. split; intros Haction c.
  - destruct (executeAIAction_delEvents C userID aiResponse w2 Hactions Haction Hid)
      as [Htext Htrace].
    destruct (ProcessUserMessage_ok C userID chatID message w w1 aiResponse Hclass _ Htrace)
      as (Hsink & Hcal & _).
    fold w2 in Hsink. fold final in Hsink, Hcal.
    split; [exact Hcal |]. rewrite Hsink, Htext. reflexivity.
  - destruct (executeAIAction_updtEvent C userID aiResponse w2 Hactions Haction Hid)
      as [Htext Htrace].
    destruct (ProcessUserMessage_ok C userID chatID message w w1 aiResponse Hclass _ Htrace)
      as (Hsink & Hcal & _).
    fold w2 in Hsink. fold final in Hsink, Hcal.
    split; [exact Hcal |]. rewrite Hsink, Htext. reflexivity.
Qed.

(** ** The branches of the dispatch that only talk *)

(** Every single action that is none of the four calendar actions takes
    one of the three branches that answer with the model's message. *)
Lemma executeAIAction_talk (C : Collaborators) (userID : Z) (aiResponse : AIResponse)
      (w : World) :
  Actions aiResponse = [] ->
  Action aiResponse <> "getEvents" ->
  Action aiResponse <> "makeEvent" ->
  Action aiResponse <> "delEvents" ->
  Action aiResponse <> "updtEvent" ->
  (ai.executeAIAction C userID aiResponse w).1.1 = Message aiResponse
  /\ trace (ai.executeAIAction C userID aiResponse w).2 = trace w ++ [].
Proof.
  intros Hactions Hget%String.eqb_neq Hmake%String.eqb_neq Hdel%String.eqb_neq
         Hupdt%String.eqb_neq.
  unfold ai.executeAIAction. rewrite Hactions, Hget, Hmake, Hdel, Hupdt.
  change (Z.of_nat (length (@nil AIAction))) with 0. rewrite app_nil_r.
  destruct (String.eqb (Action aiResponse) "None"),
           (String.eqb (Action aiResponse) "message"); run_go; split; reflexivity.
Qed.

(** X6. A single intent whose action is none of [getEvents], [makeEvent],
    [delEvents] and [updtEvent], be it ["None"], ["message"], empty or a
    word the dispatch does not know, makes no gateway call, and the user
    gets the model's message as it is. *)
Theorem other_actions_only_talk (C : Collaborators) (userID chatID : Z)
        (message : string) (w w1 : World) (aiResponse : AIResponse) :
  classify C userID message w = (Ok aiResponse, w1) ->
  Actions aiResponse = [] ->
  Action aiResponse <> "getEvents" ->
  Action aiResponse <> "makeEvent" ->
  Action aiResponse <> "delEvents" ->
  Action aiResponse <> "updtEvent" ->
  let final := ai.ProcessUserMessage C userID chatID message w in
  calendar_calls (trace final.2) = calendar_calls (trace w)
  /\ sink_calls (trace final.2) = sink_calls (trace w) ++ [(chatID, Message aiResponse)].
Proof.
  intros Hclass Hactions Hget Hmake Hdel Hupdt final.
  set (w2 := dispatch_world C userID message aiResponse w1).
  destruct (executeAIAction_talk C userID aiResponse w2 Hactions Hget Hmake Hdel Hupdt)
    as [Htext Htrace].
  destruct (ProcessUserMessage_ok C userID chatID message w w1 aiResponse Hclass _ Htrace)
    as (Hsink & Hcal & _).
  fold w2 in Hsink. fold final in Hsink, Hcal.
  split; [now rewrite Hcal, app_nil_r |]. rewrite Hsink, Htext. reflexivity.
Qed.

(** The classification, when the model's first choice does not decode. *)
Lemma classify_undecoded (C : Collaborators) (userID : Z) (message : string) (w : World)
      (content : string) (more : list string) :
  let prompt := ai.userPrompt (database.GetUserContext userID 10 w).1 message in
  openai_CreateChatCompletion C (trace w ++ [CallNow; CallChatCompletion prompt]) prompt
  = Ok (content :: more) ->
  json_Unmarshal_AIResponse C content = None ->
  (classify C userID message w).1
  = Ok (mkAIResponse "message" content "" "" "" "" "" "" []).
Proof.
  intros prompt Hreply Hdecode.
  unfold classify, bind at 1 2. unfold log_Printf at 1.
  rewrite GetUserContext_run. fold prompt.
  unfold prompt in Hreply. rewrite GetUserContext_run in Hreply. cbn [fst] in Hreply.
  unfold ai.ProcessMessage, bind, call, ret. cbn [fst snd trace db logs].
  rewrite <- app_assoc. cbn [app].
  change (shown (mkWorld (db w) (trace w) _) userID 10) with (shown w userID 10).
  rewrite Hreply, Hdecode. reflexivity.
Qed.

(** After a successful classification the store is the one [persist]
    leaves. *)
Lemma ProcessUserMessage_db (C : Collaborators) (userID chatID : Z) (message : string)
      (w w1 : World) (aiResponse : AIResponse) :
  classify C userID message w = (Ok aiResponse, w1) ->
  db (ai.ProcessUserMessage C userID chatID message w).2
  = db (dispatch_world C userID message aiResponse w1)
  /\ db w1 = db w.
Proof.
  intros Hclass. rewrite ProcessUserMessage_stages, Hclass.
  rewrite keeps_respond, keeps_executeAIAction. split; [reflexivity |].
  pose proof (keeps_classify C userID message w) as Hkeeps.
  now rewrite Hclass in Hkeeps.
Qed.

Lemma last_of_the_kept {A : Type} (l : list A) (x : A) :
  last (drop (length (l ++ [x]) - 50) (l ++ [x])) = Some x.
Proof.
  rewrite length_app. cbn [length].
  rewrite drop_app_le by lia. apply last_snoc.
Qed.

(** X7. A reply of the model that is not JSON is no error: it is passed on
    to the user word for word. The run makes no gateway call, gives the
    notification sink the reply itself, and stores the exchange as the
    user's latest interaction, under the action ["message"]. Only the first
    choice of the model is looked at. *)
Theorem plain_reply_is_passed_on (C : Collaborators) (userID chatID : Z)
        (message : string) (w : World) (content : string) (more : list string) :
  let prompt := ai.userPrompt (database.GetUserContext userID 10 w).1 message in
  openai_CreateChatCompletion C (trace w ++ [CallNow; CallChatCompletion prompt]) prompt
  = Ok (content :: more) ->
  json_Unmarshal_AIResponse C content = None ->
  let final := ai.ProcessUserMessage C userID chatID message w in
  calendar_calls (trace final.2) = calendar_calls (trace w)
  /\ sink_calls (trace final.2) = sink_calls (trace w) ++ [(chatID, content)]
  /\ exists t,
       last (stored final.2 userID)
       = Some (mkInteraction userID t message content "message").
Proof.
  intros prompt Hreply Hdecode final.
  pose proof (classify_undecoded C userID message w content more Hreply Hdecode) as Hintent.
  destruct (classify C userID message w) as [r w1] eqn:Hclass. cbn [fst] in Hintent.
  subst r. set (aiResponse := mkAIResponse "message" content "" "" "" "" "" "" []) in *.
  set (w2 := dispatch_world C userID message aiResponse w1).
  destruct (executeAIAction_talk C userID aiResponse w2 eq_refl)
    as [Htext Htrace]; try (intros Hne; discriminate Hne).
  destruct (ProcessUserMessage_ok C userID chatID message w w1 aiResponse Hclass _ Htrace)
    as (Hsink & Hcal & _).
  fold w2 in Hsink. fold final in Hsink, Hcal.
  split; [now rewrite Hcal, app_nil_r |]. split; [now rewrite Hsink, Htext |].
  destruct (ProcessUserMessage_db C userID chatID message w w1 aiResponse Hclass)
    as [Hdb _].
  fold final in Hdb. unfold stored. rewrite Hdb.
  destruct (persist_stored C userID message aiResponse w1) as [Hsame _].
  unfold stored in Hsame. rewrite Hsame.
  eexists. apply last_of_the_kept.
Qed.

(** ** The requests to the model *)

Lemma model_calls_app (l k : list Call) :
  model_calls (l ++ k) = model_calls l ++ model_calls k.
Proof. apply omap_app. Qed.

Lemma model_calls_none (l : list Call) :
  forallb (fun c => negb (is_model c)) l = true -> model_calls l = [].
Proof.
  induction l as [|c l IH]; [reflexivity |]. cbn [forallb].
  intros [Hc Hl]%andb_prop. unfold model_calls. cbn [omap].
  destruct c; try discriminate Hc; now apply IH.
Qed.

Lemma appends_weaken (kind kind' : Call -> bool) {A : Type} (m : M A) :
  (forall c, kind c = true -> kind' c = true) -> appends kind m -> appends kind' m.
Proof.
  intros Hkind Hm w. destruct (Hm w) as (l & Hl & Hall). exists l. split; [exact Hl |].
  rewrite forallb_forall in *. auto.
Qed.

Lemma SendMessage_appends (kind : Call -> bool) (C : Collaborators) (chatID : Z)
      (text : string) :
  kind (CallSendMessage chatID text) = true ->
  (forall c, is_transmission c = true -> kind c = true) ->
  appends kind (telegram.SendMessage C chatID text).
Proof.
  intros Hentry Hkind w.
  destruct (SendMessage_trace C chatID text w) as (l & Hl & Hall).
  exists (CallSendMessage chatID text :: l). split; [exact Hl |].
  cbn [forallb]. rewrite Hentry. cbn [andb].
  rewrite forallb_forall in *. auto.
Qed.

Lemma transmission_not_model (c : Call) :
  is_transmission c = true -> negb (is_model c) = true.
Proof. now destruct c. Qed.

Lemma calendar_not_model (c : Call) : is_calendar c = true -> negb (is_model c) = true.
Proof. now destruct c. Qed.

(** After the classification no stage asks the model anything. *)
Lemma persist_asks_nothing (C : Collaborators) (userID : Z) (message : string)
      (aiResponse : AIResponse) :
  appends (fun c => negb (is_model c)) (persist C userID message aiResponse).
Proof.
  unfold persist, database.AddInteraction, database.saveInteractions.
  repeat appends_step.
Qed.

Lemma respond_asks_nothing (C : Collaborators) (userID chatID : Z) (response : string) :
  appends (fun c => negb (is_model c)) (respond C userID chatID response).
Proof.
  unfold respond.
  repeat (first [ apply SendMessage_appends; [reflexivity | apply transmission_not_model]
                | appends_step ]).
Qed.

Lemma apologise_asks_nothing (C : Collaborators) (userID chatID : Z) (err : error) :
  appends (fun c => negb (is_model c)) (apologise C userID chatID err).
Proof.
  unfold apologise.
  repeat (first [ apply SendMessage_appends; [reflexivity | apply transmission_not_model]
                | appends_step ]).
Qed.

(** The classification reads the clock and asks the model once. *)
Lemma classify_trace (C : Collaborators) (userID : Z) (message : string) (w : World) :
  trace (classify C userID message w).2
  = trace w
    ++ [CallNow;
        CallChatCompletion
          (ai.userPrompt (concat_strings (map format_interaction (shown w userID 10)))
                         message)].
Proof.
  unfold classify, bind at 1 2. unfold log_Printf at 1.
  rewrite GetUserContext_run.
  unfold ai.ProcessMessage, bind, call, ret. cbn [fst snd trace db logs].
  rewrite <- app_assoc. cbn [app].
  change (shown (mkWorld (db w) (trace w) _) userID 10) with (shown w userID 10).
  destruct (openai_CreateChatCompletion C _ _) as [[| content more] | e];
    try reflexivity.
  destruct (_ && _); reflexivity.
Qed.

Lemma shown_last_ten (w : World) (userID : Z) :
  shown w userID 10 = drop (length (stored w userID) - 10) (stored w userID).
Proof.
  unfold shown. cbn [Z.leb Z.compare]. f_equal. lia.
Qed.

(** X8. Every message costs exactly one request to the model, whatever
    happens afterwards. Its user prompt is the message itself when nothing
    is stored for the user, and otherwise the user's last ten interactions
    (all of them when there are fewer), oldest first, each as
    ["User: {message}\nAI: {response}\n\n"], then an empty line and
    ["User: "] with the message. The exchange in progress is not part of
    it: it is stored after the model has answered. *)
Theorem one_model_request_per_message (C : Collaborators) (userID chatID : Z)
        (message : string) (w : World) :
  let final := ai.ProcessUserMessage C userID chatID message w in
  let recent := drop (length (stored w userID) - 10) (stored w userID) in
  model_calls (trace final.2)
  = model_calls (trace w)
    ++ [if decide (stored w userID = [])
        then message
        else concat_strings (map format_interaction recent)
             +:+ nl +:+ nl +:+ "User: " +:+ message].
Proof.
  intros final recent.
  assert (Hprompt :
            ai.userPrompt (concat_strings (map format_interaction (shown w userID 10)))
                          message
            = if decide (stored w userID = []) then message
              else concat_strings (map format_interaction recent)
                   +:+ nl +:+ nl +:+ "User: " +:+ message).
  { rewrite shown_last_ten. fold recent. unfold ai.userPrompt.
    destruct (decide (stored w userID = [])) as [Hnone | Hsome].
    - unfold recent. rewrite Hnone. reflexivity.
    - destruct recent as [|i recent'] eqn:Hrecent.
      + exfalso. apply Hsome. apply (f_equal length) in Hrecent.
        unfold recent in Hrecent. rewrite length_drop in Hrecent. cbn [length] in Hrecent.
        destruct (stored w userID); [reflexivity | cbn [length] in Hrecent; lia].
      + reflexivity. }
  rewrite <- Hprompt. clear Hprompt.
  pose proof (classify_trace C userID message w) as Hclass.
  unfold final. rewrite ProcessUserMessage_stages.
  destruct (classify C userID message w) as [[aiResponse | err] w1]; cbn [snd] in Hclass.
  - cbv zeta.
    destruct (persist_asks_nothing C userID message aiResponse w1) as (l2 & H2 & Hall2).
    fold (dispatch_world C userID message aiResponse w1) in H2.
    set (w2 := dispatch_world C userID message aiResponse w1) in *.
    destruct (appends_weaken _ _ _ calendar_not_model
                (executeAIAction_appends C userID aiResponse) w2) as (l3 & H3 & Hall3).
    destruct (respond_asks_nothing C userID chatID
                (ai.executeAIAction C userID aiResponse w2).1.1
                (ai.executeAIAction C userID aiResponse w2).2) as (l4 & H4 & Hall4).
    rewrite H4, H3, H2, Hclass, !model_calls_app.
    rewrite (model_calls_none l2 Hall2), (model_calls_none l3 Hall3),
      (model_calls_none l4 Hall4), !app_nil_r.
    reflexivity.
  - destruct (apologise_asks_nothing C userID chatID err w1) as (l2 & H2 & Hall2).
    rewrite H2, Hclass, !model_calls_app, (model_calls_none l2 Hall2), app_nil_r.
    reflexivity.
Qed.

(** ** The calendar callbacks *)

(** The one sink call of [SendMessage], and no gateway call. *)
Lemma SendMessage_calls (C : Collaborators) (chatID : Z) (text : string) (w : World) :
  sink_calls (trace (telegram.SendMessage C chatID text w).2)
  = sink_calls (trace w) ++ [(chatID, text)]
  /\ calendar_calls (trace (telegram.SendMessage C chatID text w).2)
     = calendar_calls (trace w).
Proof.
  destruct (SendMessage_trace C chatID text w) as (l & Hl & Hall). rewrite Hl. split.
  - rewrite sink_calls_app, sink_calls_entry,
      (sink_calls_none _ l transmission_not_sink Hall). reflexivity.
  - rewrite calendar_calls_app, calendar_calls_entry,
      (calendar_calls_none _ l transmission_not_calendar Hall). now rewrite app_nil_r.
Qed.

Lemma day_listing_run (C : Collaborators) (day : string) (w : World) :
  ai_callbacks.day_listing C day w
  = (callback_listing day (gateway_answer C (trace w) day),
     mkWorld (db w) (trace w ++ [CallGetEvents day]) (logs w)).
Proof.
  unfold ai_callbacks.day_listing. rewrite bind_run, GetEvents_answer.
  cbn [fst snd]. fold (gateway_answer C (trace w) day).
  destruct (gateway_answer C (trace w) day) as [events | err]; [| reflexivity].
  unfold callback_listing.
  destruct (Z.of_nat (length events) =? 0); [reflexivity |].
  change (Z.to_nat 15) with 15%nat.
  destruct (Z.of_nat (length events) >? 15); unfold ret;
    rewrite append_events_lines, ?string_app_assoc; reflexivity.
Qed.

(** What [HandleCalendarCallback] does after it has the response. *)
Lemma HandleCalendarCallback_run (C : Collaborators) (userID chatID : Z)
      (callbackData : string) (w : World) :
  let listing :=
    (if String.eqb callbackData "calendar_today"
     then ai_callbacks.day_listing C "today"
     else if String.eqb callbackData "calendar_tomorrow"
          then ai_callbacks.day_listing C "tomorrow"
          else ret "Calendar navigation not implemented yet.")
      (log_Printf "Handling calendar callback for user %d: %s"
                  [LInt userID; LStr callbackData] w).2 in
  let run := ai_callbacks.HandleCalendarCallback C userID chatID callbackData w in
  let sent := telegram.SendMessage C chatID listing.1 listing.2 in
  trace run.2 = trace sent.2 /\ db run.2 = db sent.2 /\ run.1 = sent.1.
Proof.
  intros listing run sent. subst run.
  unfold ai_callbacks.HandleCalendarCallback. rewrite !bind_run.
  fold listing. fold sent. destruct sent.1; run_go; repeat split; reflexivity.
Qed.

(** X9. [HandleCalendarCallback] knows two buttons. For ["calendar_today"]
    and ["calendar_tomorrow"] it asks the gateway once, for ["today"] or
    ["tomorrow"], and gives the sink the listing of that day: the gateway's
    error, ["No events found for {day}."], or the events, of which at most
    the first 15 are shown, followed by ["... and N more events."] when
    there are more. For any other data it asks the gateway nothing and
    answers ["Calendar navigation not implemented yet."]. In every case the
    sink is called exactly once, the conversation store is left as it is,
    and the result is that of the send. *)
Theorem calendar_callback_lists_one_day (C : Collaborators) (userID chatID : Z)
        (callbackData : string) (w : World) :
  let run := ai_callbacks.HandleCalendarCallback C userID chatID callbackData w in
  let day := if String.eqb callbackData "calendar_today" then Some "today"
             else if String.eqb callbackData "calendar_tomorrow" then Some "tomorrow"
             else None in
  let asked := match day with Some day => [CallGetEvents day] | None => [] end in
  let text := match day with
              | Some day =>
                  callback_listing day (calendar_list C (trace w ++ [CallGetEvents day]) day)
              | None => "Calendar navigation not implemented yet."
              end in
  calendar_calls (trace run.2) = calendar_calls (trace w) ++ asked
  /\ sink_calls (trace run.2) = sink_calls (trace w) ++ [(chatID, text)]
  /\ db run.2 = db w
  /\ exists w', trace w' = trace w ++ asked
       /\ run.1 = (telegram.SendMessage C chatID text w').1.
Proof.
  intros run day asked text.
  destruct (HandleCalendarCallback_run C userID chatID callbackData w)
    as (Htrace & Hdb & Hres).
  fold run in Htrace, Hdb, Hres. rewrite Htrace, Hdb, Hres, keeps_SendMessage.
  clear Htrace Hdb Hres. subst day asked text.
  destruct (String.eqb callbackData "calendar_today");
    [| destruct (String.eqb callbackData "calendar_tomorrow")];
    rewrite ?day_listing_run; unfold ret; cbn [fst snd];
    match goal with
    | |- context [telegram.SendMessage C chatID ?text ?w1] =>
        destruct (SendMessage_calls C chatID text w1) as [Hsink Hcal];
        rewrite Hsink, Hcal; cbn [trace db];
        rewrite ?sink_calls_app, ?calendar_calls_app, ?app_nil_r;
        (split; [reflexivity | split; [reflexivity | split; [reflexivity |]]]);
        exists w1; cbn [trace]; rewrite ?app_nil_r; split; reflexivity
    end.
Qed.

(** ** The statistics of a user *)

Lemma count_actions_loop (l : list Interaction) :
  forall (used : gmap string Z) (a : string),
    fold_left
      (fun used interaction =>
         if negb (String.eqb (i_Action interaction) "")
         then <[i_Action interaction := default 0 (used !! i_Action interaction) + 1]> used
         else used)
      l used !! a
    = if String.eqb a "" then used !! a else bump (used !! a) (times_used a l).
Proof.
  induction l as [|i l IH]; intros used a.
  - cbn. now destruct (String.eqb a "").
  - cbn [fold_left]. rewrite IH. clear IH.
    destruct (String.eqb_spec a "") as [Ha | Ha].
    + destruct (String.eqb_spec (i_Action i) "") as [Hi | Hi]; cbn [negb];
        [reflexivity |].
      apply lookup_insert_ne. congruence.
    + unfold times_used. cbn [List.filter].
      destruct (String.eqb_spec (i_Action i) a) as [Hia | Hia].
      * rewrite Hia. destruct (String.eqb_spec a "") as [| _]; [contradiction |].
        cbn [negb length]. rewrite lookup_insert_eq.
        destruct (length (List.filter _ l)) as [|n]; cbn [bump from_option id default];
          f_equal; lia.
      * destruct (String.eqb (i_Action i) ""); cbn [negb]; [reflexivity |].
        now rewrite lookup_insert_ne.
Qed.

Lemma GetUserInteractions_all (userID : Z) (w : World) :
  database.GetUserInteractions userID 0 w = (stored w userID, w).
Proof.
  unfold database.GetUserInteractions. run_go. fold (stored w userID).
  destruct (Z.eqb_spec (Z.of_nat (length (stored w userID))) 0) as [Hzero | _];
    [| reflexivity].
  now rewrite (length_zero_nil _ Hzero).
Qed.

(** X10. [GetUserStats] reads the store and changes nothing. The total is
    the number of interactions stored for the user, the first and last
    timestamps are those of the oldest and the newest of them (none when
    nothing is stored), and every action is counted as many times as it
    occurs: an action that never occurs, and the empty action, have no
    entry. *)
Theorem GetUserStats_counts_what_is_stored (userID : Z) (w : World) :
  let run := database_admin.GetUserStats userID w in
  let all := stored w userID in
  run.2 = w
  /\ total_interactions run.1 = Z.of_nat (length all)
  /\ first_interaction run.1 = i_Timestamp <$> head all
  /\ last_interaction run.1 = i_Timestamp <$> last all
  /\ forall a,
       actions_used run.1 !! a
       = if String.eqb a "" then None
         else match times_used a all with
              | O => None
              | S n => Some (Z.of_nat (S n))
              end.
Proof.
  intros run all. subst run.
  unfold database_admin.GetUserStats. rewrite bind_run, GetUserInteractions_all.
  cbn [fst snd]. fold all.
  destruct all as [|i rest] eqn:Hall.
  - change (Z.of_nat (length (@nil Interaction)) >? 0) with false.
    unfold ret. cbn [fst snd total_interactions first_interaction last_interaction
                     actions_used].
    repeat split. intros a. rewrite lookup_empty. now destruct (String.eqb a "").
  - destruct (Z.gtb_spec (Z.of_nat (length (i :: rest))) 0) as [_ | Hle];
      [| cbn [length] in Hle; lia].
    unfold ret. cbn [fst snd total_interactions first_interaction last_interaction
                     actions_used].
    repeat split. intros a. unfold database_admin.count_actions.
    rewrite count_actions_loop, lookup_empty.
    destruct (String.eqb a ""); [reflexivity |].
    destruct (times_used a (i :: rest)); cbn [bump from_option id default];
      [reflexivity | f_equal; lia].
Qed.

(** ** Cleaning the store *)

Section Cleaning.
Variable T : TimeLib.
Variable cutoff : Time.

Lemma sweep_loop (l : list Interaction) :
  forall (kept : list Interaction) (n : Z),
    fold_left
      (fun '(validInteractions, totalRemoved) interaction =>
         if time_After T (i_Timestamp interaction) cutoff
         then (validInteractions ++ [interaction], totalRemoved)
         else (validInteractions, totalRemoved + 1))
      l (kept, n)
    = (kept ++ List.filter (valid T cutoff) l,
       n + Z.of_nat (length l) - Z.of_nat (length (List.filter (valid T cutoff) l))).
Proof.
  induction l as [|i l IH]; intros kept n.
  - cbn. rewrite app_nil_r. f_equal. lia.
  - cbn [fold_left List.filter].
    change (valid T cutoff i) with (time_After T (i_Timestamp i) cutoff).
    destruct (time_After T (i_Timestamp i) cutoff); rewrite IH.
    + rewrite <- app_assoc. cbn [app length]. f_equal. lia.
    + cbn [length]. f_equal. lia.
Qed.

Lemma sweep_run (l : list Interaction) (n : Z) :
  database_admin.sweep T cutoff l n
  = (List.filter (valid T cutoff) l,
     n + Z.of_nat (length l) - Z.of_nat (length (List.filter (valid T cutoff) l))).
Proof. unfold database_admin.sweep. now rewrite sweep_loop. Qed.

Lemma filter_length_le (l : list Interaction) :
  (length (List.filter (valid T cutoff) l) <= length l)%nat.
Proof.
  induction l as [|i l IH]; [reflexivity |]. cbn [List.filter].
  destruct (valid T cutoff i); cbn [length]; lia.
Qed.

(** The outer loop: every entry visited is replaced by its valid
    interactions, the others are left, and the removed ones are counted. *)
Lemma visit_loop (entries : list (Z * list Interaction)) :
  forall (m : gmap Z (list Interaction)) (n : Z),
    NoDup entries.*1 ->
    let r := fold_left (database_admin.visit T cutoff) entries (m, n) in
    (forall k, r.1 !! k
               = match (list_to_map entries : gmap Z (list Interaction)) !! k with
                 | Some l => Some (List.filter (valid T cutoff) l)
                 | None => m !! k
                 end)
    /\ r.2 = n + Z.of_nat (sum_list_with (fun e => length e.2) entries)
             - Z.of_nat (sum_list_with (fun e => length (List.filter (valid T cutoff) e.2)) entries).
Proof.
  induction entries as [|[u l] entries IH]; intros m n Hnodup.
  - cbn. split; [intros k; now rewrite lookup_empty | lia].
  - cbn [fold_left database_admin.visit]. rewrite sweep_run.
    apply NoDup_cons in Hnodup as [Hu Hnodup].
    destruct (IH (<[u := List.filter (valid T cutoff) l]> m)
                 (n + Z.of_nat (length l) - Z.of_nat (length (List.filter (valid T cutoff) l)))
                 Hnodup) as [Htable Hcount].
    split.
    + intros k. rewrite Htable. cbn [list_to_map foldr curry fst snd].
      destruct (decide (k = u)) as [-> | Hk].
      * rewrite (not_elem_of_list_to_map_1 _ _ Hu), !lookup_insert_eq. reflexivity.
      * rewrite !lookup_insert_ne by congruence. reflexivity.
    + rewrite Hcount. cbn [sum_list_with snd]. pose proof (filter_length_le l). lia.
Qed.

End Cleaning.

(** [Cleanup] ends with the save, in a world that has the table and the log
    line the loop produced. *)
Lemma Cleanup_ends_with_save (C : Collaborators) (T : TimeLib) (daysOld : Z) (w : World) :
  let cutoff := time_AddDate T (time_Now C (trace w ++ [CallNow])) 0 0 (- daysOld) in
  let swept := fold_left (database_admin.visit T cutoff)
                         (map_to_list (interactions (db w))) (interactions (db w), 0) in
  exists w',
    database_admin.Cleanup C T daysOld w = database.saveInteractions C w'
    /\ trace w' = trace w ++ [CallNow]
    /\ db w' = mkDatabase (filePath (db w)) swept.1
    /\ logs w' = logs w ++ [mkLog "Cleaned up %d old interactions" [LInt swept.2]].
Proof.
  intros cutoff swept. unfold database_admin.Cleanup. rewrite !bind_run.
  run_go. fold cutoff. fold swept. destruct swept as [m n].
  eexists. split; [reflexivity |]. repeat split.
Qed.

Lemma sum_list_with_map {A B : Type} (f : B -> nat) (g : A -> B) (l : list A) :
  sum_list_with f (g <$> l) = sum_list_with (fun a => f (g a)) l.
Proof. induction l as [|a l IH]; [reflexivity |]. cbn. now rewrite IH. Qed.

Lemma sum_list_with_le {A : Type} (f g : A -> nat) (l : list A) :
  (forall a, (f a <= g a)%nat) -> (sum_list_with f l <= sum_list_with g l)%nat.
Proof.
  intros Hle. induction l as [|a l IH]; [reflexivity |]. cbn. specialize (Hle a). lia.
Qed.

(** What the loops of [Cleanup] leave, as a table. *)
Lemma Cleanup_table (T : TimeLib) (cutoff : Time) (m : gmap Z (list Interaction)) :
  let swept := fold_left (database_admin.visit T cutoff) (map_to_list m) (m, 0) in
  swept.1 = List.filter (valid T cutoff) <$> m
  /\ swept.2
     = Z.of_nat (sum_list_with (fun e => length e.2) (map_to_list m))
       - Z.of_nat (sum_list_with (fun e => length e.2)
                                 (map_to_list (List.filter (valid T cutoff) <$> m))).
Proof.
  intros swept.
  destruct (visit_loop T cutoff (map_to_list m) m 0 (NoDup_fst_map_to_list m))
    as [Htable Hcount].
  fold swept in Htable, Hcount. split.
  - apply map_eq. intros k. rewrite Htable, list_to_map_to_list, lookup_fmap.
    now destruct (m !! k).
  - rewrite Hcount, map_to_list_fmap, sum_list_with_map. reflexivity.
Qed.

(** X11. [Cleanup] reads the clock once and keeps, for every user, exactly
    the interactions whose timestamp is after the cutoff ([daysOld] days
    before now), in their order. No user leaves the table: one whose
    interactions are all too old stays, with none. The number it logs is
    the number of interactions that left the store, and the table it saves
    is the cleaned one; its result is that of the save. *)
Theorem Cleanup_keeps_what_is_after_the_cutoff (C : Collaborators) (T : TimeLib)
        (daysOld : Z) (w : World) :
  let run := database_admin.Cleanup C T daysOld w in
  let cutoff := time_AddDate T (time_Now C (trace w ++ [CallNow])) 0 0 (- daysOld) in
  interactions (db run.2) = List.filter (valid T cutoff) <$> interactions (db w)
  /\ (forall userID, stored run.2 userID = List.filter (valid T cutoff) (stored w userID))
  /\ logs run.2
     = logs w ++ [mkLog "Cleaned up %d old interactions"
                        [LInt (Z.of_nat (population w) - Z.of_nat (population run.2))]]
  /\ (population run.2 <= population w)%nat
  /\ match json_MarshalIndent C (interactions (db run.2)) with
     | Err e =>
         run.1 = Some ("failed to marshal interactions: " +:+ e)
         /\ trace run.2 = trace w ++ [CallNow]
     | Ok data =>
         let t := trace w ++ [CallNow; CallWriteFile (filePath (db w)) data] in
         trace run.2 = t
         /\ run.1 = match os_WriteFile C t (filePath (db w)) data with
                    | Some e => Some ("failed to write interactions file: " +:+ e)
                    | None => None
                    end
     end.
Proof.
  intros run cutoff. subst run.
  destruct (Cleanup_ends_with_save C T daysOld w) as (w' & -> & Htrace & Hdb & Hlogs).
  fold cutoff in Hdb, Hlogs.
  destruct (Cleanup_table T cutoff (interactions (db w))) as [Htable Hcount].
  rewrite Htable in Hdb. rewrite Hcount in Hlogs. clear Htable Hcount.
  pose proof (saveInteractions_run C w') as Hsave. cbv zeta in Hsave.
  assert (Hfinal : db (database.saveInteractions C w').2 = db w'
                   /\ logs (database.saveInteractions C w').2 = logs w').
  { destruct (json_MarshalIndent C (interactions (db w'))); rewrite Hsave;
      split; reflexivity. }
  destruct Hfinal as [Hfdb Hflogs].
  assert (Htable : interactions (db (database.saveInteractions C w').2)
                   = List.filter (valid T cutoff) <$> interactions (db w))
    by now rewrite Hfdb, Hdb.
  split; [exact Htable |]. split; [| split; [| split]].
  - intros userID. unfold stored, at_user. rewrite Htable, lookup_fmap.
    now destruct (interactions (db w) !! userID).
  - rewrite Hflogs, Hlogs. unfold population. rewrite Htable. reflexivity.
  - unfold population. rewrite Htable, map_to_list_fmap, sum_list_with_map.
    apply sum_list_with_le. intros [u l]. apply filter_length_le.
  - rewrite Hfdb.
    destruct (json_MarshalIndent C (interactions (db w'))) as [data | e];
      rewrite Hsave; cbn [fst snd trace]; rewrite ?Htrace, ?Hdb, <- ?app_assoc;
      cbn [filePath]; split; reflexivity.
Qed.

(** The store and the log after [Cleanup]. *)
Lemma Cleanup_store (C : Collaborators) (T : TimeLib) (daysOld : Z) (w : World) :
  let run := database_admin.Cleanup C T daysOld w in
  let cutoff := time_AddDate T (time_Now C (trace w ++ [CallNow])) 0 0 (- daysOld) in
  let cleaned := List.filter (valid T cutoff) <$> interactions (db w) in
  db run.2 = mkDatabase (filePath (db w)) cleaned
  /\ logs run.2
     = logs w
       ++ [mkLog "Cleaned up %d old interactions"
                 [LInt (Z.of_nat (sum_list_with (fun e => length e.2)
                                                (map_to_list (interactions (db w))))
                        - Z.of_nat (sum_list_with (fun e => length e.2)
                                                  (map_to_list cleaned)))]].
Proof.
  intros run cutoff cleaned. subst run.
  destruct (Cleanup_ends_with_save C T daysOld w) as (w' & -> & Htrace & Hdb & Hlogs).
  fold cutoff in Hdb, Hlogs.
  destruct (Cleanup_table T cutoff (interactions (db w))) as [Htable Hcount].
  rewrite Htable in Hdb. rewrite Hcount in Hlogs. clear Htable Hcount.
  pose proof (saveInteractions_run C w') as Hsave. cbv zeta in Hsave.
  destruct (json_MarshalIndent C (interactions (db w'))); rewrite Hsave;
    cbn [snd db logs]; split; assumption.
Qed.

Lemma filter_twice {A : Type} (p : A -> bool) (l : list A) :
  List.filter p (List.filter p l) = List.filter p l.
Proof.
  induction l as [|a l IH]; [reflexivity |]. cbn [List.filter].
  destruct (p a) eqn:Hp; [| exact IH]. cbn [List.filter]. now rewrite Hp, IH.
Qed.

(** X12. Cleaning twice is cleaning once: when a second [Cleanup] works
    with the cutoff of the first (the clock has not moved and the number of
    days is the same), it leaves the store exactly as the first one left it
    and logs that it removed 0 interactions. *)
Theorem second_Cleanup_removes_nothing (C : Collaborators) (T : TimeLib)
        (daysOld daysOld' : Z) (w : World) :
  let w1 := (database_admin.Cleanup C T daysOld w).2 in
  let w2 := (database_admin.Cleanup C T daysOld' w1).2 in
  time_AddDate T (time_Now C (trace w1 ++ [CallNow])) 0 0 (- daysOld')
  = time_AddDate T (time_Now C (trace w ++ [CallNow])) 0 0 (- daysOld) ->
  db w2 = db w1
  /\ logs w2 = logs w1 ++ [mkLog "Cleaned up %d old interactions" [LInt 0]].
Proof.
  intros w1 w2 Hcutoff.
  destruct (Cleanup_store C T daysOld w) as [Hdb1 _]. fold w1 in Hdb1.
  destruct (Cleanup_store C T daysOld' w1) as [Hdb2 Hlogs2]. fold w2 in Hdb2, Hlogs2.
  rewrite Hcutoff in Hdb2, Hlogs2.
  set (cutoff := time_AddDate T (time_Now C (trace w ++ [CallNow])) 0 0 (- daysOld)) in *.
  assert (Hsame : List.filter (valid T cutoff) <$> interactions (db w1)
                  = interactions (db w1)).
  { rewrite Hdb1. cbn [interactions]. rewrite <- map_fmap_compose.
    apply map_fmap_ext. intros k l _. apply filter_twice. }
  rewrite Hsame in Hdb2, Hlogs2. split.
  - rewrite Hdb2, Hdb1. reflexivity.
  - rewrite Hlogs2. now rewrite Z.sub_diag.
Qed.

(** ** The backup *)

(** [Backup], by what the encoder and the file system answer. *)
Lemma Backup_run (C : Collaborators) (backupPath : string) (w : World) :
  match json_MarshalIndent C (interactions (db w)) with
  | Err e =>
      database_admin.Backup C backupPath w
      = (Some ("failed to marshal interactions for backup: " +:+ e), w)
  | Ok data =>
      database_admin.Backup C backupPath w
      = (match os_WriteFile C (trace w ++ [CallWriteFile backupPath data])
                            backupPath data with
         | Some e => Some ("failed to write backup file: " +:+ e)
         | None => None
         end,
         mkWorld (db w) (trace w ++ [CallWriteFile backupPath data]) (logs w))
  end.
Proof.
  unfold database_admin.Backup, bind, get_interactions, call, ret.
  destruct (json_MarshalIndent C (interactions (db w))) as [data | e];
    [| now destruct w].
  cbn [fst snd trace db logs]. now destruct (os_WriteFile C _ _ _).
Qed.

(** X13. A backup taken after an interaction has been stored and saved is a
    copy of that save: [Backup] hands [os.WriteFile] the very bytes that
    [AddInteraction] wrote to the database file, at the backup path, and it
    leaves the store and the log as they are. [Backup] can still fail, but
    only in the write. *)
Theorem Backup_copies_the_last_save (C : Collaborators) (userID : Z)
        (um ar act backupPath : string) (w : World) :
  let added := database.AddInteraction C userID um ar act w in
  let run := database_admin.Backup C backupPath added.2 in
  added.1 = None ->
  exists data,
    json_MarshalIndent C (interactions (db added.2)) = Ok data
    /\ trace run.2
       = trace w ++ [CallNow; CallWriteFile (filePath (db w)) data;
                     CallWriteFile backupPath data]
    /\ db run.2 = db added.2
    /\ logs run.2 = logs added.2
    /\ run.1 = match os_WriteFile C (trace run.2) backupPath data with
               | Some e => Some ("failed to write backup file: " +:+ e)
               | None => None
               end.
Proof.
  intros added run Hsaved. subst run added.
  destruct (AddInteraction_ends_with_save C userID um ar act w)
    as (w' & Hadd & Htrace & Hpath).
  rewrite Hadd in *. clear Hadd.
  pose proof (saveInteractions_run C w') as Hsave. cbv zeta in Hsave.
  destruct (json_MarshalIndent C (interactions (db w'))) as [data | e] eqn:Hdata;
    rewrite Hsave in *; [| discriminate Hsaved].
  cbn [fst snd] in *.
  pose proof (Backup_run C backupPath
                (mkWorld (db w') (trace w' ++ [CallWriteFile (filePath (db w')) data])
                         (logs w'))) as Hbackup.
  cbn [db trace logs] in Hbackup. rewrite Hdata in Hbackup. rewrite Hbackup.
  exists data. cbn [fst snd db trace logs]. rewrite Htrace, Hpath, <- !app_assoc.
  repeat split; first [exact Hdata | reflexivity].
Qed.

(** ** The configuration *)

(** X14. [Load] succeeds exactly when the four required variables are set
    to something: otherwise it fails with the name of the first one, in the
    order [TELEGRAM_TOKEN], [OPENAI_API_KEY], [GOOGLE_CREDENTIALS_FILE],
    [GOOGLE_CALENDAR_ID], that is empty or unset. The configuration it
    returns holds the values of the environment, with port ["8080"] when
    [PORT] is empty, so that no field of a loaded configuration is empty. A
    missing [.env] file is never an error. *)
Theorem Load_needs_four_variables (E : config.Environment) (w : World) :
  let run := config.Load E w in
  run.1 = match List.find (fun name => String.eqb (config.os_Getenv E name) "") required with
          | Some name => Err (name +:+ " is required")
          | None =>
              Ok (config.mkConfig (config.os_Getenv E "TELEGRAM_TOKEN")
                                  (config.os_Getenv E "OPENAI_API_KEY")
                                  (config.os_Getenv E "GOOGLE_CREDENTIALS_FILE")
                                  (config.os_Getenv E "GOOGLE_CALENDAR_ID")
                                  (if String.eqb (config.os_Getenv E "PORT") ""
                                   then "8080" else config.os_Getenv E "PORT"))
          end
  /\ (forall c, run.1 = Ok c ->
        config.TelegramToken c <> "" /\ config.OpenAIKey c <> ""
        /\ config.GoogleCreds c <> "" /\ config.CalendarID c <> ""
        /\ config.Port c <> "")
  /\ trace run.2 = trace w
  /\ db run.2 = db w.
Proof.
  intros run. subst run.
  unfold config.Load, config.Validate, required. rewrite !bind_run.
  cbn [List.find config.TelegramToken config.OpenAIKey config.GoogleCreds
       config.CalendarID config.Port].
  destruct (config.godotenv_Load E);
    destruct (String.eqb_spec (config.os_Getenv E "PORT") "") as [Hport | Hport];
    run_go;
    cbn [config.TelegramToken config.OpenAIKey config.GoogleCreds config.CalendarID
         config.Port];
    destruct (String.eqb_spec (config.os_Getenv E "TELEGRAM_TOKEN") "") as [Ht | Ht];
    try (run_go; split; [reflexivity | split; [intros c Hc; discriminate Hc |
                                               split; reflexivity]]);
    destruct (String.eqb_spec (config.os_Getenv E "OPENAI_API_KEY") "") as [Hk | Hk];
    try (run_go; split; [reflexivity | split; [intros c Hc; discriminate Hc |
                                               split; reflexivity]]);
    destruct (String.eqb_spec (config.os_Getenv E "GOOGLE_CREDENTIALS_FILE") "")
      as [Hg | Hg];
    try (run_go; split; [reflexivity | split; [intros c Hc; discriminate Hc |
                                               split; reflexivity]]);
    destruct (String.eqb_spec (config.os_Getenv E "GOOGLE_CALENDAR_ID") "") as [Hc | Hc];
    try (run_go; split; [reflexivity | split; [intros c Hc'; discriminate Hc' |
                                               split; reflexivity]]);
    run_go; (split; [reflexivity | split; [| split; reflexivity]]);
    intros c [= <-];
    cbn [config.TelegramToken config.OpenAIKey config.GoogleCreds config.CalendarID
         config.Port];
    repeat split; try assumption; intros Hne; discriminate Hne.
Qed.

(** X15. What [Load] writes to the log of the two secrets, the Telegram
    token and the OpenAI key, is their mask and nothing else: every value
    in the lines it logs is the mask of the token, the mask of the key, the
    credentials file, the calendar id or the port, whether the
    configuration is valid or not. *)
Theorem Load_logs_the_secrets_masked (E : config.Environment) (w : World) :
  let run := config.Load E w in
  let logged :=
    [LStr (config.MaskToken (config.os_Getenv E "TELEGRAM_TOKEN"));
     LStr (config.MaskToken (config.os_Getenv E "OPENAI_API_KEY"));
     LStr (config.os_Getenv E "GOOGLE_CREDENTIALS_FILE");
     LStr (config.os_Getenv E "GOOGLE_CALENDAR_ID");
     LStr (if String.eqb (config.os_Getenv E "PORT") ""
           then "8080" else config.os_Getenv E "PORT")] in
  exists new,
    logs run.2 = logs w ++ new
    /\ Forall (fun entry => Forall (fun arg => arg ∈ logged) (log_args entry)) new.
Proof.
  intros run logged. subst run logged.
  unfold config.Load. rewrite !bind_run.
  cbn [config.TelegramToken config.OpenAIKey config.GoogleCreds config.CalendarID
       config.Port].
  destruct (config.godotenv_Load E);
    destruct (String.eqb (config.os_Getenv E "PORT") "");
    run_go;
    cbn [config.TelegramToken config.OpenAIKey config.GoogleCreds config.CalendarID
         config.Port];
    destruct (config.Validate _); run_go;
    rewrite <- !app_assoc; cbn [app];
    (eexists; split; [reflexivity |]);
    repeat constructor.
Qed.

(** ** Masking a token *)

Lemma prefix_as_substring (pre suf : string) :
  substring 0 (String.length pre) (pre +:+ suf) = pre.
Proof.
  induction pre as [|c pre IH]; [apply substring_zero_length |].
  change (String c (substring 0 (String.length pre) (pre +:+ suf)) = String c pre).
  now rewrite IH.
Qed.

(** X16. [MaskToken] shows the first four and the last four bytes of a
    token and hides what is between them behind ["..."], however long it
    is; a token with nothing between them, and every token of at most
    eight bytes, is hidden altogether as ["***"]. *)
Theorem MaskToken_shows_only_the_ends (first4 middle last4 : string) :
  len first4 = 4 ->
  len last4 = 4 ->
  config.MaskToken (first4 +:+ middle +:+ last4)
  = (if String.eqb middle "" then "***" else first4 +:+ "..." +:+ last4)
  /\ forall token, len token <= 8 -> config.MaskToken token = "***".
Proof.
  intros Hfirst Hlast. split.
  - unfold config.MaskToken.
    assert (Hlen : len (first4 +:+ middle +:+ last4) = 8 + len middle).
    { unfold len in *. rewrite !string_length_app. lia. }
    rewrite Hlen.
    destruct (String.eqb_spec middle "") as [-> | Hmiddle].
    + reflexivity.
    + destruct (Z.leb_spec (8 + len middle) 8) as [Hle | _].
      * destruct middle; [contradiction | unfold len in Hle; cbn in Hle; lia].
      * f_equal; [| f_equal].
        -- unfold slice. replace (Z.to_nat (4 - 0)) with (String.length first4)
             by (unfold len in Hfirst; lia).
           apply prefix_as_substring.
        -- unfold slice. rewrite <- string_app_assoc.
           replace (Z.to_nat (8 + len middle - 4))
             with (String.length (first4 +:+ middle))
             by (rewrite string_length_app; unfold len in *; lia).
           replace (Z.to_nat (8 + len middle - (8 + len middle - 4)))
             with (String.length last4) by (unfold len in *; lia).
           apply suffix_as_substring.
  - intros token Hshort. unfold config.MaskToken.
    destruct (Z.leb_spec (len token) 8); [reflexivity | lia].
Qed.

(** ** A long message whose sending fails *)

Lemma client_answer_next (C : Collaborators) (chatID : Z) (t : list Call)
      (text : string) (parts : list string) (j : nat) (part : string) :
  client_answer C chatID t (text :: parts) (S j) part
  = client_answer C chatID ((t ++ [CallBotSend chatID text]) ++ [CallSleep 100]) parts j part.
Proof.
  unfold client_answer. cbn [take delivered flat_map].
  fold (delivered chatID (take j parts)). now rewrite <- !app_assoc.
Qed.

(** The sending loop, by its outcome: what it returned, the calls it made
    and what the client had answered. *)
Lemma send_loop_trace (C : Collaborators) (chatID total : Z) (rest : list string) :
  forall (i : Z) (w : World),
    let run := telegram.send_loop C chatID total i rest w in
    let parts := marked total i rest in
    match run.1 with
    | None =>
        trace run.2 = trace w ++ delivered chatID parts
        /\ forall k part,
             parts !! k = Some part -> client_answer C chatID (trace w) parts k part = None
    | Some err =>
        exists (k : nat) (part e : string),
          parts !! k = Some part
          /\ trace run.2
             = trace w ++ delivered chatID (take k parts) ++ [CallBotSend chatID part]
          /\ client_answer C chatID (trace w) parts k part = Some e
          /\ err = "failed to send message part " +:+ fmt_d (i + Z.of_nat k + 1) +:+ "/"
                   +:+ fmt_d total +:+ ": " +:+ e
          /\ forall j earlier,
               (j < k)%nat -> parts !! j = Some earlier ->
               client_answer C chatID (trace w) parts j earlier = None
    end.
Proof.
  induction rest as [|m rest IH]; intros i w.
  - cbn. rewrite app_nil_r. split; [reflexivity |]. intros k part Hpart.
    now rewrite lookup_nil in Hpart.
  - cbn [telegram.send_loop marked]. cbv zeta.
    set (text := if i <? total - 1 then m +:+ telegram.continued else m).
    unfold bind, call, enter, ret. cbn [fst snd trace db logs].
    destruct (tgbot_Send C (trace w ++ [CallBotSend chatID text]) chatID text)
      as [e |] eqn:Hsend.
    + cbn [fst snd trace].
      exists 0%nat, text, e. replace (i + Z.of_nat 0 + 1) with (i + 1) by lia.
      repeat split; try first [reflexivity | exact Hsend]. intros j earlier Hj. lia.
    + run_go.
      match goal with
      | |- context [telegram.send_loop C chatID total (i + 1) rest ?w1] =>
          specialize (IH (i + 1) w1); cbv zeta in IH;
          destruct (telegram.send_loop C chatID total (i + 1) rest w1) as [[err |] w2]
      end; cbn [fst snd trace] in *.
      * destruct IH as (k & part & e & Hpart & Htrace & Hfail & Herr & Hearlier).
        exists (S k), part, e. rewrite client_answer_next.
        split; [exact Hpart | split; [| split; [exact Hfail | split]]].
        -- rewrite Htrace. cbn [take delivered flat_map].
           fold (delivered chatID (take k (marked total (i + 1) rest))).
           now rewrite <- !app_assoc.
        -- rewrite Herr. replace (i + 1 + Z.of_nat k + 1) with (i + Z.of_nat (S k) + 1)
             by lia. reflexivity.
        -- intros [|j] earlier Hj Hlookup.
           ++ cbn in Hlookup. injection Hlookup as <-. exact Hsend.
           ++ rewrite client_answer_next. apply Hearlier; [lia | exact Hlookup].
      * destruct IH as [Htrace Hall]. split.
        -- rewrite Htrace. cbn [delivered flat_map].
           fold (delivered chatID (marked total (i + 1) rest)).
           now rewrite <- !app_assoc.
        -- intros [|k] part Hlookup.
           ++ cbn in Hlookup. injection Hlookup as <-. exact Hsend.
           ++ rewrite client_answer_next. apply Hall. exact Hlookup.
Qed.

(** X17. A long send stops at the first part the client refuses. The parts
    are given to the client in order, each followed by a pause of 100 ms.
    When the client refuses the part of index [k], having accepted the
    parts before it, [SendMessage] returns
    ["failed to send message part {k+1}/{n}: {error}"], [n] being the number
    of parts, and nothing is sent after the refused part, not even the
    pause. When the client accepts every part, [SendMessage] returns no
    error and has sent them all. Conversely, whatever it returns, the calls
    it made and the answers it got are those of one of these two cases. *)
Theorem long_send_stops_at_the_first_failure (C : Collaborators) (chatID : Z)
        (text : string) (w : World) :
  len text > 4096 ->
  let chunks := telegram.split_loop text 0 [] in
  let parts := with_markers chunks in
  let t0 := trace w ++ [CallSendMessage chatID text] in
  let run := telegram.SendMessage C chatID text w in
  let refusal (k : nat) (e : error) :=
    "failed to send message part " +:+ fmt_d (Z.of_nat k + 1) +:+ "/"
    +:+ fmt_d (Z.of_nat (length chunks)) +:+ ": " +:+ e in
  (forall k part e,
      parts !! k = Some part ->
      (forall j earlier, (j < k)%nat -> parts !! j = Some earlier ->
                         client_answer C chatID t0 parts j earlier = None) ->
      client_answer C chatID t0 parts k part = Some e ->
      run.1 = Some (refusal k e)
      /\ trace run.2 = t0 ++ delivered chatID (take k parts) ++ [CallBotSend chatID part])
  /\ ((forall k part, parts !! k = Some part ->
                      client_answer C chatID t0 parts k part = None) ->
      run.1 = None /\ trace run.2 = t0 ++ delivered chatID parts)
  /\ match run.1 with
     | None =>
         trace run.2 = t0 ++ delivered chatID parts
         /\ forall k part, parts !! k = Some part ->
                           client_answer C chatID t0 parts k part = None
     | Some err =>
         exists (k : nat) (part e : string),
           parts !! k = Some part
           /\ trace run.2 = t0 ++ delivered chatID (take k parts) ++ [CallBotSend chatID part]
           /\ client_answer C chatID t0 parts k part = Some e
           /\ err = refusal k e
           /\ forall j earlier, (j < k)%nat -> parts !! j = Some earlier ->
                                client_answer C chatID t0 parts j earlier = None
     end.
Proof.
  intros Hlong chunks parts t0 run refusal.
  assert (Hcases :
            match run.1 with
            | None =>
                trace run.2 = t0 ++ delivered chatID parts
                /\ forall k part, parts !! k = Some part ->
                                  client_answer C chatID t0 parts k part = None
            | Some err =>
                exists (k : nat) (part e : string),
                  parts !! k = Some part
                  /\ trace run.2
                     = t0 ++ delivered chatID (take k parts) ++ [CallBotSend chatID part]
                  /\ client_answer C chatID t0 parts k part = Some e
                  /\ err = refusal k e
                  /\ forall j earlier, (j < k)%nat -> parts !! j = Some earlier ->
                                       client_answer C chatID t0 parts j earlier = None
            end).
  { subst run. unfold telegram.SendMessage.
    destruct (Z.gtb_spec (len text) 4096) as [_ | Hshort]; [| lia].
    rewrite !bind_run. unfold telegram.sendLongMessage. fold chunks. rewrite bind_run.
    match goal with
    | |- context [telegram.send_loop C chatID ?total 0 chunks ?w1] =>
        pose proof (send_loop_trace C chatID total chunks 0 w1) as Hloop;
        cbv zeta in Hloop;
        change (trace w1) with t0 in Hloop;
        destruct (telegram.send_loop C chatID total 0 chunks w1) as [[err |] w2]
    end; cbn [fst snd] in *; rewrite marked_with_markers in Hloop by lia;
      fold parts in Hloop.
    - unfold ret. cbn [fst snd]. exact Hloop.
    - run_go. exact Hloop. }
  split; [| split; [| exact Hcases]].
  - intros k part e Hpart Hearlier Hrefused.
    destruct run.1 as [err |].
    + destruct Hcases as (k' & part' & e' & Hpart' & Htrace & Hrefused' & Herr & Hearlier').
      destruct (Nat.lt_trichotomy k k') as [Hlt | [<- | Hgt]].
      * rewrite (Hearlier' k part Hlt Hpart) in Hrefused. discriminate Hrefused.
      * rewrite Hpart in Hpart'. injection Hpart' as <-.
        rewrite Hrefused in Hrefused'. injection Hrefused' as <-.
        split; [now rewrite Herr | exact Htrace].
      * rewrite (Hearlier k' part' Hgt Hpart') in Hrefused'. discriminate Hrefused'.
    + destruct Hcases as [_ Hall]. rewrite (Hall k part Hpart) in Hrefused.
      discriminate Hrefused.
  - intros Hall. destruct run.1 as [err |].
    + destruct Hcases as (k & part & e & Hpart & _ & Hrefused & _).
      rewrite (Hall k part Hpart) in Hrefused. discriminate Hrefused.
    + split; [reflexivity | apply Hcases].
Qed.

(** ** What the classification returns *)

(** X18. [ProcessMessage] fails in two cases only: the client returned an
    error, which comes back behind ["OpenAI API error: "], or it returned no
    choice, which comes back as ["no response from OpenAI"]. Otherwise the
    first choice becomes the intent, and the intent returned is never a
    [getEvents] without a date: a reply that does not decode becomes the
    action ["message"] with the reply as its message, and a decoded
    [getEvents] with an empty date is given the date ["today"]; nothing
    else of a decoded reply is changed. The store is only read. *)
Theorem ProcessMessage_returns_a_dated_intent (C : Collaborators)
        (userContext message : string) (w : World) :
  let run := ai.ProcessMessage C userContext message w in
  let prompt := ai.userPrompt userContext message in
  db run.2 = db w
  /\ trace run.2 = trace w ++ [CallNow; CallChatCompletion prompt]
  /\ match openai_CreateChatCompletion C (trace run.2) prompt with
     | Err e => run.1 = Err ("OpenAI API error: " +:+ e)
     | Ok [] => run.1 = Err "no response from OpenAI"
     | Ok (content :: _) =>
         exists aiResp,
           run.1 = Ok aiResp
           /\ (Action aiResp = "getEvents" -> EventDate aiResp <> "")
           /\ match json_Unmarshal_AIResponse C content with
              | None => aiResp = mkAIResponse "message" content "" "" "" "" "" "" []
              | Some raw =>
                  Action aiResp = Action raw /\ Message aiResp = Message raw
                  /\ EventID aiResp = EventID raw /\ EventTitle aiResp = EventTitle raw
                  /\ EventTime aiResp = EventTime raw /\ EventDesc aiResp = EventDesc raw
                  /\ EventLoc aiResp = EventLoc raw /\ Actions aiResp = Actions raw
                  /\ EventDate aiResp
                     = (if String.eqb (Action raw) "getEvents"
                           && String.eqb (EventDate raw) ""
                        then "today" else EventDate raw)
              end
     end.
Proof.
  intros run prompt. subst run.
  unfold ai.ProcessMessage. fold prompt. run_go. rewrite <- app_assoc. cbn [app].
  destruct (openai_CreateChatCompletion C _ prompt) as [[| content more] | e] eqn:Hreply;
    cbn [fst snd db trace]; rewrite ?Hreply; try (repeat split; reflexivity).
  destruct (json_Unmarshal_AIResponse C content) as [raw |] eqn:Hdecode.
  - destruct (String.eqb (Action raw) "getEvents") eqn:Hget;
      [destruct (String.eqb (EventDate raw) "") eqn:Hdate |];
      cbn [andb]; run_go; rewrite Hreply;
      (split; [reflexivity | split; [reflexivity |]]);
      eexists; (split; [reflexivity |]); rewrite Hdecode;
      cbn [Action Message EventID EventTitle EventDate EventTime EventDesc EventLoc
           Actions];
      rewrite ?Hget, ?Hdate; cbn [andb];
      (split; [| repeat split]);
      intros Ha;
      first [ discriminate
            | now apply String.eqb_neq
            | apply String.eqb_neq in Hget; contradiction ].
  - cbn [andb Action String.eqb Ascii.eqb Bool.eqb]. run_go. rewrite Hreply.
    split; [reflexivity | split; [reflexivity |]].
    eexists. split; [reflexivity |]. rewrite Hdecode. split; [| reflexivity].
    cbn [Action]. intros Hne. discriminate Hne.
Qed.

(** ** Reading back what was stored *)

Lemma drop_all_but_last {A : Type} (l : list A) (x : A) :
  last l = Some x -> drop (length l - 1) l = [x].
Proof.
  intros Hlast. destruct (last_Some l x) as [[l' ->] _]; [exact Hlast |].
  rewrite length_app. cbn [length].
  replace (length l' + 1 - 1)%nat with (length l') by lia.
  now rewrite drop_app_length.
Qed.

(** X19. What [AddInteraction] stores is what the readers return next: in
    the world it leaves, whether the save succeeded or not,
    [GetUserInteractions userID 1] is the new interaction alone, with the
    time the clock gave, and [GetUserContext userID 1] is its two lines,
    ["User: {message}\nAI: {response}\n\n"]. *)
Theorem added_interaction_is_read_back (C : Collaborators) (userID : Z)
        (um ar act : string) (w : World) :
  let w1 := (database.AddInteraction C userID um ar act w).2 in
  let new := mkInteraction userID (time_Now C (trace w ++ [CallNow])) um ar act in
  (database.GetUserInteractions userID 1 w1).1 = [new]
  /\ (database.GetUserContext userID 1 w1).1
     = "User: " +:+ um +:+ nl +:+ "AI: " +:+ ar +:+ nl +:+ nl.
Proof.
  intros w1 new.
  pose proof (AddInteraction_stored_same C userID um ar act w) as Hstored.
  cbv zeta in Hstored. fold w1 new in Hstored.
  pose proof (last_of_the_kept (stored w userID) new) as Hlast.
  rewrite <- Hstored in Hlast.
  pose proof (drop_all_but_last _ _ Hlast) as Hdrop.
  assert (Hpos : (0 < length (stored w1 userID))%nat).
  { destruct (stored w1 userID); [discriminate Hlast | cbn [length]; lia]. }
  assert (Hshown : shown w1 userID 1 = [new]).
  { unfold shown. cbn [Z.leb Z.compare]. rewrite <- Hdrop. f_equal. lia. }
  split.
  - unfold database.GetUserInteractions. run_go. fold (stored w1 userID).
    destruct (Z.eqb_spec (Z.of_nat (length (stored w1 userID))) 0) as [Hzero | _];
      [lia |].
    destruct (Z.gtb_spec (Z.of_nat (length (stored w1 userID))) 1) as [Hmore | Hone];
      cbn [andb Z.gtb Z.compare]; unfold ret; cbn [fst].
    + rewrite <- Hdrop. f_equal. lia.
    + rewrite <- Hdrop. replace (length (stored w1 userID) - 1)%nat with 0%nat by lia.
      reflexivity.
  - rewrite GetUserContext_run, Hshown. cbn [map concat_strings foldr fst].
    unfold format_interaction. cbn [i_UserMessage i_AIResponse].
    rewrite string_app_nil_r, ?string_app_assoc. reflexivity.
Qed.

(** ** When the calendar is written *)

Lemma write_calls_app (t l : list Call) :
  write_calls (t ++ l) = write_calls t ++ write_calls l.
Proof. apply List.filter_app. Qed.

Lemma write_calls_of_calendar (t : list Call) :
  write_calls (calendar_calls t) = write_calls t.
Proof.
  induction t as [|c t IH]; [reflexivity |].
  unfold write_calls, calendar_calls in *. cbn [List.filter].
  destruct c; cbn [is_calendar is_write List.filter]; now rewrite IH.
Qed.

Lemma step_calls_read (actions : list AIAction) : write_calls (step_calls actions) = [].
Proof.
  induction actions as [|a actions IH]; [reflexivity |]. cbn [step_calls].
  destruct (String.eqb (sub_Action a) "getEvents"); exact IH.
Qed.

(** The gateway calls of a run whose classification failed: none. *)
Lemma apologise_calls (C : Collaborators) (userID chatID : Z) (err : error) (w : World) :
  calendar_calls (trace (apologise C userID chatID err w).2) = calendar_calls (trace w).
Proof.
  assert (Happ : appends (fun c => negb (is_calendar c)) (apologise C userID chatID err)).
  { unfold apologise.
    repeat (first [ apply SendMessage_appends;
                    [reflexivity | intros c Hc; now destruct c]
                  | appends_step ]). }
  destruct (Happ w) as (l & Hl & Hall). rewrite Hl, calendar_calls_app.
  rewrite (calendar_calls_none _ l (fun c Hc => proj1 (negb_true_iff _) Hc) Hall).
  apply app_nil_r.
Qed.

(** X20. A message changes the calendar at most once, and only on an
    explicit request: the run of [ProcessUserMessage] makes a call of
    [CreateEvent], [UpdateEvent] or [DeleteEvent] only when the
    classification succeeded with a single intent (no action list) that is a
    [makeEvent], or a [delEvents] or [updtEvent] naming an event. In
    particular the steps of an action list never change the calendar,
    whatever they are called, and neither does a failed classification. *)
Theorem a_message_writes_at_most_once (C : Collaborators) (userID chatID : Z)
        (message : string) (w : World) :
  let final := ai.ProcessUserMessage C userID chatID message w in
  exists l,
    write_calls (trace final.2) = write_calls (trace w) ++ l
    /\ (length l <= 1)%nat
    /\ (l <> [] ->
        exists aiResponse w1,
          classify C userID message w = (Ok aiResponse, w1)
          /\ Actions aiResponse = []
          /\ (Action aiResponse = "makeEvent"
              \/ EventID aiResponse <> ""
                 /\ (Action aiResponse = "delEvents" \/ Action aiResponse = "updtEvent"))).
Proof.
  intros final.
  assert (Hnone : forall l : list Call,
             calendar_calls (trace final.2) = calendar_calls (trace w) ++ l ->
             write_calls l = [] ->
             exists l',
               write_calls (trace final.2) = write_calls (trace w) ++ l'
               /\ (length l' <= 1)%nat
               /\ (l' <> [] ->
                   exists aiResponse w1,
                     classify C userID message w = (Ok aiResponse, w1)
                     /\ Actions aiResponse = []
                     /\ (Action aiResponse = "makeEvent"
                         \/ EventID aiResponse <> ""
                            /\ (Action aiResponse = "delEvents"
                                \/ Action aiResponse = "updtEvent")))).
  { intros l Hcal Hread. exists []. split; [| split; [cbn; lia | congruence]].
    rewrite <- (write_calls_of_calendar (trace final.2)), Hcal, write_calls_app,
      write_calls_of_calendar, Hread. reflexivity. }
  destruct (classify C userID message w) as [[aiResponse | err] w1] eqn:Hclass.
  2: { apply (Hnone []); [| reflexivity]. unfold final.
       rewrite ProcessUserMessage_stages, Hclass, apologise_calls, app_nil_r.
       destruct (classify_appends C userID message w) as (l & Hl & Hall).
       rewrite Hclass in Hl. cbn [snd] in Hl.
       rewrite Hl, calendar_calls_app, (calendar_calls_none _ l internal_not_calendar Hall).
       apply app_nil_r. }
  set (w2 := dispatch_world C userID message aiResponse w1).
  pose proof (ProcessUserMessage_ok C userID chatID message w w1 aiResponse Hclass) as Hok.
  cbv zeta in Hok. fold w2 final in Hok.
  assert (Hone : forall c : Call,
             trace (ai.executeAIAction C userID aiResponse w2).2 = trace w2 ++ [c] ->
             Actions aiResponse = [] ->
             (Action aiResponse = "makeEvent"
              \/ EventID aiResponse <> ""
                 /\ (Action aiResponse = "delEvents" \/ Action aiResponse = "updtEvent")) ->
             exists l',
               write_calls (trace final.2) = write_calls (trace w) ++ l'
               /\ (length l' <= 1)%nat
               /\ (l' <> [] ->
                   exists aiResponse' w1',
                     (Ok aiResponse, w1) = (Ok aiResponse', w1')
                     /\ Actions aiResponse' = []
                     /\ (Action aiResponse' = "makeEvent"
                         \/ EventID aiResponse' <> ""
                            /\ (Action aiResponse' = "delEvents"
                                \/ Action aiResponse' = "updtEvent")))).
  { intros c Htrace Hactions Hkind. exists (write_calls [c]). split; [| split].
    - destruct (Hok _ Htrace) as (_ & Hcal & _).
      rewrite <- (write_calls_of_calendar (trace final.2)), Hcal, write_calls_app,
        write_calls_of_calendar. reflexivity.
    - unfold write_calls. cbn [List.filter]. destruct (is_write c); cbn [length]; lia.
    - intros _. exists aiResponse, w1. auto. }
  destruct (Actions aiResponse) as [|a actions] eqn:Hactions.
  2: { assert (Hsome : Actions aiResponse <> []) by (rewrite Hactions; discriminate).
       destruct (executeAIAction_multi C userID aiResponse w2 Hsome) as [_ Htrace].
       destruct (Hok _ Htrace) as (_ & Hcal & _).
       apply (Hnone _ Hcal), step_calls_read. }
  destruct (String.eqb_spec (Action aiResponse) "getEvents") as [Hget | Hget].
  { destruct (executeAIAction_single_getEvents C userID aiResponse w2 Hactions Hget)
      as [_ Htrace].
    destruct (Hok _ Htrace) as (_ & Hcal & _). apply (Hnone _ Hcal). reflexivity. }
  destruct (String.eqb_spec (Action aiResponse) "makeEvent") as [Hmake | Hmake].
  { destruct (executeAIAction_makeEvent C userID aiResponse w2 Hactions Hmake)
      as [_ Htrace].
    apply (Hone _ Htrace eq_refl). now left. }
  destruct (String.eqb_spec (EventID aiResponse) "") as [Hid | Hid].
  - destruct (String.eqb_spec (Action aiResponse) "delEvents") as [Hdel | Hdel];
      [| destruct (String.eqb_spec (Action aiResponse) "updtEvent") as [Hupdt | Hupdt]].
    + destruct (executeAIAction_missing_id C userID aiResponse w2 Hactions Hid)
        as [_ Htrace].
      specialize (Htrace (or_intror Hdel)). rewrite <- (app_nil_r (trace w2)) in Htrace.
      destruct (Hok _ Htrace) as (_ & Hcal & _). apply (Hnone _ Hcal). reflexivity.
    + destruct (executeAIAction_missing_id C userID aiResponse w2 Hactions Hid)
        as [_ Htrace].
      specialize (Htrace (or_introl Hupdt)). rewrite <- (app_nil_r (trace w2)) in Htrace.
      destruct (Hok _ Htrace) as (_ & Hcal & _). apply (Hnone _ Hcal). reflexivity.
    + destruct (executeAIAction_talk C userID aiResponse w2 Hactions Hget Hmake Hdel Hupdt)
        as [_ Htrace].
      destruct (Hok _ Htrace) as (_ & Hcal & _). apply (Hnone _ Hcal). reflexivity.
  - destruct (String.eqb_spec (Action aiResponse) "delEvents") as [Hdel | Hdel];
      [| destruct (String.eqb_spec (Action aiResponse) "updtEvent") as [Hupdt | Hupdt]].
    + destruct (executeAIAction_delEvents C userID aiResponse w2 Hactions Hdel Hid)
        as [_ Htrace].
      apply (Hone _ Htrace eq_refl). right. auto.
    + destruct (executeAIAction_updtEvent C userID aiResponse w2 Hactions Hupdt Hid)
        as [_ Htrace].
      apply (Hone _ Htrace eq_refl). right. auto.
    + destruct (executeAIAction_talk C userID aiResponse w2 Hactions Hget Hmake Hdel Hupdt)
        as [_ Htrace].
      destruct (Hok _ Htrace) as (_ & Hcal & _). apply (Hnone _ Hcal). reflexivity.
Qed.

(** ** What [ProcessUserMessage] returns, logs and tells the user *)

Lemma logs_more_ret {A : Type} (a : A) : logs_more (ret a).
Proof. intros w. exists []. now rewrite app_nil_r. Qed.

Lemma logs_more_bind {A B : Type} (m : M A) (k : A -> M B) :
  logs_more m -> (forall a, logs_more (k a)) -> logs_more (bind m k).
Proof.
  intros Hm Hk w. rewrite bind_run. destruct (Hm w) as (l1 & H1).
  destruct (Hk (m w).1 (m w).2) as (l2 & H2).
  exists (l1 ++ l2). now rewrite H2, H1, app_assoc.
Qed.

Lemma logs_more_log (format : string) (args : list LogArg) :
  logs_more (log_Printf format args).
Proof. intros w. now exists [mkLog format args]. Qed.

Lemma logs_more_call {A : Type} (c : Call) (answer : list Call -> A) :
  logs_more (call c answer).
Proof. intros w. exists []. now rewrite app_nil_r. Qed.

(** Decompose a computation into its log lines. *)
Ltac logs_more_step :=
  first
    [ apply logs_more_ret
    | apply logs_more_log
    | apply logs_more_call
    | apply logs_more_bind; [| intros ?]
    | match goal with
      | |- logs_more (if ?b then _ else _) => destruct b
      | |- logs_more (match ?x with _ => _ end) => destruct x
      | |- logs_more (let _ := _ in _) => cbv zeta
      end ].

Lemma logs_more_send_loop (C : Collaborators) (chatID total : Z) (rest : list string) :
  forall i, logs_more (telegram.send_loop C chatID total i rest).
Proof.
  induction rest as [|m rest IH]; intros i; cbn [telegram.send_loop].
  - apply logs_more_ret.
  - unfold enter. repeat logs_more_step. apply IH.
Qed.

Lemma logs_more_SendMessage (C : Collaborators) (chatID : Z) (text : string) :
  logs_more (telegram.SendMessage C chatID text).
Proof.
  unfold telegram.SendMessage, telegram.sendLongMessage, enter.
  repeat logs_more_step. apply logs_more_send_loop.
Qed.

Lemma logs_more_actions_loop (C : Collaborators) (userID total : Z) (rest : list AIAction) :
  forall i response, logs_more (ai.actions_loop C userID total i rest response).
Proof.
  induction rest as [|action rest IH]; intros i response; cbn [ai.actions_loop].
  - apply logs_more_ret.
  - unfold calendar.GetEvents.
    apply logs_more_bind; [apply logs_more_log | intros _].
    apply logs_more_bind; [repeat logs_more_step | intros ?; apply IH].
Qed.

Lemma logs_more_executeAIAction (C : Collaborators) (userID : Z) (aiResponse : AIResponse) :
  logs_more (ai.executeAIAction C userID aiResponse).
Proof.
  unfold ai.executeAIAction.
  apply logs_more_bind; [apply logs_more_log | intros _].
  apply logs_more_bind; [apply logs_more_log | intros _].
  apply logs_more_bind; [| intros ?; repeat logs_more_step].
  destruct (Z.of_nat (length (Actions aiResponse)) >? 0).
  - apply logs_more_bind; [apply logs_more_log | intros _]. apply logs_more_actions_loop.
  - unfold ai.single_getEvents, calendar.GetEvents, calendar.CreateEvent,
      calendar.DeleteEvent, calendar.UpdateEvent.
    repeat logs_more_step.
Qed.

Lemma logs_more_respond (C : Collaborators) (userID chatID : Z) (response : string) :
  logs_more (respond C userID chatID response).
Proof.
  unfold respond. repeat (first [apply logs_more_SendMessage | logs_more_step]).
Qed.

Lemma concat_strings_cons (x : string) (l : list string) :
  concat_strings (x :: l) = x +:+ concat_strings l.
Proof. reflexivity. Qed.

(** What [AddInteraction] returns does not depend on the log. *)
Lemma AddInteraction_result (C : Collaborators) (userID : Z) (um ar act : string)
      (w w' : World) :
  db w = db w' -> trace w = trace w' ->
  (database.AddInteraction C userID um ar act w).1
  = (database.AddInteraction C userID um ar act w').1.
Proof.
  intros Hdb Htrace.
  unfold database.AddInteraction, database.saveInteractions. run_go.
  rewrite Hdb, Htrace.
  destruct (json_MarshalIndent C _) as [data | e]; [| reflexivity].
  run_go. now destruct (os_WriteFile C _ _ _).
Qed.

(** [SendMessage] on a text that needs no splitting. *)
Lemma SendMessage_short (C : Collaborators) (chatID : Z) (text : string) (w : World) :
  len text <= 4096 ->
  (telegram.SendMessage C chatID text w).1
  = match tgbot_Send C (trace w ++ [CallSendMessage chatID text; CallBotSend chatID text])
                     chatID text with
    | Some e => Some ("failed to send message: " +:+ e)
    | None => None
    end.
Proof.
  intros Hshort. unfold telegram.SendMessage.
  destruct (Z.gtb_spec (len text) 4096) as [Hlong | _]; [lia |].
  run_go. rewrite <- app_assoc. now destruct (tgbot_Send C _ chatID text).
Qed.

(** Claim C1, as stated, fails: when the model is down the classification
    error is returned although every send succeeds. *)
Lemma classification_error_escapes :
  (ai.ProcessUserMessage demo.C 7 70 "crash" demo.fresh).1
  = Some "OpenAI API error: connection refused"
  /\ ~ only_send_failures_escape demo.C 7 70 "crash" demo.fresh.
Proof.
  split; [reflexivity |].
  intros Honly. destruct (Honly _ eq_refl) as (t & text & e & Hsend).
  discriminate Hsend.
Qed.

(** Claim C1, amended. [ProcessUserMessage] returns an error in two cases
    only. When the classification fails it returns the classification
    error, after giving the apology to the notification sink and without
    calling the gateway; when the client refuses the apology, that failure
    is written to the log of the run and not returned. Otherwise it returns
    exactly what the send of the final response returns, and the text sent
    is the text of the dispatch: the dispatch returns no error; a failure to
    persist the interaction is written to the log of the run and not
    returned; and a failure of the gateway becomes text of the response,
    ["Error getting events: "], ["Error creating event: "],
    ["Error deleting event: "] or ["Error updating event: "] followed by
    the cause for a single action, and the line
    ["Error getting events for {date}: {cause}"] for a step of an action
    list. *)
Theorem returned_error_is_classification_or_final_send (C : Collaborators)
        (userID chatID : Z) (message : string) (w : World) :
  let final := ai.ProcessUserMessage C userID chatID message w in
  match classify C userID message w with
  | (Err err, w1) =>
      final.1 = Some err
      /\ sink_calls (trace final.2) = sink_calls (trace w) ++ [(chatID, apology)]
      /\ calendar_calls (trace final.2) = calendar_calls (trace w)
      /\ forall e,
           tgbot_Send C (trace w1 ++ [CallSendMessage chatID apology;
                                      CallBotSend chatID apology]) chatID apology
           = Some e ->
           In (mkLog "Failed to send error message: %v"
                     [LErr (Some ("failed to send message: " +:+ e))])
              (logs final.2)
  | (Ok aiResponse, w1) =>
      let w2 := dispatch_world C userID message aiResponse w1 in
      let run := ai.executeAIAction C userID aiResponse w2 in
      final.1 = (telegram.SendMessage C chatID run.1.1
                   (sending_world userID run.1.1 run.2)).1
      /\ run.1.2 = None
      /\ sink_calls (trace final.2) = sink_calls (trace w) ++ [(chatID, run.1.1)]
      /\ (forall e,
            (database.AddInteraction C userID message (Message aiResponse)
                                     (Action aiResponse) w1).1 = Some e ->
            In (mkLog "Failed to store interaction for user %d: %v"
                      [LInt userID; LErr (Some e)])
               (logs final.2))
      /\ (Actions aiResponse = [] ->
          (Action aiResponse = "getEvents" ->
           forall e,
             gateway_answer C (trace w2) (EventDate aiResponse) = Err e ->
             run.1.1 = "Error getting events: " +:+ e)
          /\ (Action aiResponse = "makeEvent" ->
              forall e,
                calendar_insert C
                  (trace w2 ++ [CallCreateEvent (EventTitle aiResponse)
                                  (EventDate aiResponse) (EventTime aiResponse)
                                  (EventDesc aiResponse) (EventLoc aiResponse)])
                  (EventTitle aiResponse) (EventDate aiResponse) (EventTime aiResponse)
                  (EventDesc aiResponse) (EventLoc aiResponse) = Some e ->
                run.1.1 = "Error creating event: " +:+ e)
          /\ (Action aiResponse = "delEvents" -> EventID aiResponse <> "" ->
              forall e,
                calendar_delete C (trace w2 ++ [CallDeleteEvent (EventID aiResponse)])
                                (EventID aiResponse) = Some e ->
                run.1.1 = "Error deleting event: " +:+ e)
          /\ (Action aiResponse = "updtEvent" -> EventID aiResponse <> "" ->
              forall e,
                calendar_update C
                  (trace w2 ++ [CallUpdateEvent (EventID aiResponse)
                                  (EventTitle aiResponse) (EventDate aiResponse)
                                  (EventTime aiResponse) (EventDesc aiResponse)
                                  (EventLoc aiResponse)])
                  (EventID aiResponse) (EventTitle aiResponse) (EventDate aiResponse)
                  (EventTime aiResponse) (EventDesc aiResponse) (EventLoc aiResponse)
                = Some e ->
                run.1.1 = "Error updating event: " +:+ e))
      /\ (forall before a after e,
            Actions aiResponse = before ++ a :: after ->
            sub_Action a = "getEvents" ->
            gateway_answer C (trace w2 ++ step_calls before) (sub_EventDate a) = Err e ->
            exists above below,
              run.1.1
              = above +:+ ("Error getting events for " +:+ sub_EventDate a +:+ ": "
                           +:+ e +:+ nl) +:+ below)
  end.
Proof.
  intros final. unfold final. rewrite ProcessUserMessage_stages.
  destruct (classify_appends C userID message w) as (l1 & H1 & Hall1).
  destruct (classify C userID message w) as [[aiResponse | err] w1] eqn:Hclass;
    cbn [snd] in H1.
  - cbv zeta.
    set (w2 := dispatch_world C userID message aiResponse w1).
    set (run := ai.executeAIAction C userID aiResponse w2).
    split; [| split; [| split; [| split; [| split]]]].
    + unfold respond, sending_world. rewrite !bind_run.
      now destruct (telegram.SendMessage C chatID _ _).1.
    + apply executeAIAction_no_error.
    + destruct (respond_calls C userID chatID run.1.1 run.2) as (Hsink & _).
      rewrite Hsink. f_equal.
      destruct (executeAIAction_appends C userID aiResponse w2) as (l3 & H3 & Hall3).
      destruct (persist_appends C userID message aiResponse w1) as (l2 & H2 & Hall2).
      fold (dispatch_world C userID message aiResponse w1) in H2. fold w2 in H2.
      fold run in H3. rewrite H3, H2, H1, !sink_calls_app.
      rewrite (sink_calls_none _ l1 internal_not_sink Hall1),
        (sink_calls_none _ l2 internal_not_sink Hall2),
        (sink_calls_none _ l3 calendar_not_sink Hall3).
      now rewrite !app_nil_r.
    + intros e He.
      destruct (logs_more_respond C userID chatID run.1.1 run.2) as (l4 & H4).
      destruct (logs_more_executeAIAction C userID aiResponse w2) as (l3 & H3).
      fold run in H3. rewrite H4, H3, !in_app_iff. left. left.
      unfold w2, dispatch_world, persist. rewrite !bind_run.
      match goal with
      | |- context [(database.AddInteraction C userID message ?resp ?act ?wl).1] =>
          rewrite (AddInteraction_result C userID message resp act wl w1 eq_refl eq_refl)
      end.
      rewrite He.
      unfold log_Printf. cbn [fst snd logs]. rewrite !in_app_iff. cbn. tauto.
    + intros Hactions. split; [| split; [| split]].
      * intros Haction e He.
        destruct (executeAIAction_single_getEvents C userID aiResponse w2 Hactions Haction)
          as [Htext _].
        fold run in Htext. rewrite Htext, GetEvents_answer. cbn [fst].
        unfold gateway_answer in He. now rewrite He.
      * intros Haction e He.
        destruct (executeAIAction_makeEvent C userID aiResponse w2 Hactions Haction)
          as [Htext _].
        fold run in Htext. now rewrite Htext, He.
      * intros Haction Hid e He.
        destruct (executeAIAction_delEvents C userID aiResponse w2 Hactions Haction Hid)
          as [Htext _].
        fold run in Htext. now rewrite Htext, He.
      * intros Haction Hid e He.
        destruct (executeAIAction_updtEvent C userID aiResponse w2 Hactions Haction Hid)
          as [Htext _].
        fold run in Htext. now rewrite Htext, He.
    + intros before a after e Hsplit Haction He.
      assert (Hsome : Actions aiResponse <> []).
      { rewrite Hsplit. now destruct before. }
      destruct (executeAIAction_multi C userID aiResponse w2 Hsome) as [Htext _].
      fold run in Htext. rewrite Htext, Hsplit, step_blocks_app.
      cbn [step_blocks]. rewrite Haction. cbn [String.eqb Ascii.eqb Bool.eqb].
      rewrite He, concat_strings_app.
      exists (Message aiResponse +:+ nl +:+ nl
              +:+ concat_strings (step_blocks C (trace w2) before)),
             (concat_strings
                (step_blocks C ((trace w2 ++ step_calls before)
                                ++ [CallGetEvents (sub_EventDate a)]) after)).
      rewrite concat_strings_cons. unfold getEvents_block.
      rewrite !string_app_assoc. reflexivity.
  - unfold apologise. rewrite !bind_run. fold apology.
    set (w1' := (log_Printf "AI processing error for user %d: %v"
                            [LInt userID; LErr (Some err)] w1).2).
    destruct (SendMessage_trace C chatID apology w1') as (l & Hl & Hall).
    pose proof (SendMessage_short C chatID apology w1' ltac:(vm_compute; discriminate))
      as Hshort.
    destruct (telegram.SendMessage C chatID apology w1') as [sendErr w2].
    cbn [fst snd] in *. unfold w1' in Hl. rewrite log_trace, H1 in Hl.
    assert (Htrace : trace (match sendErr with
                            | Some e => log_Printf "Failed to send error message: %v"
                                                   [LErr (Some e)]
                            | None => ret tt
                            end w2).2
                     = (trace w ++ l1) ++ CallSendMessage chatID apology :: l)
      by now destruct sendErr.
    change (ret (Some err) ?x) with (Some err, x). cbn [fst snd].
    split; [reflexivity |]. rewrite Htrace.
    rewrite !sink_calls_app, !calendar_calls_app, sink_calls_entry, calendar_calls_entry.
    rewrite (sink_calls_none _ l1 internal_not_sink Hall1).
    rewrite (sink_calls_none _ l transmission_not_sink Hall).
    rewrite (calendar_calls_none _ l1 internal_not_calendar Hall1).
    rewrite (calendar_calls_none _ l transmission_not_calendar Hall).
    rewrite !app_nil_r. split; [reflexivity | split; [reflexivity |]].
    intros e He. change (trace w1') with (trace w1) in Hshort.
    rewrite He in Hshort. rewrite Hshort. unfold log_Printf. cbn [snd logs].
    rewrite in_app_iff. right. now left.
Qed.

(** * The file of the store, saved and loaded *)

(** ** String literals, written and read *)

Section StringLiterals.
Import utf8 json_string.

Lemma coerce_copy0 (s : string) : coerce_from (Copy 0) s = coerce_from Ready s.
Proof. now destruct s. Qed.

Lemma coerce_skip0 (s : string) : coerce_from (Skip 0) s = coerce_from Ready s.
Proof. now destruct s. Qed.

Lemma escape_copy0 (s : string) : escape_from (Copy 0) s = escape_from Ready s.
Proof. now destruct s. Qed.

Lemma escape_skip0 (s : string) : escape_from (Skip 0) s = escape_from Ready s.
Proof. now destruct s. Qed.

Lemma unquote_copy0 (s : string) : unquote_from (Copy 0) s = unquote_from Ready s.
Proof. now destruct s. Qed.

(** An escaped ASCII byte is read back as that byte. *)
Lemma unquote_escape_ascii (c : ascii) (X : string) :
  byte c < 128 ->
  unquote_from Ready (escape_ascii c +:+ X)
  = prepend (String c EmptyString) (unquote_from Ready X).
Proof.
  destruct c as [[] [] [] [] [] [] [] []]; intros Hc;
    first [ exfalso; vm_compute in Hc; discriminate Hc | reflexivity ].
Qed.

Lemma rune_width_le (s : string) (k : nat) :
  rune_width s = Some k -> (0 < k <= String.length s)%nat.
Proof.
  unfold rune_width. destruct s as [|c0 [|c1 [|c2 [|c3 s4]]]]; cbn [String.length];
    repeat match goal with
           | |- context [if ?b then _ else _] => destruct b
           end;
    intros [= <-]; lia.
Qed.

(** The bytes of a valid encoding are still one when what follows them
    changes. *)
Lemma rune_width_copied (c : ascii) (r X : string) (n : nat) :
  128 <= byte c ->
  rune_width (String c r) = Some (S n) ->
  rune_width (String c (escape_from (Copy n) r +:+ X)) = Some (S n).
Proof.
  intros Hc. unfold rune_width.
  destruct (Z.ltb_spec (byte c) 128) as [Hlt | _]; [lia |].
  destruct r as [|c1 [|c2 [|c3 r4]]];
    repeat match goal with
           | |- context [if ?b then _ else _] => destruct b eqn:?
           end;
    intros [= <-]; cbn [escape_from]; rewrite ?string_app_cons;
    repeat match goal with
           | H : ?b = _ |- context [?b] => rewrite H
           end; reflexivity.
Qed.

Lemma line_separator_bytes (c : ascii) (r : string) (digit : Z) :
  line_separator (String c r) = Some digit ->
  exists c2 r3,
    r = String (chr 128) (String c2 r3)
    /\ c = chr 226
    /\ (byte c2 = 168 /\ digit = 8 \/ byte c2 = 169 /\ digit = 9)
    /\ rune_width (String c r) = Some 3%nat.
Proof.
  unfold line_separator. destruct r as [|c1 [|c2 r3]]; try discriminate.
  destruct (Z.eqb_spec (byte c) 226) as [H0 | _]; [| discriminate].
  destruct (Z.eqb_spec (byte c1) 128) as [H1 | _]; [| discriminate].
  cbn [andb].
  assert (Hchr : forall a n, byte a = n -> a = chr n).
  { intros a n <-. unfold chr, byte. now rewrite N2Z.id, ascii_N_embedding. }
  apply Hchr in H0, H1. subst c c1.
  destruct (Z.eqb_spec (byte c2) 168) as [H2 | _];
    [| destruct (Z.eqb_spec (byte c2) 169) as [H2 | _]; [| discriminate]];
    cbn [orb]; intros [= <-]; exists c2, r3; rewrite H2;
    (split; [reflexivity | split; [reflexivity | split; [auto |]]]);
    apply Hchr in H2; subst c2; reflexivity.
Qed.

(** A [\u] escape of a code point that is no surrogate half is read as
    the encoding of that code point. *)
Lemma unquote_u (h1 h2 h3 h4 : ascii) (X : string) (r : Z) :
  unhex4 h1 h2 h3 h4 = Some r ->
  r < 55296 \/ 57344 <= r ->
  unquote_from Ready
    (String backslash (String "u" (String h1 (String h2 (String h3 (String h4 X))))))
  = prepend (encode_rune r) (unquote_from Ready X).
Proof.
  intros Hhex Hrange.
  change (match unhex4 h1 h2 h3 h4 with
          | Some r =>
              if (55296 <=? r) && (r <? 57344) then
                match (if r <? 56320 then low_surrogate X else None) with
                | Some (r2, _) =>
                    match X with
                    | String _ (String _ (String _ (String _ (String _ (String _ rest11))))) =>
                        prepend (encode_rune ((r - 55296) * 1024 + (r2 - 56320) + 65536))
                                (unquote_from Ready rest11)
                    | _ => None
                    end
                | None => prepend replacement (unquote_from Ready X)
                end
              else prepend (encode_rune r) (unquote_from Ready X)
          | None => None
          end = prepend (encode_rune r) (unquote_from Ready X)).
  rewrite Hhex.
  destruct (Z.leb_spec 55296 r), (Z.ltb_spec r 57344); cbn [andb]; try reflexivity; lia.
Qed.

(** Reading the literal that [appendString] writes gives the text with its
    invalid bytes replaced, and stops after the closing quote. *)
Lemma unquote_escape_from (s : string) :
  (forall rest,
      unquote_from Ready (escape_from Ready s +:+ String quote rest)
      = Some (coerce_from Ready s, rest))
  /\ (forall n rest,
         (n <= String.length s)%nat ->
         unquote_from (Copy n) (escape_from (Copy n) s +:+ String quote rest)
         = Some (coerce_from (Copy n) s, rest))
  /\ (forall n rest,
         (n <= String.length s)%nat ->
         unquote_from Ready (escape_from (Skip n) s +:+ String quote rest)
         = Some (coerce_from (Skip n) s, rest)).
Proof.
  induction s as [|c r (IHready & IHcopy & IHskip)].
  - split; [reflexivity | split]; intros [|n] rest Hn;
      first [reflexivity | cbn in Hn; lia].
  - assert (Hready : forall rest,
               unquote_from Ready (escape_from Ready (String c r) +:+ String quote rest)
               = Some (coerce_from Ready (String c r), rest)).
    { intros rest. cbn [escape_from coerce_from].
      destruct (Z.ltb_spec (byte c) 128) as [Hascii | Hhigh].
      - rewrite string_app_assoc, unquote_escape_ascii, IHready by exact Hascii.
        assert (Hwidth : rune_width (String c r) = Some 1%nat).
        { unfold rune_width. now destruct (Z.ltb_spec (byte c) 128); [| lia]. }
        rewrite Hwidth, coerce_copy0. reflexivity.
      - destruct (rune_width (String c r)) as [[|n] |] eqn:Hwidth.
        + apply rune_width_le in Hwidth. lia.
        + destruct (line_separator (String c r)) as [digit |] eqn:Hsep.
          * destruct (line_separator_bytes c r digit Hsep)
              as (c2 & r3 & -> & -> & Hdigit & Hthree).
            rewrite Hthree in Hwidth. injection Hwidth as <-.
            rewrite !string_app_cons.
            specialize (IHskip 2%nat rest ltac:(cbn; lia)).
            assert (Hc2 : forall n, byte c2 = n -> c2 = chr n).
            { intros k <-. unfold chr, byte. now rewrite N2Z.id, ascii_N_embedding. }
            destruct Hdigit as [[H2 ->] | [H2 ->]]; apply Hc2 in H2; subst c2;
              [rewrite (unquote_u "2" "0" "2" (hex 8) _ 8232 eq_refl) by lia
              | rewrite (unquote_u "2" "0" "2" (hex 9) _ 8233 eq_refl) by lia];
              rewrite IHskip; cbn [prepend coerce_from];
              rewrite coerce_skip0, coerce_copy0; reflexivity.
          * rewrite string_app_cons. cbn [unquote_from].
            destruct (Z.eqb_spec (byte c) 34); [lia |].
            destruct (Z.eqb_spec (byte c) 92); [lia |].
            destruct (Z.ltb_spec (byte c) 32); [lia |].
            destruct (Z.ltb_spec (byte c) 128); [lia |].
            rewrite (rune_width_copied c r _ n Hhigh Hwidth).
            rewrite IHcopy; [reflexivity |].
            apply rune_width_le in Hwidth. cbn in Hwidth. lia.
        + rewrite !string_app_cons.
          rewrite (unquote_u "f" "f" "f" "d" _ 65533 eq_refl) by lia.
          rewrite IHready. reflexivity. }
    split; [exact Hready | split].
    + intros [|n] rest Hn.
      * rewrite unquote_copy0, escape_copy0, coerce_copy0. apply Hready.
      * cbn [escape_from coerce_from]. rewrite string_app_cons. cbn [unquote_from].
        rewrite IHcopy by (cbn in Hn; lia). reflexivity.
    + intros [|n] rest Hn.
      * rewrite escape_skip0, coerce_skip0. apply Hready.
      * cbn [escape_from coerce_from]. apply IHskip. cbn in Hn. lia.
Qed.

End StringLiterals.

(** ** Numbers and documents, written and read *)

Section Documents.
Import utf8 json_string strconv json.

Lemma nzhead_head (d : Decimal.uint) :
  match Decimal.nzhead d with Decimal.D0 _ => False | _ => True end.
Proof. induction d; cbn; auto. Qed.

Lemma to_uint_normal (p : positive) : normal (Pos.to_uint p) = true.
Proof.
  assert (H : Pos.to_uint p = Decimal.unorm (Pos.to_uint p)).
  { rewrite <- DecimalPos.Unsigned.to_of, DecimalPos.Unsigned.of_to. reflexivity. }
  rewrite H. unfold Decimal.unorm.
  pose proof (nzhead_head (Pos.to_uint p)) as Hhead.
  destruct (Decimal.nzhead (Pos.to_uint p)); try reflexivity. contradiction.
Qed.

Lemma scan_digits (d : Decimal.uint) :
  scan_number Digits (NilEmpty.string_of_uint d) = Some (NilEmpty.string_of_uint d, EmptyString).
Proof.
  induction d; cbn [NilEmpty.string_of_uint]; [reflexivity | ..];
    cbn [scan_number]; change (number_step Digits _) with (Some Digits);
    cbv iota; rewrite IHd; reflexivity.
Qed.

Lemma scan_normal (st : number_state) (d : Decimal.uint) :
  st = Begin \/ st = Neg ->
  normal d = true ->
  scan_number st (NilEmpty.string_of_uint d) = Some (NilEmpty.string_of_uint d, EmptyString).
Proof.
  intros Hst Hd.
  destruct d as [|d|d|d|d|d|d|d|d|d|d]; try discriminate Hd;
    [destruct d; try discriminate Hd; destruct Hst as [-> | ->]; reflexivity | ..];
    cbn [NilEmpty.string_of_uint scan_number];
    (replace (number_step st _) with (Some Digits)
      by (destruct Hst as [-> | ->]; reflexivity));
    cbv iota; rewrite scan_digits; reflexivity.
Qed.

Lemma FormatInt_literal (n : Z) : number_literal (FormatInt n) = true.
Proof.
  unfold number_literal, FormatInt.
  destruct n as [|p|p]; cbn [Z.to_int NilEmpty.string_of_int].
  - reflexivity.
  - rewrite scan_normal; auto using to_uint_normal.
  - cbn [scan_number]. change (number_step Begin "-") with (Some Neg). cbv iota.
    rewrite scan_normal; auto using to_uint_normal.
Qed.

Lemma digit_head (d : Decimal.uint) :
  d <> Decimal.Nil ->
  exists c rest, NilEmpty.string_of_uint d = String c rest /\ is_digit c = true.
Proof.
  destruct d; [congruence | ..]; intros _; cbn [NilEmpty.string_of_uint];
    eexists _, _; (split; [reflexivity | reflexivity]).
Qed.

Lemma is_digit_byte (c : ascii) : is_digit c = true -> 48 <= byte c <= 57.
Proof. unfold is_digit, between. lia. Qed.

(** A formatted [int64] is parsed back to itself. *)
Lemma ParseInt_FormatInt (n : Z) :
  - 2 ^ 63 <= n < 2 ^ 63 -> ParseInt (FormatInt n) = Some n.
Proof.
  intros Hn. unfold ParseInt, FormatInt.
  assert (Hrange : (- 2 ^ 63 <=? n) && (n <? 2 ^ 63) = true) by lia.
  destruct n as [|p|p]; cbn [Z.to_int NilEmpty.string_of_int].
  - reflexivity.
  - destruct (digit_head (Pos.to_uint p) (DecimalPos.Unsigned.to_uint_nonnil p))
      as (c & rest & Htext & Hc).
    rewrite Htext. apply is_digit_byte in Hc.
    destruct (Z.eqb_spec (byte c) 43); [lia |].
    destruct (Z.eqb_spec (byte c) 45); [lia |].
    rewrite <- Htext, NilEmpty.usu.
    replace (Z.of_uint (Pos.to_uint p)) with (Z.pos p)
      by (unfold Z.of_uint; now rewrite DecimalPos.Unsigned.of_to).
    now rewrite Hrange.
  - change (byte "-" =? 43) with false. change (byte "-" =? 45) with true. cbv iota.
    destruct (digit_head (Pos.to_uint p) (DecimalPos.Unsigned.to_uint_nonnil p))
      as (c & rest & Htext & Hc).
    rewrite Htext, <- Htext, NilEmpty.usu.
    replace (Z.of_uint (Pos.to_uint p)) with (Z.pos p)
      by (unfold Z.of_uint; now rewrite DecimalPos.Unsigned.of_to).
    change (- Z.pos p) with (Z.neg p). now rewrite Hrange.
Qed.

Lemma number_stops (st : number_state) (c : ascii) :
  (byte c =? 44) || (byte c =? 10) = true -> number_step st c = None.
Proof.
  intros Hc. unfold number_step, is_digit, between.
  assert (H : byte c = 44 \/ byte c = 10) by lia.
  destruct st; destruct H as [-> | ->]; reflexivity.
Qed.

Lemma scan_number_app (literal : string) :
  forall (st : number_state) (read rest : string),
    scan_number st literal = Some (read, EmptyString) ->
    after_value rest = true ->
    scan_number st (literal +:+ rest) = Some (literal, rest).
Proof.
  induction literal as [|c literal IH]; intros st read rest Hscan Hrest.
  - cbn [scan_number] in Hscan. change (EmptyString +:+ rest) with rest.
    destruct (complete st) eqn:Hst; [| discriminate].
    destruct rest as [|c rest]; cbn [scan_number]; [now rewrite Hst |].
    rewrite number_stops by exact Hrest. now rewrite Hst.
  - rewrite string_app_cons. cbn [scan_number] in Hscan |- *.
    destruct (number_step st c) as [st' |].
    + destruct (scan_number st' literal) as [[read' rest'] |] eqn:Hrec; [| discriminate].
      cbn [prepend] in Hscan. injection Hscan as _ ->.
      rewrite (IH st' read' rest Hrec Hrest). reflexivity.
    + destruct (complete st); discriminate.
Qed.

Lemma number_literal_head (literal : string) :
  number_literal literal = true ->
  exists c rest, literal = String c rest /\ (byte c = 45 \/ 48 <= byte c <= 57).
Proof.
  unfold number_literal. destruct literal as [|c rest]; [discriminate |].
  intros H. exists c, rest. split; [reflexivity |].
  cbn [scan_number] in H. unfold number_step at 1 in H.
  destruct (Z.eqb_spec (byte c) 45); [now left |].
  destruct (Z.eqb_spec (byte c) 48); [right; lia |].
  destruct (is_digit c) eqn:Hd; [right; now apply is_digit_byte |].
  discriminate.
Qed.

(** *** Reading what was written *)

Lemma skip_space_spaces (depth : nat) (X : string) :
  skip_space (spaces depth +:+ X) = skip_space X.
Proof. induction depth as [|depth IH]; [reflexivity | exact IH]. Qed.

Lemma skip_space_newline (depth : nat) (X : string) :
  skip_space (newline depth +:+ X) = skip_space X.
Proof. exact (skip_space_spaces depth X). Qed.

Lemma parse_value_newline (fuel depth : nat) (X : string) :
  parse_value fuel (newline depth +:+ X) = parse_value fuel X.
Proof. destruct fuel; [reflexivity |]. cbn [parse_value]. now rewrite skip_space_newline. Qed.

Lemma parse_members_newline (fuel depth : nat) (X : string) :
  parse_members fuel (newline depth +:+ X) = parse_members fuel X.
Proof. destruct fuel; [reflexivity |]. cbn [parse_members]. now rewrite skip_space_newline. Qed.

Lemma substring_prefix (a b : string) : substring 0 (String.length a) (a +:+ b) = a.
Proof.
  induction a as [|c a IH]; [now destruct b |].
  rewrite string_app_cons. cbn [String.length substring]. now rewrite IH.
Qed.

(** The first character of a written value: no white space and no closing
    bracket. *)
Lemma print_head (depth : nat) (v : value) :
  well_formed v ->
  exists c rest,
    print depth v = String c rest
    /\ is_space c = false /\ (byte c =? 93) = false /\ (byte c =? 125) = false.
Proof.
  intros Hv. destruct Hv as [| [] | literal Hlit | literal text _ | [|item items] _
                             | [|member members] _];
    try (eexists _, _; split; [reflexivity | repeat split; reflexivity]).
  destruct (number_literal_head literal Hlit) as (c & rest & -> & Hc).
  exists c, rest. split; [reflexivity |]. unfold is_space. repeat split; lia.
Qed.

Lemma skip_space_print (depth : nat) (v : value) (X : string) :
  well_formed v -> skip_space (print depth v +:+ X) = print depth v +:+ X.
Proof.
  intros Hv. destruct (print_head depth v Hv) as (c & rest & -> & Hc & _).
  rewrite string_app_cons. cbn [skip_space]. now rewrite Hc.
Qed.

Lemma parse_value_string (fuel : nat) (body : string) :
  parse_value (S fuel) (String quote body)
  = match unquote_from Ready body with
    | Some (text, rest') =>
        Some (Str (substring 0 (String.length body - String.length rest' - 1) body) text,
              rest')
    | None => None
    end.
Proof. reflexivity. Qed.

Lemma parse_value_array (fuel : nat) (body : string) :
  parse_value (S fuel) (String "[" body)
  = match skip_space body with
    | String c' rest' =>
        if byte c' =? 93 then Some (Array [], rest')
        else
          match parse_items fuel body with
          | Some (items, rest) => Some (Array items, rest)
          | None => None
          end
    | EmptyString => None
    end.
Proof. reflexivity. Qed.

Lemma parse_value_object (fuel : nat) (body : string) :
  parse_value (S fuel) (String "{" body)
  = match skip_space body with
    | String c' rest' =>
        if byte c' =? 125 then Some (Object [], rest')
        else
          match parse_members fuel body with
          | Some (members, rest) => Some (Object members, rest)
          | None => None
          end
    | EmptyString => None
    end.
Proof. reflexivity. Qed.

Lemma parse_value_items (fuel : nat) (body : string) (c : ascii) (r : string) :
  skip_space body = String c r -> (byte c =? 93) = false ->
  parse_value (S fuel) (String "[" body)
  = match parse_items fuel body with
    | Some (items, rest) => Some (Array items, rest)
    | None => None
    end.
Proof. intros Hskip Hc. now rewrite parse_value_array, Hskip, Hc. Qed.

Lemma parse_value_members (fuel : nat) (body : string) (c : ascii) (r : string) :
  skip_space body = String c r -> (byte c =? 125) = false ->
  parse_value (S fuel) (String "{" body)
  = match parse_members fuel body with
    | Some (members, rest) => Some (Object members, rest)
    | None => None
    end.
Proof. intros Hskip Hc. now rewrite parse_value_object, Hskip, Hc. Qed.

Lemma parse_members_key (fuel : nat) (key X : string) :
  coerce key = key ->
  parse_members (S fuel) (append_string key +:+ ": " +:+ X)
  = match parse_value fuel X with
    | Some (item, rest) =>
        match skip_space rest with
        | String c rest =>
            if byte c =? 44 then
              match parse_members fuel rest with
              | Some (members, rest) => Some ((key, item) :: members, rest)
              | None => None
              end
            else if byte c =? 125 then Some ([(key, item)], rest)
            else None
        | EmptyString => None
        end
    | None => None
    end.
Proof.
  intros Hkey. unfold append_string. rewrite string_app_cons, string_app_assoc.
  change (String quote EmptyString +:+ ": " +:+ X) with (String quote (": " +:+ X)).
  cbn [parse_members skip_space]. change (is_space quote) with false.
  change (byte quote =? 34) with true. cbv iota.
  rewrite (proj1 (unquote_escape_from key)). fold (coerce key). rewrite Hkey.
  change (": " +:+ X) with (String ":" (String " " X)).
  cbn [skip_space]. change (is_space ":") with false. change (byte ":" =? 58) with true.
  cbv iota. destruct fuel as [|fuel]; [reflexivity |].
  cbn [parse_value skip_space]. change (is_space " ") with true. cbv iota. reflexivity.
Qed.

Lemma list_sum_cons (k : nat) (l : list nat) : list_sum (k :: l) = (k + list_sum l)%nat.
Proof. reflexivity. Qed.

Lemma size_array (items : list value) :
  size (Array items) = S (list_sum (map (fun item => S (size item)) items)).
Proof. reflexivity. Qed.

Lemma size_object (members : list (string * value)) :
  size (Object members) = S (list_sum (map (fun member => S (size member.2)) members)).
Proof. reflexivity. Qed.

Section Elements.
Variable n : nat.
Hypothesis IH :
  forall (v : value) (depth fuel : nat) (X : string),
    (size v <= n)%nat -> (size v <= fuel)%nat ->
    well_formed v -> after_value X = true ->
    parse_value fuel (print depth v +:+ X) = Some (v, X).

Lemma parse_items_print (depth : nat) (X : string) (items : list value) :
  forall (item : value) (fuel : nat),
    Forall well_formed (item :: items) ->
    (list_sum (map (fun item => S (size item)) (item :: items)) <= n)%nat ->
    (list_sum (map (fun item => S (size item)) (item :: items)) <= fuel)%nat ->
    parse_items fuel
      (newline (S depth) +:+ print (S depth) item
       +:+ concat_strings
             (map (fun item => String "," (newline (S depth) +:+ print (S depth) item))
                  items)
       +:+ newline depth +:+ String "]" X)
    = Some (item :: items, X).
Proof.
  induction items as [|next items IHitems];
    intros item fuel Hwf Hsize Hfuel; inversion Hwf as [|? ? Hitem Hrest]; subst;
    cbn [map] in Hsize, Hfuel; rewrite list_sum_cons in Hsize, Hfuel;
    (destruct fuel as [|fuel]; [lia |]);
    cbn [parse_items]; rewrite parse_value_newline.
  - rewrite IH; [| lia | lia | exact Hitem | reflexivity].
    change (concat_strings (map _ []) +:+ ?Y) with Y.
    rewrite skip_space_newline. reflexivity.
  - rewrite IH; [| lia | lia | exact Hitem | reflexivity].
    cbn [map]. rewrite concat_strings_cons, !string_app_assoc, string_app_cons, !string_app_assoc.
    change (skip_space (String "," ?Y)) with (String "," Y).
    change (byte "," =? 44) with true. cbv iota. rewrite IHitems; [reflexivity | exact Hrest | cbn [map]; lia | cbn [map]; lia].
Qed.

Lemma parse_members_print (depth : nat) (X : string) (members : list (string * value)) :
  forall (member : string * value) (fuel : nat),
    Forall (fun member => coerce member.1 = member.1 /\ well_formed member.2)
           (member :: members) ->
    (list_sum (map (fun member => S (size member.2)) (member :: members)) <= n)%nat ->
    (list_sum (map (fun member => S (size member.2)) (member :: members)) <= fuel)%nat ->
    parse_members fuel
      (newline (S depth) +:+ append_string member.1 +:+ ": " +:+ print (S depth) member.2
       +:+ concat_strings
             (map (fun member =>
                     String "," (newline (S depth) +:+ append_string member.1 +:+ ": "
                                 +:+ print (S depth) member.2))
                  members)
       +:+ newline depth +:+ String "}" X)
    = Some (member :: members, X).
Proof.
  induction members as [|next members IHmembers];
    intros [key item] fuel Hwf Hsize Hfuel;
    inversion Hwf as [|? ? [Hkey Hitem] Hrest]; subst;
    cbn [map fst snd] in Hsize, Hfuel, Hkey, Hitem |- *;
    rewrite list_sum_cons in Hsize, Hfuel;
    (destruct fuel as [|fuel]; [lia |]);
    rewrite parse_members_newline, (parse_members_key _ _ _ Hkey).
  - rewrite IH; [| lia | lia | exact Hitem | reflexivity].
    change (concat_strings [] +:+ ?Y) with Y.
    rewrite skip_space_newline. reflexivity.
  - rewrite IH; [| lia | lia | exact Hitem | reflexivity].
    rewrite concat_strings_cons, !string_app_assoc, string_app_cons, !string_app_assoc.
    change (skip_space (String "," ?Y)) with (String "," Y).
    change (byte "," =? 44) with true. cbv iota.
    rewrite (IHmembers next fuel);
      [reflexivity | exact Hrest | cbn [map]; lia | cbn [map]; lia].
Qed.

End Elements.

(** A written document is read back as it is, whatever follows it. *)
Lemma parse_print (n : nat) :
  forall (v : value) (depth fuel : nat) (X : string),
    (size v <= n)%nat -> (size v <= fuel)%nat ->
    well_formed v -> after_value X = true ->
    parse_value fuel (print depth v +:+ X) = Some (v, X).
Proof.
  induction n as [|n IH]; intros v depth fuel X Hn Hfuel Hv HX.
  { destruct v; cbn in Hn; lia. }
  destruct fuel as [|fuel]; [destruct v; cbn in Hfuel; lia |].
  destruct Hv as [| [] | literal Hlit | literal text Htext | items Hitems
                  | members Hmembers]; try reflexivity.
  - (* a number *)
    destruct (number_literal_head literal Hlit) as (c & rest & Hhead & Hc).
    unfold number_literal in Hlit.
    destruct (scan_number Begin literal) as [[read [|]] |] eqn:Hscan; try discriminate.
    pose proof (scan_number_app literal Begin read X Hscan HX) as Happ.
    cbn [print]. rewrite Hhead in Happ |- *. rewrite string_app_cons in Happ |- *.
    assert (Hspace : is_space c = false) by (unfold is_space; lia).
    cbn [parse_value skip_space]. rewrite Hspace.
    repeat match goal with
           | |- context [byte c =? ?k] => destruct (Z.eqb_spec (byte c) k); [lia |]
           end.
    now rewrite Happ.
  - (* a string *)
    cbn [print]. rewrite string_app_cons, string_app_assoc.
    change (String quote EmptyString +:+ X) with (String quote X).
    rewrite parse_value_string, Htext, string_length_app. cbn [String.length].
    replace (String.length literal + S (String.length X) - String.length X - 1)%nat
      with (String.length literal) by lia.
    now rewrite substring_prefix.
  - (* an array *)
    destruct items as [|item items]; [reflexivity |].
    cbn [print]. rewrite string_app_cons, !string_app_assoc.
    change ("]" +:+ X) with (String "]" X).
    inversion Hitems as [|? ? Hitem Hrest]; subst.
    destruct (print_head (S depth) item Hitem) as (c & r & Hprint & Hc & Hclose & _).
    rewrite size_array in Hn, Hfuel.
    erewrite parse_value_items;
      [rewrite (parse_items_print n IH); [reflexivity | exact Hitems | lia | lia]
      | rewrite skip_space_newline, (skip_space_print _ _ _ Hitem), Hprint, string_app_cons;
        reflexivity
      | exact Hclose].
  - (* an object *)
    destruct members as [|[key item] members]; [reflexivity |].
    cbn [print fst snd]. rewrite string_app_cons, !string_app_assoc.
    change ("}" +:+ X) with (String "}" X).
    rewrite size_object in Hn, Hfuel.
    erewrite parse_value_members;
      [rewrite (parse_members_print n IH depth X members (key, item));
       [reflexivity | exact Hmembers | lia | lia]
      | rewrite skip_space_newline; unfold append_string; rewrite string_app_cons;
        reflexivity
      | reflexivity].
Qed.

Lemma newline_length (depth : nat) :
  String.length (newline depth) = S (String.length (spaces depth)).
Proof. reflexivity. Qed.

Section Lengths.
Variable n : nat.
Hypothesis IH :
  forall (v : value) (depth : nat),
    (size v <= n)%nat -> well_formed v -> (size v <= String.length (print depth v))%nat.

Lemma size_items (depth : nat) (items : list value) :
  Forall well_formed items ->
  (list_sum (map (fun item => S (size item)) items) <= n)%nat ->
  (list_sum (map (fun item => S (size item)) items)
   <= String.length
        (concat_strings
           (map (fun item => String "," (newline depth +:+ print depth item)) items)))%nat.
Proof.
  induction items as [|item items IHitems]; intros Hwf Hsize; [cbn; lia |].
  inversion Hwf as [|? ? Hitem Hrest]; subst.
  cbn [map] in Hsize |- *. rewrite list_sum_cons in Hsize |- *.
  rewrite concat_strings_cons, string_length_app. cbn [String.length].
  rewrite string_length_app.
  pose proof (IH item depth ltac:(lia) Hitem). specialize (IHitems Hrest ltac:(lia)). lia.
Qed.

Lemma size_members (depth : nat) (members : list (string * value)) :
  Forall (fun member => coerce member.1 = member.1 /\ well_formed member.2) members ->
  (list_sum (map (fun member => S (size member.2)) members) <= n)%nat ->
  (list_sum (map (fun member => S (size member.2)) members)
   <= String.length
        (concat_strings
           (map (fun member =>
                   String "," (newline depth +:+ append_string member.1 +:+ ": "
                               +:+ print depth member.2))
                members)))%nat.
Proof.
  induction members as [|member members IHmembers]; intros Hwf Hsize; [cbn; lia |].
  inversion Hwf as [|? ? [_ Hitem] Hrest]; subst.
  cbn [map] in Hsize |- *. rewrite list_sum_cons in Hsize |- *.
  rewrite concat_strings_cons, string_length_app. cbn [String.length].
  rewrite !string_length_app.
  pose proof (IH member.2 depth ltac:(lia) Hitem). specialize (IHmembers Hrest ltac:(lia)).
  lia.
Qed.

End Lengths.

(** A written document has at least as many characters as it has nodes. *)
Lemma size_print (n : nat) :
  forall (v : value) (depth : nat),
    (size v <= n)%nat -> well_formed v -> (size v <= String.length (print depth v))%nat.
Proof.
  induction n as [|n IH]; intros v depth Hn Hv.
  { destruct v; cbn in Hn; lia. }
  destruct Hv as [| [] | literal Hlit | literal text Htext | items Hitems
                  | members Hmembers]; try (cbn; lia).
  - destruct (number_literal_head literal Hlit) as (c & rest & -> & _). cbn. lia.
  - destruct items as [|item items]; [cbn; lia |].
    inversion Hitems as [|? ? Hitem Hrest]; subst.
    rewrite size_array in Hn |- *. cbn [map] in Hn |- *. rewrite list_sum_cons in Hn |- *.
    cbn [print String.length]. rewrite !string_length_app.
    pose proof (IH item (S depth) ltac:(lia) Hitem).
    pose proof (size_items n IH (S depth) items Hrest ltac:(lia)).
    rewrite !newline_length. cbn [String.length]. lia.
  - destruct members as [|member members]; [cbn; lia |].
    inversion Hmembers as [|? ? [_ Hitem] Hrest]; subst.
    rewrite size_object in Hn |- *. cbn [map] in Hn |- *. rewrite list_sum_cons in Hn |- *.
    cbn [print String.length]. rewrite !string_length_app.
    pose proof (IH member.2 (S depth) ltac:(lia) Hitem).
    pose proof (size_members n IH (S depth) members Hrest ltac:(lia)).
    rewrite !newline_length. cbn [String.length]. lia.
Qed.

(** [Indent] and the scan of [Unmarshal] are inverse to each other. *)
Lemma parse_print_document (v : value) :
  well_formed v -> parse (print 0 v) = Some v.
Proof.
  intros Hv. unfold parse.
  rewrite <- (string_app_nil_r (print 0 v)) at 2.
  rewrite (parse_print (size v));
    [reflexivity | lia | | exact Hv | reflexivity].
  pose proof (size_print (size v) v 0 (le_n _) Hv). lia.
Qed.

End Documents.

(** ** The text of a time *)

Section Times.
Import utf8 rfc3339.

Lemma byte_chr (n : Z) : 0 <= n < 256 -> byte (chr n) = n.
Proof.
  intros Hn. unfold byte, chr. rewrite N_ascii_embedding; lia.
Qed.

Lemma digit_byte (n : Z) : byte (digit n) = 48 + n mod 10.
Proof. unfold digit. apply byte_chr. Z.to_euclidean_division_equations. lia. Qed.

Lemma number_two (n lo hi : Z) :
  0 <= n -> lo <= n mod 100 <= hi ->
  number (digit (n / 10)) (digit n) lo hi = Some (n mod 100).
Proof.
  intros Hn Hrange. unfold number, is_digit, between. rewrite !digit_byte.
  replace ((48 + (n / 10) mod 10 - 48) * 10 + (48 + n mod 10 - 48)) with (n mod 100)
    by (Z.to_euclidean_division_equations; lia).
  replace ((48 <=? 48 + (n / 10) mod 10) && (48 + (n / 10) mod 10 <=? 57)
           && ((48 <=? 48 + n mod 10) && (48 + n mod 10 <=? 57))) with true
    by (symmetry; Z.to_euclidean_division_equations; lia).
  replace ((lo <=? n mod 100) && (n mod 100 <=? hi)) with true by lia.
  reflexivity.
Qed.

Lemma all_range_spec (check : Z -> bool) (p : positive) :
  forall lo, all_range p lo check = true ->
             forall z, lo <= z < lo + Z.pos p -> check z = true.
Proof.
  induction p as [q IH | q IH |]; intros lo Hall z Hz; cbn [all_range] in Hall.
  - apply andb_prop in Hall as [Hall Hhigh]. apply andb_prop in Hall as [Hlo Hlow].
    destruct (Z.eq_dec z lo) as [-> | Hne]; [exact Hlo |].
    destruct (Z_lt_le_dec z (lo + 1 + Z.pos q)).
    + apply (IH (lo + 1) Hlow). lia.
    + apply (IH (lo + 1 + Z.pos q) Hhigh). lia.
  - apply andb_prop in Hall as [Hlow Hhigh].
    destruct (Z_lt_le_dec z (lo + Z.pos q)).
    + apply (IH lo Hlow). lia.
    + apply (IH (lo + Z.pos q) Hhigh). lia.
  - replace z with lo by lia. exact Hall.
Qed.

Lemma cycle_days_ok : all_range 146097 0 cycle_day_ok = true.
Proof. vm_compute. reflexivity. Qed.

Lemma isLeap_cycle (year cycles : Z) : isLeap (year + cycles * 400) = isLeap year.
Proof.
  unfold isLeap.
  replace ((year + cycles * 400) mod 4) with (year mod 4)
    by (Z.to_euclidean_division_equations; lia).
  replace ((year + cycles * 400) mod 100) with (year mod 100)
    by (Z.to_euclidean_division_equations; lia).
  replace ((year + cycles * 400) mod 400) with (year mod 400)
    by (Z.to_euclidean_division_equations; lia).
  reflexivity.
Qed.

(** The date of a day is a date of the calendar, and the day of that
    date. *)
Lemma civil_from_days_spec (days : Z) :
  let '(year, month, day) := civil_from_days days in
  1 <= month <= 12 /\ 1 <= day <= daysIn month year
  /\ days_from_civil year month day = days.
Proof.
  unfold civil_from_days.
  pose proof (all_range_spec cycle_day_ok 146097 0 cycle_days_ok
                ((days + 719468) mod 146097)
                ltac:(Z.to_euclidean_division_equations; lia)) as Hok.
  unfold cycle_day_ok in Hok.
  destruct (date_in_cycle ((days + 719468) mod 146097)) as [[y m] d].
  set (cycles := (days + 719468) / 146097) in *.
  assert (Hday : 0 <= y < 400 /\ 1 <= m <= 12 /\ 1 <= d
                 /\ d <= daysIn m (if m <=? 2 then y + 1 else y)
                 /\ day_in_cycle y m d = (days + 719468) mod 146097) by lia.
  clear Hok. destruct Hday as (Hy & Hm & Hd & Hlast & Hcycle).
  assert (Hin : daysIn m (if m <=? 2 then y + cycles * 400 + 1 else y + cycles * 400)
                = daysIn m (if m <=? 2 then y + 1 else y)).
  { unfold daysIn.
    replace (if m <=? 2 then y + cycles * 400 + 1 else y + cycles * 400)
      with ((if m <=? 2 then y + 1 else y) + cycles * 400) by (destruct (m <=? 2); lia).
    now rewrite isLeap_cycle. }
  rewrite Hin. split; [exact Hm | split; [lia |]].
  unfold days_from_civil.
  replace (if m <=? 2
           then (if m <=? 2 then y + cycles * 400 + 1 else y + cycles * 400) - 1
           else if m <=? 2 then y + cycles * 400 + 1 else y + cycles * 400)
    with (y + cycles * 400) by (destruct (m <=? 2); lia).
  replace ((y + cycles * 400) / 400) with cycles
    by (Z.to_euclidean_division_equations; lia).
  replace ((y + cycles * 400) mod 400) with y
    by (Z.to_euclidean_division_equations; lia).
  rewrite Hcycle. subst cycles. Z.to_euclidean_division_equations. lia.
Qed.

Lemma number_small (n lo hi : Z) :
  0 <= n < 100 -> lo <= n <= hi ->
  number (digit (n / 10)) (digit n) lo hi = Some n.
Proof.
  intros Hn Hrange. rewrite number_two; [f_equal | lia |];
    Z.to_euclidean_division_equations; lia.
Qed.

Lemma Parse_fields (year month day hour min sec : Z) (zone : string) :
  0 <= year <= 9999 -> 1 <= month <= 12 -> 1 <= day <= daysIn month year ->
  0 <= hour <= 23 -> 0 <= min <= 59 -> 0 <= sec <= 59 ->
  Parse (four year (String "-" (two month (String "-" (two day (String "T"
           (two hour (String ":" (two min (String ":" (two sec zone)))))))))))
  = match parse_zone (skip_fraction zone) with
    | Some offset =>
        Some (mkTime (days_from_civil year month day * 86400
                      + hour * 3600 + min * 60 + sec - offset) offset)
    | None => None
    end.
Proof.
  intros Hyear Hmonth Hday Hhour Hmin Hsec.
  assert (Hlast : daysIn month year <= 31).
  { unfold daysIn. repeat match goal with |- context [if ?b then _ else _] => destruct b end;
      lia. }
  cbv beta iota delta [Parse four two].
  rewrite (number_small (year / 100) 0 99), (number_two year 0 99);
    try (Z.to_euclidean_division_equations; lia).
  cbv beta iota zeta.
  replace (year / 100 * 100 + year mod 100) with year
    by (Z.to_euclidean_division_equations; lia).
  rewrite (number_small month 1 12) by lia. cbv beta iota zeta.
  rewrite (number_small day 1 (daysIn month year)), (number_small hour 0 23),
    (number_small min 0 59), (number_small sec 0 59) by lia.
  reflexivity.
Qed.

Lemma parse_format_zone (offset : Z) :
  offset mod 60 = 0 -> Z.abs (Z.quot offset 60) / 60 < 24 ->
  parse_zone (skip_fraction (format_zone offset)) = Some offset.
Proof.
  intros Hminutes Hhours. unfold format_zone.
  destruct (Z.eqb_spec offset 0) as [-> | Hoffset]; [reflexivity |].
  set (zone := Z.quot offset 60) in *.
  assert (Hskip : forall sign rest,
             (byte sign =? 46) = false ->
             skip_fraction (String sign rest) = String sign rest).
  { intros sign rest Hsign. unfold skip_fraction. destruct rest; [reflexivity |].
    now rewrite Hsign. }
  destruct (Z.ltb_spec zone 0) as [Hneg | Hpos]; rewrite Hskip by reflexivity;
    cbv beta iota delta [parse_zone two];
    rewrite (number_small (Z.abs zone / 60) 0 23), (number_small (Z.abs zone mod 60) 0 59)
      by (Z.to_euclidean_division_equations; lia);
    cbv beta iota;
    [change (byte ":" =? 58) with true; change (byte "-" =? 45) with true
    | change (byte ":" =? 58) with true; change (byte "+" =? 45) with false;
      change (byte "+" =? 43) with true];
    cbn [andb orb]; f_equal; subst zone; Z.to_euclidean_division_equations; lia.
Qed.

(** The text of a time whose zone is a whole number of minutes from UTC is
    read back as that time. *)
Lemma Parse_Format (t : Time) (text : string) :
  Format t = Some text -> zone_offset t mod 60 = 0 -> Parse text = Some t.
Proof.
  unfold Format.
  pose proof (civil_from_days_spec ((unix t + zone_offset t) / 86400)) as Hcivil.
  destruct (civil_from_days ((unix t + zone_offset t) / 86400)) as [[year month] day].
  destruct Hcivil as (Hmonth & Hday & Hdays).
  destruct ((year <? 0) || (9999 <? year)) eqn:Hyear; [discriminate |].
  destruct (24 <=? Z.abs (Z.quot (zone_offset t) 60) / 60) eqn:Hzone; [discriminate |].
  intros [= <-] Hminutes.
  rewrite Parse_fields, parse_format_zone;
    try solve [lia | Z.to_euclidean_division_equations; lia].
  rewrite Hdays. destruct t as [seconds offset]. cbn [unix zone_offset] in *.
  f_equal. f_equal. Z.to_euclidean_division_equations. lia.
Qed.

End Times.

(** ** The table, written and read *)

Section Table.
Import utf8 json_string strconv json json_table.

Lemma escape_plain (s : string) : plain s = true -> escape_from Ready s = s.
Proof.
  induction s as [|c s IH]; [reflexivity |]. cbn [plain escape_from].
  intros [Hc Hs]%andb_prop. unfold plain_char in Hc.
  destruct (Z.ltb_spec (byte c) 128) as [_ | Hhigh]; [| lia].
  rewrite (IH Hs). unfold escape_ascii.
  repeat match goal with
         | |- context [if ?b then _ else _] => destruct b eqn:?; [lia |]
         end.
  reflexivity.
Qed.

Lemma coerce_plain (s : string) : plain s = true -> coerce s = s.
Proof.
  unfold coerce. induction s as [|c s IH]; [reflexivity |]. cbn [plain coerce_from].
  intros [Hc Hs]%andb_prop. unfold plain_char in Hc.
  assert (Hwidth : rune_width (String c s) = Some 1%nat).
  { unfold rune_width. destruct (Z.ltb_spec (byte c) 128); [reflexivity | lia]. }
  now rewrite Hwidth, coerce_copy0, (IH Hs).
Qed.

Lemma unquote_plain (s rest : string) :
  plain s = true -> unquote_from Ready (s +:+ String quote rest) = Some (s, rest).
Proof.
  intros Hs. pose proof (proj1 (unquote_escape_from s) rest) as H.
  rewrite (escape_plain s Hs) in H. fold (coerce s) in H. now rewrite (coerce_plain s Hs) in H.
Qed.

Lemma plain_digit (n : Z) : plain_char (rfc3339.digit n) = true.
Proof.
  unfold plain_char. rewrite digit_byte. Z.to_euclidean_division_equations. lia.
Qed.

Lemma plain_two (n : Z) (rest : string) : plain (rfc3339.two n rest) = plain rest.
Proof. unfold rfc3339.two. cbn [plain]. now rewrite !plain_digit. Qed.

Lemma plain_Format (t : Time) (text : string) :
  rfc3339.Format t = Some text -> plain text = true.
Proof.
  unfold rfc3339.Format.
  destruct (rfc3339.civil_from_days _) as [[year month] day].
  repeat match goal with
         | |- context [if ?b then _ else _] => destruct b; [discriminate |]
         end.
  intros [= <-]. unfold rfc3339.four.
  repeat (rewrite plain_two
          || match goal with
             | |- plain (String ?c ?r) = true => change (plain r = true)
             end).
  unfold rfc3339.format_zone. destruct (_ =? 0); [reflexivity |].
  destruct (_ <? 0);
    repeat (rewrite plain_two
            || match goal with
               | |- plain (String ?c ?r) = true => change (plain r = true)
               end); reflexivity.
Qed.

Lemma plain_uint (d : Decimal.uint) : plain (NilEmpty.string_of_uint d) = true.
Proof. induction d; cbn [NilEmpty.string_of_uint]; [reflexivity | ..]; exact IHd. Qed.

Lemma plain_FormatInt (n : Z) : plain (FormatInt n) = true.
Proof.
  unfold FormatInt. destruct (Z.to_int n); cbn [NilEmpty.string_of_int];
    [| change (plain (String "-" ?r)) with (plain r)]; apply plain_uint.
Qed.

Lemma string_value_wf (text : string) : well_formed (string_value text).
Proof. apply wf_str. intros rest. apply (proj1 (unquote_escape_from text)). Qed.

Lemma interaction_value_wf (i : Interaction) (v : value) :
  interaction_value i = Some v -> well_formed v.
Proof.
  unfold interaction_value. destruct (rfc3339.Format (i_Timestamp i)) as [stamp |] eqn:Hstamp;
    [| discriminate].
  intros [= <-]. apply wf_object. cbn [app].
  apply Forall_cons; split; [split; [reflexivity | apply wf_number, FormatInt_literal] |].
  apply Forall_cons; split;
    [split; [reflexivity
            | apply wf_str; intros rest; apply unquote_plain, (plain_Format _ _ Hstamp)] |].
  apply Forall_cons; split; [split; [reflexivity | apply string_value_wf] |].
  apply Forall_cons; split; [split; [reflexivity | apply string_value_wf] |].
  destruct (i_Action i); constructor; [split; [reflexivity | apply string_value_wf] |].
  constructor.
Qed.

Lemma decode_member_user_id (i : Interaction) (v : value) :
  decode_member i ("user_id", v)
  = (fun n => mkInteraction n (i_Timestamp i) (i_UserMessage i) (i_AIResponse i) (i_Action i))
      <$> decode_int64 v (i_UserID i).
Proof. reflexivity. Qed.

Lemma decode_member_timestamp (i : Interaction) (v : value) :
  decode_member i ("timestamp", v)
  = (fun t => mkInteraction (i_UserID i) t (i_UserMessage i) (i_AIResponse i) (i_Action i))
      <$> decode_time v (i_Timestamp i).
Proof. reflexivity. Qed.

Lemma decode_member_user_message (i : Interaction) (v : value) :
  decode_member i ("user_message", v)
  = (fun s => mkInteraction (i_UserID i) (i_Timestamp i) s (i_AIResponse i) (i_Action i))
      <$> decode_string v (i_UserMessage i).
Proof. reflexivity. Qed.

Lemma decode_member_ai_response (i : Interaction) (v : value) :
  decode_member i ("ai_response", v)
  = (fun s => mkInteraction (i_UserID i) (i_Timestamp i) (i_UserMessage i) s (i_Action i))
      <$> decode_string v (i_AIResponse i).
Proof. reflexivity. Qed.

Lemma decode_member_action (i : Interaction) (v : value) :
  decode_member i ("action", v)
  = (fun s => mkInteraction (i_UserID i) (i_Timestamp i) (i_UserMessage i) (i_AIResponse i) s)
      <$> decode_string v (i_Action i).
Proof. reflexivity. Qed.

(** What is written for an interaction is read as the interaction, its
    texts coerced. *)
Lemma decode_interaction_value (i : Interaction) (v : value) :
  interaction_value i = Some v -> representable i ->
  decode_interaction v = Some (coerce_interaction i).
Proof.
  unfold interaction_value, representable, int64.
  destruct (rfc3339.Format (i_Timestamp i)) as [stamp |] eqn:Hstamp; [| discriminate].
  intros [= <-] [Hid Hzone]. cbn [decode_interaction app decode_members].
  rewrite decode_member_user_id. cbn [decode_int64].
  rewrite (ParseInt_FormatInt _ Hid). cbn [fmap option_fmap option_map].
  rewrite decode_member_timestamp. cbn [decode_time].
  rewrite (Parse_Format _ _ Hstamp Hzone). cbn [fmap option_fmap option_map].
  rewrite decode_member_user_message. cbn [decode_string string_value fmap option_fmap option_map].
  rewrite decode_member_ai_response. cbn [decode_string string_value fmap option_fmap option_map].
  unfold coerce_interaction.
  destruct (i_Action i) as [|c action]; cbn [decode_members]; [reflexivity |].
  rewrite decode_member_action. reflexivity.
Qed.

Lemma list_value_wf (l : list Interaction) (v : value) :
  list_value l = Some v -> well_formed v.
Proof.
  unfold list_value. destruct (mapM interaction_value l) as [items |] eqn:Hitems;
    [| discriminate].
  intros [= <-]. apply wf_array. apply mapM_Some_1 in Hitems.
  induction Hitems as [|i item l items Hitem _ IH]; constructor;
    eauto using interaction_value_wf.
Qed.

Lemma decode_list_value (l : list Interaction) (v : value) :
  list_value l = Some v -> Forall representable l ->
  decode_list v = Some (map coerce_interaction l).
Proof.
  unfold list_value. destruct (mapM interaction_value l) as [items |] eqn:Hitems;
    [| discriminate].
  intros [= <-] Hl. cbn [decode_list]. apply mapM_Some_2. apply mapM_Some_1 in Hitems.
  induction Hitems as [|i item l items Hitem _ IH]; cbn [map]; constructor;
    inversion Hl; subst; eauto using decode_interaction_value.
Qed.

Lemma decode_entries (entries : list (Z * list Interaction)) :
  forall (members : list (string * value)) (m : gmap Z (list Interaction)),
    mapM (fun entry => pair (FormatInt entry.1) <$> list_value entry.2) entries
    = Some members ->
    Forall representable_entry entries ->
    decode_members decode_entry m members
    = Some (foldl (fun m entry => <[entry.1 := map coerce_interaction entry.2]> m) m entries).
Proof.
  intros members m Hmembers. apply mapM_Some_1 in Hmembers. revert m.
  induction Hmembers as [|[userID l] member entries members Hmember _ IH];
    intros m Hentries; [reflexivity |].
  inversion Hentries as [|? ? [Hid Hl] Hrest]; subst. cbn [fst snd] in *.
  destruct (list_value l) as [v |] eqn:Hv; [| discriminate].
  injection Hmember as <-. cbn [decode_members foldl fst snd]. unfold decode_entry at 1.
  cbn [fst snd]. rewrite (ParseInt_FormatInt _ Hid), (decode_list_value l v Hv Hl).
  apply IH, Hrest.
Qed.

Lemma entries_wf (entries : list (Z * list Interaction)) (members : list (string * value)) :
  mapM (fun entry => pair (FormatInt entry.1) <$> list_value entry.2) entries = Some members ->
  Forall (fun member => coerce member.1 = member.1 /\ well_formed member.2) members.
Proof.
  intros Hmembers. apply mapM_Some_1 in Hmembers.
  induction Hmembers as [|[userID l] member entries members Hmember _ IH]; constructor;
    [| exact IH].
  cbn [fst snd] in Hmember. destruct (list_value l) as [v |] eqn:Hv; [| discriminate].
  injection Hmember as <-. split; [apply coerce_plain, plain_FormatInt |].
  exact (list_value_wf l v Hv).
Qed.

(** Storing entries with distinct keys one after the other gives the map
    that holds them. *)
Lemma foldl_insert_entries {A B : Type} (f : A -> B) (entries : list (Z * A)) :
  forall m : gmap Z B,
    NoDup entries.*1 ->
    foldl (fun m entry => <[entry.1 := f entry.2]> m) m entries
    = list_to_map (prod_map id f <$> entries) ∪ m.
Proof.
  induction entries as [|[k a] entries IH]; intros m Hnodup; cbn [foldl fmap list_fmap].
  - cbn [list_to_map foldr]. now rewrite (left_id_L ∅ (∪)).
  - inversion Hnodup as [|? ? Hfresh Hrest]; subst. cbn [fst snd] in *.
    rewrite (IH _ Hrest). cbn [list_to_map foldr prod_map fst snd id].
    rewrite <- insert_union_l. symmetry. apply insert_union_r.
    apply not_elem_of_list_to_map_1.
    rewrite <- list_fmap_compose.
    now replace (fst ∘ prod_map id f) with (@fst Z A) by reflexivity.
Qed.

(** What [MarshalIndent] writes for a table, [Unmarshal] reads as the
    table, its texts coerced. *)
Lemma Unmarshal_MarshalIndent (m : gmap Z (list Interaction)) (data : string) :
  MarshalIndent m = Some data -> representable_table m ->
  Unmarshal data = Some (coerce_table m).
Proof.
  unfold MarshalIndent, table_value, Unmarshal.
  set (entries := merge_sort key_order (map_to_list m)).
  destruct (mapM _ entries) as [members |] eqn:Hmembers; [| discriminate].
  intros Hdata Hm.
  assert (Hprint : data = print 0 (Object members)) by now injection Hdata.
  subst data. clear Hdata.
  assert (Hperm : entries ≡ₚ map_to_list m) by apply merge_sort_Permutation.
  rewrite parse_print_document by (apply wf_object, (entries_wf entries), Hmembers).
  cbn [decode_table].
  rewrite (decode_entries entries members ∅ Hmembers).
  - rewrite foldl_insert_entries
      by (rewrite Hperm; apply NoDup_fst_map_to_list).
    rewrite (right_id_L ∅ (∪)). f_equal. unfold coerce_table.
    rewrite list_to_map_fmap. f_equal.
    rewrite (list_to_map_proper entries (map_to_list m));
      [apply list_to_map_to_list | | exact Hperm].
    rewrite Hperm. apply NoDup_fst_map_to_list.
  - rewrite Hperm. apply map_Forall_to_list in Hm.
    eapply Forall_impl; [exact Hm |]. intros [userID l] H. exact H.
Qed.

(** What [MarshalIndent] writes is never the empty text. *)
Lemma MarshalIndent_not_empty (m : gmap Z (list Interaction)) (data : string) :
  MarshalIndent m = Some data -> data <> EmptyString.
Proof.
  unfold MarshalIndent. destruct (table_value m) as [v |] eqn:Hv; [| discriminate].
  intros [= <-]. unfold table_value in Hv.
  destruct (mapM _ _) as [[|member members] |]; try discriminate;
    injection Hv as <-; discriminate.
Qed.

End Table.

(** ** The store, saved and loaded *)

Section Reload.
Import utf8 json_table.

Lemma valid_coerce (s : string) : valid s = true -> coerce s = s.
Proof. unfold valid. intros H. now apply String.eqb_eq. Qed.

Lemma coerce_table_valid (m : gmap Z (list Interaction)) :
  valid_texts m -> coerce_table m = m.
Proof.
  intros Hm. unfold coerce_table. apply map_eq. intros userID.
  rewrite lookup_fmap. destruct (m !! userID) as [l |] eqn:Hl; [| reflexivity].
  cbn [fmap option_fmap option_map]. f_equal. specialize (Hm userID l Hl). cbn beta in Hm.
  clear Hl. induction Hm as [|i l (Hum & Har & Hact) _ IH]; [reflexivity |].
  cbn [map]. rewrite IH. f_equal. destruct i as [uid t um ar act].
  unfold coerce_interaction. cbn [i_UserID i_Timestamp i_UserMessage i_AIResponse i_Action] in *.
  now rewrite !valid_coerce.
Qed.

Lemma archive_codec : documented_codec archive.C archive.disk.
Proof.
  split; [intros m | intros data]; cbn [json_MarshalIndent json_Unmarshal_interactions
                                         archive.C archive.disk].
  - now destruct (MarshalIndent m).
  - now destruct (Unmarshal data).
Qed.

End Reload.

(** Claim C8, amended. Saving the table ([saveInteractions]) and loading
    the file in a restarted process ([loadInteractions]), whatever the
    table of that process holds, ends without an error and leaves in it
    the saved table with every stored text coerced to UTF-8, each byte
    that is part of no valid encoding replaced by U+FFFD: the identical
    table when all the stored texts are valid UTF-8. This holds when
    [encoding/json] and [time] do what their documentation says, the save
    returns no error, the file read is the one just written, the user ids
    are [int64] values and the zone of every timestamp is a whole number
    of minutes from UTC; a timestamp is its instant in seconds and the
    offset of its zone. *)
Theorem saved_table_is_reloaded_coerced (C : Collaborators) (disk : Storage) (w : World)
        (stale : gmap Z (list Interaction)) :
  let m := interactions (db w) in
  let saved := database.saveInteractions C w in
  let loaded := database_load.loadInteractions disk (restarted saved.2 stale) in
  documented_codec C disk ->
  saved.1 = None ->
  (forall data, written (trace saved.2) (filePath (db w)) = Some data ->
                os_ReadFile disk (trace saved.2) (filePath (db w)) = ReadFile_data data) ->
  json_table.representable_table m ->
  loaded.1 = None
  /\ interactions (db loaded.2) = json_table.coerce_table m
  /\ filePath (db loaded.2) = filePath (db w)
  /\ (valid_texts m -> interactions (db loaded.2) = m).
Proof.
  intros m saved loaded [Hmarshal Hunmarshal] Hsaved Hdisk Hm.
  pose proof (saveInteractions_run C w) as Hrun. cbv zeta in Hrun.
  specialize (Hmarshal m). fold m in Hrun.
  destruct (json_MarshalIndent C m) as [data | e].
  2:{ subst saved. rewrite Hrun in Hsaved. discriminate Hsaved. }
  assert (Htrace : trace saved.2 = trace w ++ [CallWriteFile (filePath (db w)) data])
    by (subst saved; now rewrite Hrun).
  assert (Hlogs : filePath (db saved.2) = filePath (db w))
    by (subst saved; now rewrite Hrun).
  assert (Hwritten : written (trace saved.2) (filePath (db w)) = Some data).
  { rewrite Htrace. unfold written. rewrite foldl_app. cbn [foldl].
    now rewrite String.eqb_refl. }
  specialize (Hdisk data Hwritten). specialize (Hunmarshal data).
  rewrite (Unmarshal_MarshalIndent m data Hmarshal Hm) in Hunmarshal.
  assert (Hload : loaded
                  = (None, mkWorld (mkDatabase (filePath (db w)) (json_table.coerce_table m))
                                   (trace saved.2) (logs saved.2))).
  { subst loaded. unfold database_load.loadInteractions, bind, get_filePath, restarted.
    cbn [fst snd db trace logs filePath]. rewrite Hlogs, Hdisk.
    destruct (Z.eqb_spec (len data) 0) as [Hlen | _].
    - exfalso. apply (MarshalIndent_not_empty m data Hmarshal).
      unfold len in Hlen. destruct data; [reflexivity | cbn in Hlen; lia].
    - destruct (json_Unmarshal_interactions disk data) as [m' | e]; [| discriminate].
      injection Hunmarshal as ->. reflexivity. }
  rewrite Hload. cbn [fst snd db interactions filePath].
  repeat split. intros Hvalid. now apply coerce_table_valid.
Qed.

(** On a store whose texts are valid UTF-8, saving and loading gives the
    store back. *)
Lemma saved_table_is_reloaded_coerced_witness :
  documented_codec archive.C archive.disk
  /\ (database.saveInteractions archive.C archive.greeted).1 = None
  /\ json_table.representable_table (interactions (db archive.greeted))
  /\ valid_texts (interactions (db archive.greeted))
  /\ (archive.reload archive.greeted).1 = None
  /\ interactions (db (archive.reload archive.greeted).2)
     = interactions (db archive.greeted)
  /\ stored (archive.reload archive.greeted).2 7
     = [mkInteraction 7 (mkTime 1754350000 7200) "café?" "Bonjour!" "None"].
Proof.
  assert (Hsaved : (database.saveInteractions archive.C archive.greeted).1 = None)
    by (vm_compute; reflexivity).
  assert (Htable : interactions (db archive.greeted)
                   = {[ 7 := [mkInteraction 7 (mkTime 1754350000 7200)
                                            "café?" "Bonjour!" "None"] ]})
    by (vm_compute; reflexivity).
  assert (Hm : json_table.representable_table (interactions (db archive.greeted))).
  { rewrite Htable. apply map_Forall_singleton.
    unfold json_table.representable, json_table.int64.
    repeat constructor; cbn; lia. }
  assert (Hvalid : valid_texts (interactions (db archive.greeted))).
  { rewrite Htable. apply map_Forall_singleton. repeat constructor. }
  pose proof (saved_table_is_reloaded_coerced archive.C archive.disk archive.greeted ∅
                archive_codec Hsaved
                ltac:(intros data Hdata; cbn [os_ReadFile archive.disk]; now rewrite Hdata)
                Hm) as (Hnone & _ & _ & Hsame).
  fold (archive.reload archive.greeted) in Hnone, Hsame.
  split; [exact archive_codec |]. split; [exact Hsaved |]. split; [exact Hm |].
  split; [exact Hvalid |]. split; [exact Hnone |]. split; [exact (Hsame Hvalid) |].
  unfold stored. rewrite (Hsame Hvalid), Htable. reflexivity.
Defined.

(** Claim C8 as stated fails: a message that is the byte 0xFF is stored,
    saved and loaded without an error, and comes back as U+FFFD. *)
Lemma invalid_text_is_not_reloaded :
  documented_codec archive.C archive.disk
  /\ stored archive.garbled 7
     = [mkInteraction 7 (mkTime 1754350000 7200) archive.xff "Pardon?" ""]
  /\ (database.saveInteractions archive.C archive.garbled).1 = None
  /\ (archive.reload archive.garbled).1 = None
  /\ stored (archive.reload archive.garbled).2 7
     = [mkInteraction 7 (mkTime 1754350000 7200) utf8.replacement "Pardon?" ""]
  /\ interactions (db (archive.reload archive.garbled).2)
     <> interactions (db archive.garbled).
Proof.
  split; [exact archive_codec |].
  assert (Hbefore : stored archive.garbled 7
                    = [mkInteraction 7 (mkTime 1754350000 7200) archive.xff "Pardon?" ""])
    by (vm_compute; reflexivity).
  assert (Hafter : stored (archive.reload archive.garbled).2 7
                   = [mkInteraction 7 (mkTime 1754350000 7200) utf8.replacement
                                    "Pardon?" ""])
    by (vm_compute; reflexivity).
  split; [exact Hbefore |]. split; [vm_compute; reflexivity |].
  split; [vm_compute; reflexivity |]. split; [exact Hafter |].
  intros Hsame. unfold stored in Hbefore, Hafter. rewrite Hsame, Hbefore in Hafter.
  discriminate Hafter.
Qed.

(** * The properties of the other packages on concrete runs *)

(** A meeting is booked. *)
Lemma makeEvent_creates_one_event_witness :
  calendar_calls (trace (ai.ProcessUserMessage office.C 7 70 "book it" demo.fresh).2)
  = [CallCreateEvent "Review" "2025-08-06" "14:00" "Quarterly review" "Room B"]
  /\ sink_calls (trace (ai.ProcessUserMessage office.C 7 70 "book it" demo.fresh).2)
     = [(70, "Event 'Review' created successfully for 2025-08-06 at 14:00")].
Proof.
  exact (makeEvent_creates_one_event office.C 7 70 "book it" demo.fresh _ _
           eq_refl eq_refl eq_refl).
Defined.

(** The calendar does not know the event to cancel. *)
Lemma named_event_is_deleted_or_updated_witness :
  calendar_calls (trace (ai.ProcessUserMessage office.C 7 70 "cancel 42" demo.fresh).2)
  = [CallDeleteEvent "evt42"]
  /\ sink_calls (trace (ai.ProcessUserMessage office.C 7 70 "cancel 42" demo.fresh).2)
     = [(70, "Error deleting event: googleapi: Error 404: Not Found")].
Proof.
  exact (proj1 (named_event_is_deleted_or_updated office.C 7 70 "cancel 42" demo.fresh _ _
                  eq_refl eq_refl ltac:(discriminate)) eq_refl).
Defined.

(** Nothing to do for the calendar. *)
Lemma other_actions_only_talk_witness :
  calendar_calls (trace (ai.ProcessUserMessage office.C 7 70 "thanks" demo.fresh).2) = []
  /\ sink_calls (trace (ai.ProcessUserMessage office.C 7 70 "thanks" demo.fresh).2)
     = [(70, "You are welcome!")].
Proof.
  exact (other_actions_only_talk office.C 7 70 "thanks" demo.fresh _ _ eq_refl eq_refl
           ltac:(discriminate) ltac:(discriminate) ltac:(discriminate)
           ltac:(discriminate)).
Defined.

(** The model answers in plain words. *)
Lemma plain_reply_is_passed_on_witness :
  calendar_calls (trace (ai.ProcessUserMessage office.C 7 70 "hello" demo.fresh).2) = []
  /\ sink_calls (trace (ai.ProcessUserMessage office.C 7 70 "hello" demo.fresh).2)
     = [(70, "hello")]
  /\ exists t,
       last (stored (ai.ProcessUserMessage office.C 7 70 "hello" demo.fresh).2 7)
       = Some (mkInteraction 7 t "hello" "hello" "message").
Proof.
  exact (plain_reply_is_passed_on office.C 7 70 "hello" demo.fresh "hello" []
           eq_refl eq_refl).
Defined.

(** Two cleanups of the aged store, 30 days back from the same instant. *)
Lemma second_Cleanup_removes_nothing_witness :
  let w1 := (database_admin.Cleanup office.C office.T 30 office.aged).2 in
  let w2 := (database_admin.Cleanup office.C office.T 30 w1).2 in
  db w2 = db w1
  /\ logs w2 = logs w1 ++ [mkLog "Cleaned up %d old interactions" [LInt 0]].
Proof.
  exact (second_Cleanup_removes_nothing office.C office.T 30 30 office.aged eq_refl).
Defined.

(** A backup right after the first interaction of a fresh store. *)
Lemma Backup_copies_the_last_save_witness :
  let added := database.AddInteraction office.C 7 "hi" "Hello!" "None" demo.fresh in
  let run := database_admin.Backup office.C "backup/interactions.json" added.2 in
  exists data,
    json_MarshalIndent office.C (interactions (db added.2)) = Ok data
    /\ trace run.2
       = trace demo.fresh
         ++ [CallNow; CallWriteFile (filePath (db demo.fresh)) data;
             CallWriteFile "backup/interactions.json" data]
    /\ db run.2 = db added.2
    /\ logs run.2 = logs added.2
    /\ run.1 = match os_WriteFile office.C (trace run.2) "backup/interactions.json" data with
               | Some e => Some ("failed to write backup file: " +:+ e)
               | None => None
               end.
Proof.
  exact (Backup_copies_the_last_save office.C 7 "hi" "Hello!" "None"
           "backup/interactions.json" demo.fresh eq_refl).
Defined.

(** A key of twenty bytes. *)
Lemma MaskToken_shows_only_the_ends_witness :
  config.MaskToken "sk-proj-0123456789ab" = "sk-p...89ab"
  /\ forall token, len token <= 8 -> config.MaskToken token = "***".
Proof.
  exact (MaskToken_shows_only_the_ends "sk-p" "roj-01234567" "89ab" eq_refl eq_refl).
Defined.

(** The client refuses the second part of the long text: the first part
    and its pause are all that goes out before it. *)
Lemma long_send_stops_at_the_first_failure_witness :
  len demo.long_text > 4096
  /\ (telegram.SendMessage office.C 70 demo.long_text demo.fresh).1
     = Some "failed to send message part 2/2: Too Many Requests: retry after 5"
  /\ exists first second,
       with_markers (telegram.split_loop demo.long_text 0 []) = [first; second]
       /\ trace (telegram.SendMessage office.C 70 demo.long_text demo.fresh).2
          = [CallSendMessage 70 demo.long_text; CallBotSend 70 first; CallSleep 100;
             CallBotSend 70 second].
Proof.
  assert (Hlong : len demo.long_text > 4096) by (vm_compute; reflexivity).
  split; [exact Hlong |].
  destruct (with_markers (telegram.split_loop demo.long_text 0 []))
    as [| first [| second [|]]] eqn:Hparts; try (vm_compute in Hparts; discriminate Hparts).
  pose proof (proj1 (long_send_stops_at_the_first_failure office.C 70 demo.long_text
                       demo.fresh Hlong) 1%nat second
                    "Too Many Requests: retry after 5") as Hstop.
  cbv zeta in Hstop. rewrite Hparts in Hstop.
  destruct Hstop as [Hres Htrace].
  - reflexivity.
  - intros [|j] earlier Hj Hearlier; [| lia].
    injection Hearlier as <-. reflexivity.
  - reflexivity.
  - split; [rewrite Hres; vm_compute; reflexivity |].
    exists first, second. split; [reflexivity | exact Htrace].
Defined.

